(** * Chartbot: query understanding and answer synthesis

    A shallow embedding of the query pipeline of the Billboard chatbot
    ([chatbot_logic.py], [data_utils.py]) together with the properties its
    specification states about it.

    Modelling conventions.
    - A Python [str] is a [string] of 8-bit characters; the character classes
      ([\s], [\d], [\w], [str.lower], [str.strip], [re.IGNORECASE]) are the
      ASCII ones.  They are Python's on ASCII text ([str.isascii]); on other
      text Python's classes are the Unicode ones, and a property that depends
      on how such text is read is stated for ASCII text.
    - A Python [int] (and a numpy integer column) is a [Z].  The conversion
      [int(s)] is [py_int]: on a run of digits it gives the value
      [int_of_digits s], and it raises [ValueError] when the run has more
      digits than the interpreter's limit on such conversions, 4300, which
      the program does not change.  The parser applies it to captured runs
      of digits only, which is proved ([int_calls_are_safe]), and the
      orchestrator behind a test of [str.isdigit].
    - A function that can raise returns a [result]: [ok] with its value, or
      [raised] with the exception.
    - The [re] module is embedded as a backtracking matcher over a small
      regular-expression syntax which covers every pattern the parser uses.
    - The dataframe [df] is a list of chart entries in row order.
    - The three library calls whose implementation is outside the repository
      are section variables: the similarity score [fuzz.partial_ratio], the
      regular-expression search of [Series.str.contains], and the
      language-model translator [parse_query_with_flan]. *)

From Stdlib Require Import List String Ascii ZArith Lia Bool Arith.
From Stdlib Require Import Permutation Sorted DecimalString.
Import ListNotations.

Local Open Scope string_scope.
Local Open Scope list_scope.

Set Implicit Arguments.

(** ** Python string primitives *)

Module PyStr.

Definition code (c : ascii) : nat := nat_of_ascii c.

Definition is_digit (c : ascii) : bool :=
  (48 <=? code c)%nat && (code c <=? 57)%nat.

Definition is_upper (c : ascii) : bool :=
  (65 <=? code c)%nat && (code c <=? 90)%nat.

Definition is_lower (c : ascii) : bool :=
  (97 <=? code c)%nat && (code c <=? 122)%nat.

(** [\w] on an ASCII character: letters, digits and the underscore.  (On
    other text Python's class also holds the letters and digits of other
    scripts.) *)
Definition is_word (c : ascii) : bool :=
  is_digit c || is_upper c || is_lower c || (code c =? 95)%nat.

(** [str.isspace] on one character, which is also [\s]: tab, line feed,
    vertical tab, form feed, carriage return, the four separators
    0x1c-0x1f, and the space. *)
Definition is_space (c : ascii) : bool :=
  ((9 <=? code c)%nat && (code c <=? 13)%nat)
  || ((28 <=? code c)%nat && (code c <=? 32)%nat).

Definition lower_char (c : ascii) : ascii :=
  if is_upper c then ascii_of_nat (code c + 32) else c.

(** [s.lower()] *)
Fixpoint lower (s : string) : string :=
  match s with
  | EmptyString => EmptyString
  | String c s' => String (lower_char c) (lower s')
  end.

(** [s.lstrip(chars)], [s.rstrip(chars)] and [s.strip(chars)] for a set of
    characters given by its membership test. *)
Fixpoint lstrip_chars (p : ascii -> bool) (s : string) : string :=
  match s with
  | EmptyString => EmptyString
  | String c s' => if p c then lstrip_chars p s' else s
  end.

Fixpoint rstrip_chars (p : ascii -> bool) (s : string) : string :=
  match s with
  | EmptyString => EmptyString
  | String c s' =>
      match rstrip_chars p s' with
      | EmptyString => if p c then EmptyString else String c EmptyString
      | r => String c r
      end
  end.

Definition strip_chars (p : ascii -> bool) (s : string) : string :=
  rstrip_chars p (lstrip_chars p s).

(** [s.strip()] *)
Definition strip (s : string) : string := strip_chars is_space s.

(** The truth value of a string: [if s:] holds when [s] is not empty. *)
Definition truthy (s : string) : bool :=
  match s with EmptyString => false | _ => true end.

(** [s.isdigit()]: not empty and only digits. *)
Definition all_digits (s : string) : bool :=
  forallb is_digit (list_ascii_of_string s).

Definition isdigit (s : string) : bool := truthy s && all_digits s.

Definition digit_val (c : ascii) : Z := Z.of_nat (code c - 48).

(** The value of a run of decimal digits. *)
Definition int_of_digits (s : string) : Z :=
  fold_left (fun acc c => 10 * acc + digit_val c)%Z (list_ascii_of_string s) 0%Z.

(** The exceptions that the program meets: the [ValueError] of [int] on a
    text of more digits than the limit, whose message holds the number of
    digits of the text. *)
Inductive Exn : Type :=
| ValueError_int_max_str_digits (digits : nat).
    (* Exceeds the limit (4300 digits) for integer string conversion:
       value has {digits} digits; ... *)

(** The outcome of a function that can raise. *)
Inductive result (A : Type) : Type :=
| ok (a : A)
| raised (e : Exn).

Arguments ok {A} a.
Arguments raised {A} e.

(** [x = f(...); rest] when [f] can raise. *)
Definition bind (A B : Type) (x : result A) (rest : A -> result B)
  : result B :=
  match x with
  | ok a => rest a
  | raised e => raised e
  end.

(** [sys.get_int_max_str_digits()], which the program leaves at its
    default. *)
Definition int_max_str_digits : nat := 4300.

(** [int(s)] for a run of decimal digits (on another text [int] raises or
    reads a sign, white space or underscores; the program does not apply
    it to one): every digit counts towards the limit, leading zeros
    too. *)
Definition py_int (s : string) : result Z :=
  if (String.length s <=? int_max_str_digits)%nat then ok (int_of_digits s)
  else raised (ValueError_int_max_str_digits (String.length s)).

(** [s.isascii()] *)
Definition isascii (s : string) : bool :=
  forallb (fun c => (code c <? 128)%nat) (list_ascii_of_string s).

(** [c in s] for a character [c]. *)
Fixpoint has_char (c : ascii) (s : string) : bool :=
  match s with
  | EmptyString => false
  | String a s' => Ascii.eqb a c || has_char c s'
  end.

(** [s.split(sep)] for a one-character separator. *)
Fixpoint split_on (sep : ascii) (s : string) : list string :=
  match s with
  | EmptyString => [EmptyString]
  | String c s' =>
      if Ascii.eqb c sep then EmptyString :: split_on sep s'
      else match split_on sep s' with
           | p :: ps => String c p :: ps
           | [] => [String c EmptyString]
           end
  end.

(** [s.split(sep, 1)] when [sep in s]: the text before the first separator
    and the text after it. *)
Fixpoint split_first (sep : ascii) (s : string) : string * string :=
  match s with
  | EmptyString => (EmptyString, EmptyString)
  | String c s' =>
      if Ascii.eqb c sep then (EmptyString, s')
      else let (a, b) := split_first sep s' in (String c a, b)
  end.

(** The first [n] characters of [s]. *)
Fixpoint take (n : nat) (s : string) : string :=
  match n, s with
  | S n', String c s' => String c (take n' s')
  | _, _ => EmptyString
  end.

End PyStr.

(** ** The [re] module *)

Module Re.
Import PyStr.

(** One-character classes: [.], [\d], [\s] and a literal character. *)
Inductive cclass : Type :=
| CAny
| CDigit
| CSpace
| CLit (c : ascii).

(** Patterns.  A repetition ranges over one character class, which is the
    only form of repetition the patterns of the program use: [Rep cl lo hi
    greedy] is [cl{lo,hi}], unbounded when [hi] is [None], and lazy
    ([cl{lo,hi}?]) when [greedy] is [false]. *)
Inductive regex : Type :=
| Eps
| Chr (cl : cclass)
| Rep (cl : cclass) (lo : nat) (hi : option nat) (greedy : bool)
| Seq (r1 r2 : regex)
| Alt (r1 r2 : regex)
| Grp (i : nat) (r : regex)
| Eos
| WordB.

(** The text of the capture groups that took part in a match. *)
Definition caps : Type := list (nat * string).

Fixpoint set_group (i : nat) (v : string) (cs : caps) : caps :=
  match cs with
  | [] => [(i, v)]
  | (j, w) :: cs' =>
      if (i =? j)%nat then (i, v) :: cs' else (j, w) :: set_group i v cs'
  end.

(** [match.group(i)]; every group of every pattern of the program takes
    part in each of its matches, so the default is never used. *)
Fixpoint group (i : nat) (cs : caps) : string :=
  match cs with
  | [] => EmptyString
  | (j, w) :: cs' => if (i =? j)%nat then w else group i cs'
  end.

Section Matcher.
(** [ci] is the flag [re.IGNORECASE]: an ASCII character of the pattern
    and one of the text match when their lower-case forms are equal.  (On
    other text Python also matches the few characters whose case folding
    is an ASCII letter, such as the long s for [s].) *)
Variable ci : bool.

Definition cmatch (cl : cclass) (a : ascii) : bool :=
  match cl with
  | CAny => negb (code a =? 10)%nat
  | CDigit => is_digit a
  | CSpace => is_space a
  | CLit c =>
      if ci then Ascii.eqb (lower_char a) (lower_char c) else Ascii.eqb a c
  end.

(** [$]: the end of the text, or just before a line feed that ends it. *)
Definition at_end (s : string) : bool :=
  match s with
  | EmptyString => true
  | String c EmptyString => (code c =? 10)%nat
  | _ => false
  end.

Definition word_before (prev : option ascii) : bool :=
  match prev with Some c => is_word c | None => false end.

Definition word_after (s : string) : bool :=
  match s with String c _ => is_word c | EmptyString => false end.

(** [\b]: exactly one of the two neighbouring characters is a word
    character. *)
Definition word_boundary (prev : option ascii) (s : string) : bool :=
  xorb (word_before prev) (word_after s).

Definition dec_hi (hi : option nat) : option nat :=
  match hi with Some n => Some (pred n) | None => None end.

Definition may_repeat (hi : option nat) : bool :=
  match hi with Some 0 => false | _ => true end.

Section WithResult.
Variable R : Type.

(** A continuation receives the character just consumed, the rest of
    the text and the groups captured so far. *)
Definition cont : Type := option ascii -> string -> caps -> option R.

Fixpoint rep_match (cl : cclass) (greedy : bool) (lo : nat)
         (hi : option nat) (prev : option ascii) (s : string)
         (cs : caps) (k : cont) {struct s} : option R :=
  let more :=
    match s with
    | String a s' =>
        if may_repeat hi && cmatch cl a
        then rep_match cl greedy (pred lo) (dec_hi hi) (Some a) s' cs k
        else None
    | EmptyString => None
    end in
  match lo with
  | S _ => more
  | O =>
      if greedy
      then match more with
           | Some x => Some x
           | None => k prev s cs
           end
      else match k prev s cs with
           | Some x => Some x
           | None => more
           end
  end.

(** The backtracking matcher: alternatives are tried left to right, a
    greedy repetition tries the longest run first and a lazy one the
    shortest. *)
Fixpoint rmatch (r : regex) (prev : option ascii) (s : string)
         (cs : caps) (k : cont) {struct r} : option R :=
  match r with
  | Eps => k prev s cs
  | Chr cl =>
      match s with
      | String a s' => if cmatch cl a then k (Some a) s' cs else None
      | EmptyString => None
      end
  | Rep cl lo hi greedy => rep_match cl greedy lo hi prev s cs k
  | Seq r1 r2 =>
      rmatch r1 prev s cs (fun p s' cs' => rmatch r2 p s' cs' k)
  | Alt r1 r2 =>
      match rmatch r1 prev s cs k with
      | Some x => Some x
      | None => rmatch r2 prev s cs k
      end
  | Grp i r1 =>
      rmatch r1 prev s cs
        (fun p s' cs' =>
           k p s' (set_group i (take (String.length s - String.length s') s) cs'))
  | Eos => if at_end s then k prev s cs else None
  | WordB => if word_boundary prev s then k prev s cs else None
  end.
End WithResult.

(** [re.search(r, s)]: the match at the leftmost position that has one. *)
Fixpoint search_from (r : regex) (prev : option ascii) (s : string)
  : option caps :=
  match rmatch r prev s [] (fun _ _ cs => Some cs) with
  | Some cs => Some cs
  | None =>
      match s with
      | String a s' => search_from r (Some a) s'
      | EmptyString => None
      end
  end.

Definition re_search (r : regex) (s : string) : option caps :=
  search_from r None s.

(** The length of the match of [r] that starts here, if there is one. *)
Definition match_len (r : regex) (prev : option ascii) (s : string)
  : option nat :=
  rmatch r prev s []
    (fun _ s' _ => Some (String.length s - String.length s')).

(** [re.sub(r, repl, s)] for a literal replacement: the matches are
    found left to right and do not overlap; [skip] counts the characters
    of the current match that are still to be dropped.  The patterns it is
    used with match at least one character. *)
Fixpoint sub_from (r : regex) (repl : string) (prev : option ascii)
         (s : string) (skip : nat) {struct s} : string :=
  match s with
  | EmptyString =>
      match match_len r prev EmptyString with
      | Some _ => repl
      | None => EmptyString
      end
  | String c s' =>
      match skip with
      | S n => sub_from r repl (Some c) s' n
      | O =>
          match match_len r prev s with
          | Some (S n) => repl ++ sub_from r repl (Some c) s' n
          | Some O => repl ++ String c (sub_from r repl (Some c) s' 0)
          | None => String c (sub_from r repl (Some c) s' 0)
          end
      end
  end.

Definition re_sub (r : regex) (repl : string) (s : string) : string :=
  sub_from r repl None s 0.

End Matcher.

(** *** Pattern combinators *)

(** A literal piece of pattern text. *)
Fixpoint lit (s : string) : regex :=
  match s with
  | EmptyString => Eps
  | String c EmptyString => Chr (CLit c)
  | String c s' => Seq (Chr (CLit c)) (lit s')
  end.

(** [r?] *)
Definition opt (r : regex) : regex := Alt r Eps.

(** [r1 r2 ... rn] *)
Fixpoint seqs (rs : list regex) : regex :=
  match rs with
  | [] => Eps
  | [r] => r
  | r :: rs' => Seq r (seqs rs')
  end.

(** [(?:r1|r2|...|rn)] *)
Fixpoint alts (rs : list regex) : regex :=
  match rs with
  | [] => Eps
  | [r] => r
  | r :: rs' => Alt r (alts rs')
  end.

(** [\s+] *)
Definition sp1 : regex := Rep CSpace 1 None true.
(** [\d+] *)
Definition digits1 : regex := Rep CDigit 1 None true.
(** [\d{n}] *)
Definition digitsN (n : nat) : regex := Rep CDigit n (Some n) true.
(** [.+?] *)
Definition lazy1 : regex := Rep CAny 1 None false.
(** [(?:\?|$)] *)
Definition q_or_end : regex := Alt (Chr (CLit "?")) Eos.

End Re.

(** ** The intent parser ([chatbot_logic.py]) *)

Module Parser.
Import PyStr Re.

(** The dictionary that [enhanced_query_parser] returns: each key is either
    absent or bound. *)
Record ParsedQuery : Type := mkParsed {
  q_intent : option string;
  q_n : option Z;
  q_year : option Z;
  q_decade_start : option Z;
  q_song : option string;
  q_artist : option string
}.

(** [result = {}] *)
Definition empty_result : ParsedQuery :=
  mkParsed None None None None None None.

(** [(?:of|from|in)] *)
Definition of_from_in : regex := alts [lit "of"; lit "from"; lit "in"].
(** [(?:of|from)] *)
Definition of_from : regex := alts [lit "of"; lit "from"].
(** [songs?] *)
Definition songs : regex := seqs [lit "song"; opt (lit "s")].
(** [(?:songs?|hits?)] *)
Definition songs_or_hits : regex :=
  alts [seqs [lit "song"; opt (lit "s")]; seqs [lit "hit"; opt (lit "s")]].
(** [(?:top|best)] *)
Definition top_or_best : regex := alts [lit "top"; lit "best"].
(** [(?:was|did)] *)
Definition was_or_did : regex := alts [lit "was"; lit "did"].
(** [(?:\?|$|on)] *)
Definition q_end_or_on : regex := alts [Chr (CLit "?"); Eos; lit "on"].
(** [(?:duration|weeks|chart time)] *)
Definition duration_words : regex :=
  alts [lit "duration"; lit "weeks"; lit "chart time"].

(** Pattern 1: top N songs of a specific year. *)
Definition top_year_patterns : list regex :=
  [ (* top\s+(\d+)\s+songs?\s+(?:of|from|in)\s+(\d{4}) *)
    seqs [lit "top"; sp1; Grp 1 digits1; sp1; songs; sp1; of_from_in; sp1;
          Grp 2 (digitsN 4)];
    (* best\s+(\d+)\s+(?:songs?|hits?)\s+(?:of|from|in)\s+(\d{4}) *)
    seqs [lit "best"; sp1; Grp 1 digits1; sp1; songs_or_hits; sp1;
          of_from_in; sp1; Grp 2 (digitsN 4)];
    (* (\d+)\s+(?:top|best)\s+songs?\s+(?:of|from|in)\s+(\d{4}) *)
    seqs [Grp 1 digits1; sp1; top_or_best; sp1; songs; sp1; of_from_in; sp1;
          Grp 2 (digitsN 4)];
    (* show\s+me\s+(?:top\s+)?(\d+)\s+songs?\s+(?:of|from|in)\s+(\d{4}) *)
    seqs [lit "show"; sp1; lit "me"; sp1; opt (seqs [lit "top"; sp1]);
          Grp 1 digits1; sp1; songs; sp1; of_from_in; sp1;
          Grp 2 (digitsN 4)] ].

(** Pattern 2: top songs without a number. *)
Definition top_year_default_patterns : list regex :=
  [ (* top\s+songs?\s+(?:of|from|in)\s+(\d{4}) *)
    seqs [lit "top"; sp1; songs; sp1; of_from_in; sp1; Grp 1 (digitsN 4)];
    (* best\s+(?:songs?|hits?)\s+(?:of|from|in)\s+(\d{4}) *)
    seqs [lit "best"; sp1; songs_or_hits; sp1; of_from_in; sp1;
          Grp 1 (digitsN 4)];
    (* popular\s+songs?\s+(?:of|from|in)\s+(\d{4}) *)
    seqs [lit "popular"; sp1; songs; sp1; of_from_in; sp1;
          Grp 1 (digitsN 4)] ].

(** Pattern 3: decade queries. *)
Definition decade_patterns : list regex :=
  [ (* (?:top|best)\s+(?:songs?|hits?)\s+(?:of|from)\s+the\s+(\d{2})s *)
    seqs [top_or_best; sp1; songs_or_hits; sp1; of_from; sp1; lit "the";
          sp1; Grp 1 (digitsN 2); lit "s"];
    (* (?:top|best)\s+(?:songs?|hits?)\s+(?:of|from)\s+(\d{4})s *)
    seqs [top_or_best; sp1; songs_or_hits; sp1; of_from; sp1;
          Grp 1 (digitsN 4); lit "s"];
    (* best\s+of\s+(?:the\s+)?(\d{2})s *)
    seqs [lit "best"; sp1; lit "of"; sp1; opt (seqs [lit "the"; sp1]);
          Grp 1 (digitsN 2); lit "s"];
    (* best\s+of\s+(\d{4})s *)
    seqs [lit "best"; sp1; lit "of"; sp1; Grp 1 (digitsN 4); lit "s"] ].

(** Pattern 4: song duration queries that name the artist. *)
Definition duration_with_artist_patterns : list regex :=
  [ (* how long (?:was|did) (.+?) by (.+?) (?:stay|on|chart|last) *)
    seqs [lit "how long "; was_or_did; lit " "; Grp 1 lazy1; lit " by ";
          Grp 2 lazy1; lit " ";
          alts [lit "stay"; lit "on"; lit "chart"; lit "last"]];
    (* how many weeks (?:was|did) (.+?) by (.+?) (?:on|stay|chart) *)
    seqs [lit "how many weeks "; was_or_did; lit " "; Grp 1 lazy1;
          lit " by "; Grp 2 lazy1; lit " ";
          alts [lit "on"; lit "stay"; lit "chart"]];
    (* (.+?) by (.+?) (?:duration|weeks|chart time)(?:\?|$) *)
    seqs [Grp 1 lazy1; lit " by "; Grp 2 lazy1; lit " "; duration_words;
          q_or_end];
    (* duration (?:of|for) (.+?) by (.+?)(?:\?|$|on) *)
    seqs [lit "duration "; alts [lit "of"; lit "for"]; lit " "; Grp 1 lazy1;
          lit " by "; Grp 2 lazy1; q_end_or_on];
    (* (.+?) by (.+?) on (?:the )?chart(?:\?|$) *)
    seqs [Grp 1 lazy1; lit " by "; Grp 2 lazy1; lit " on ";
          opt (lit "the "); lit "chart"; q_or_end] ].

(** Pattern 5: song duration queries without an artist. *)
Definition duration_patterns : list regex :=
  [ (* how long (?:was|did) (.+?) (?:stay|on|chart|last) *)
    seqs [lit "how long "; was_or_did; lit " "; Grp 1 lazy1; lit " ";
          alts [lit "stay"; lit "on"; lit "chart"; lit "last"]];
    (* how many weeks (?:was|did) (.+?) (?:on|stay|chart) *)
    seqs [lit "how many weeks "; was_or_did; lit " "; Grp 1 lazy1; lit " ";
          alts [lit "on"; lit "stay"; lit "chart"]];
    (* duration (?:of|for) (.+?)(?:\?|$|on) *)
    seqs [lit "duration "; alts [lit "of"; lit "for"]; lit " "; Grp 1 lazy1;
          q_end_or_on];
    (* weeks (?:for|of) (.+?)(?:\?|$|on) *)
    seqs [lit "weeks "; alts [lit "for"; lit "of"]; lit " "; Grp 1 lazy1;
          q_end_or_on];
    (* (.+?) (?:duration|weeks|chart time)(?:\?|$) *)
    seqs [Grp 1 lazy1; lit " "; duration_words; q_or_end];
    (* chart time (?:for|of) (.+?)(?:\?|$) *)
    seqs [lit "chart time "; alts [lit "for"; lit "of"]; lit " ";
          Grp 1 lazy1; q_or_end];
    (* how long (.+?)(?:\?|$) *)
    seqs [lit "how long "; Grp 1 lazy1; q_or_end];
    (* (.+?) on (?:the )?chart(?:\?|$) *)
    seqs [Grp 1 lazy1; lit " on "; opt (lit "the "); lit "chart"; q_or_end];
    (* (.+?) billboard(?:\?|$) *)
    seqs [Grp 1 lazy1; lit " billboard"; q_or_end] ].

(** The stop words removed from a captured song and artist (pattern 4) and
    from a captured song (pattern 5). *)
Definition cleanup_words_with_artist : list string :=
  ["the"; "on"; "chart"; "billboard"; "hot"; "100"; "was"; "did"; "stay";
   "long"].

Definition cleanup_words : list string :=
  ["the"; "on"; "chart"; "billboard"; "hot"; "100"; "was"; "did"].

(** [rf'\b{word}\b'] *)
Definition word_re (word : string) : regex := seqs [WordB; lit word; WordB].

(** One turn of the clean-up loop:
    [re.sub(rf'\b{word}\b', '', name, flags=re.IGNORECASE).strip()]. *)
Definition remove_word (word : string) (name : string) : string :=
  strip (re_sub true (word_re word) "" name).

(** [re.sub(r'\s+', ' ', name).strip()] *)
Definition collapse_spaces (name : string) : string :=
  strip (re_sub false sp1 " " name).

(** The stop-word stripping of one captured name: the clean-up loop over
    [words], then the collapsing of white space. *)
Definition strip_stop_words (words : list string) (name : string) : string :=
  collapse_spaces (fold_left (fun acc w => remove_word w acc) words name).

(** The clean-up loop of pattern 4 rewrites the song and the artist in the
    same turn. *)
Definition cleanup_both (words : list string) (names : string * string)
  : string * string :=
  fold_left
    (fun (acc : string * string) w =>
       (remove_word w (fst acc), remove_word w (snd acc)))
    words names.

(** The decade that a captured decade token stands for. *)
Definition resolve_decade (decade_str : string) : result Z :=
  if (String.length decade_str =? 2)%nat then
    bind (py_int decade_str) (fun decade =>
    if (decade >=? 50)%Z then ok (1900 + decade)%Z
    else ok (2000 + decade)%Z)
  else py_int decade_str.

(** [for pattern in patterns: match = re.search(pattern, query_lower);
    if match: ...], where the body returns a result ([ok (Some r)]), lets
    the loop go on to the next pattern ([ok None]), or raises. *)
Fixpoint try_patterns (patterns : list regex)
         (body : caps -> result (option ParsedQuery)) (query_lower : string)
  : result (option ParsedQuery) :=
  match patterns with
  | [] => ok None
  | p :: rest =>
      match re_search false p query_lower with
      | Some m =>
          match body m with
          | ok (Some r) => ok (Some r)
          | ok None => try_patterns rest body query_lower
          | raised e => raised e
          end
      | None => try_patterns rest body query_lower
      end
  end.

Definition top_year_body (m : caps) : result (option ParsedQuery) :=
  bind (py_int (group 1 m)) (fun n =>
  bind (py_int (group 2 m)) (fun year =>
  ok (Some (mkParsed (Some "top_songs") (Some n) (Some year)
                     None None None)))).

Definition top_year_default_body (m : caps) : result (option ParsedQuery) :=
  bind (py_int (group 1 m)) (fun year =>
  ok (Some (mkParsed (Some "top_songs") (Some 10%Z) (Some year)
                     None None None))).

Definition decade_body (m : caps) : result (option ParsedQuery) :=
  bind (resolve_decade (group 1 m)) (fun year =>
  ok (Some (mkParsed (Some "top_songs_decade") (Some 20%Z) None
                     (Some year) None None))).

Definition duration_with_artist_body (m : caps)
  : result (option ParsedQuery) :=
  let song_name := strip (group 1 m) in
  let artist_name := strip (group 2 m) in
  let (song_name1, artist_name1) :=
    cleanup_both cleanup_words_with_artist (song_name, artist_name) in
  let song_name2 := collapse_spaces song_name1 in
  let artist_name2 := collapse_spaces artist_name1 in
  if truthy song_name2 && truthy artist_name2
  then ok (Some (mkParsed (Some "song_duration_with_artist") None None None
                          (Some song_name2) (Some artist_name2)))
  else ok None.

Definition duration_body (m : caps) : result (option ParsedQuery) :=
  let song_name := strip_stop_words cleanup_words (strip (group 1 m)) in
  if truthy song_name
  then ok (Some (mkParsed (Some "song_duration") None None None
                          (Some song_name) None))
  else ok None.

(** The rules of the cascade in their order; each is a list of patterns
    and the body run on a match. *)
Definition Rule : Type :=
  (list regex * (caps -> result (option ParsedQuery)))%type.

Definition cascade : list Rule :=
  [ (top_year_patterns, top_year_body);
    (top_year_default_patterns, top_year_default_body);
    (decade_patterns, decade_body);
    (duration_with_artist_patterns, duration_with_artist_body);
    (duration_patterns, duration_body) ].

Fixpoint run_cascade (rules : list Rule) (query_lower : string)
  : result ParsedQuery :=
  match rules with
  | [] => ok empty_result
  | (patterns, body) :: rest =>
      match try_patterns patterns body query_lower with
      | ok (Some r) => ok r
      | ok None => run_cascade rest query_lower
      | raised e => raised e
      end
  end.

(** The parser has no handler of its own: what a conversion raises leaves
    it. *)
Definition enhanced_query_parser (query : string) : result ParsedQuery :=
  let query_lower := strip (lower query) in
  run_cascade cascade query_lower.

End Parser.

(** ** Lists the way Python and pandas handle them *)

Module PyList.

(** [l[:k]] and [DataFrame.head(k)]: the first [k] elements, and for a
    negative [k] all but the last [-k]. *)
Definition slice_to (A : Type) (k : Z) (l : list A) : list A :=
  if (0 <=? k)%Z then firstn (Z.to_nat k) l
  else firstn (List.length l - Z.to_nat (- k)) l.

(** A stable sort: [x] is put in front of the first element it is not
    greater than, so equal elements keep their order. *)
Fixpoint insert_sorted (A : Type) (leb : A -> A -> bool) (x : A)
         (l : list A) : list A :=
  match l with
  | [] => [x]
  | y :: l' => if leb x y then x :: l else y :: insert_sorted leb x l'
  end.

Definition stable_sort (A : Type) (leb : A -> A -> bool) (l : list A)
  : list A :=
  fold_right (insert_sorted leb) [] l.

(** [for x in candidates: if len(matches) >= max_results: break;
    matches.append(x)] *)
Fixpoint append_until (A : Type) (max_results : Z) (matches : list A)
         (candidates : list A) : list A :=
  match candidates with
  | [] => matches
  | x :: rest =>
      if (Z.of_nat (List.length matches) >=? max_results)%Z then matches
      else append_until max_results (matches ++ [x]) rest
  end.

End PyList.

(** ** The chart store and its queries ([data_utils.py]) *)

Module DataUtils.
Import PyStr PyList.

(** One row of the dataframe. *)
Record ChartEntry : Type := mkEntry {
  date : string;
  rank : Z;
  song : string;
  artist : string;
  last_week : Z;
  peak_rank : Z;
  weeks_on_board : Z;
  year : Z
}.

Definition DataFrame : Type := list ChartEntry.

(** One row of [groupby(['song', 'artist']).agg({...}).reset_index()]:
    the key, the least rank, the least peak rank, the greatest number of
    weeks, and the first value of one more column ([last-week] or
    [year]). *)
Record Group : Type := mkGroup {
  g_song : string;
  g_artist : string;
  g_rank : Z;
  g_peak_rank : Z;
  g_weeks_on_board : Z;
  g_first : Z
}.

Section GroupBy.
(** The column aggregated with ['first']. *)
Variable first_col : ChartEntry -> Z.

Definition same_key (e : ChartEntry) (g : Group) : bool :=
  String.eqb (song e) (g_song g) && String.eqb (artist e) (g_artist g).

Definition new_group (e : ChartEntry) : Group :=
  mkGroup (song e) (artist e) (rank e) (peak_rank e) (weeks_on_board e)
          (first_col e).

Definition merge_row (g : Group) (e : ChartEntry) : Group :=
  mkGroup (g_song g) (g_artist g)
          (Z.min (g_rank g) (rank e))
          (Z.min (g_peak_rank g) (peak_rank e))
          (Z.max (g_weeks_on_board g) (weeks_on_board e))
          (g_first g).

Fixpoint add_row (e : ChartEntry) (gs : list Group) : list Group :=
  match gs with
  | [] => [new_group e]
  | g :: gs' =>
      if same_key e g then merge_row g e :: gs' else g :: add_row e gs'
  end.

(** The groups of the rows, in the order in which their keys first
    occur. *)
Definition collect_groups (rows : list ChartEntry) : list Group :=
  fold_left (fun gs e => add_row e gs) rows [].

(** [groupby] sorts the groups by key: by song, then by artist. *)
Definition key_leb (g1 g2 : Group) : bool :=
  match String.compare (g_song g1) (g_song g2) with
  | Lt => true
  | Eq => String.leb (g_artist g1) (g_artist g2)
  | Gt => false
  end.

Definition groupby_song_artist (rows : list ChartEntry) : list Group :=
  stable_sort key_leb (collect_groups rows).
End GroupBy.

(** [.sort_values('rank')]; rows of equal rank keep the order of the
    grouped frame (pandas does not promise an order among them). *)
Definition rank_leb (g1 g2 : Group) : bool := (g_rank g1 <=? g_rank g2)%Z.

Definition sort_values_rank (gs : list Group) : list Group :=
  stable_sort rank_leb gs.

(** [df['year'].min() <= year <= df['year'].max()]; on an empty frame both
    bounds are NaN and the comparison is false. *)
Definition year_min (df : DataFrame) : option Z :=
  match df with
  | [] => None
  | e :: rest => Some (fold_left (fun m e' => Z.min m (year e')) rest (year e))
  end.

Definition year_max (df : DataFrame) : option Z :=
  match df with
  | [] => None
  | e :: rest => Some (fold_left (fun m e' => Z.max m (year e')) rest (year e))
  end.

Definition validate_year_range (df : DataFrame) (y : Z) : bool :=
  match year_min df, year_max df with
  | Some lo, Some hi => (lo <=? y)%Z && (y <=? hi)%Z
  | _, _ => false
  end.

Definition get_top_songs_by_year (df : DataFrame) (y : Z) (n : Z)
  : list Group :=
  let year_data := filter (fun e => (year e =? y)%Z) df in
  match year_data with
  | [] => []
  | _ => slice_to n (sort_values_rank (groupby_song_artist last_week year_data))
  end.

Inductive MatchType : Type := exact | contains | fuzzy.

(** One dictionary of the result of [get_song_matches_with_duration]. *)
Record Match : Type := mkMatch {
  m_song : string;
  m_artist : string;
  weeks_on_chart : Z;
  best_rank : Z;
  m_peak_rank : Z;
  m_year : Z;
  match_score : Z;
  match_type : MatchType
}.

Definition make_match (score : Z) (ty : MatchType) (g : Group) : Match :=
  mkMatch (g_song g) (g_artist g) (g_weeks_on_board g) (g_rank g)
          (g_peak_rank g) (g_first g) score ty.

(** The values a caller may pass where a string is expected. *)
Inductive PyValue : Type :=
| PyNone
| PyBool (b : bool)
| PyInt (z : Z)
| PyStr (s : string).

(** [if v:] *)
Definition py_truth (v : PyValue) : bool :=
  match v with
  | PyNone => false
  | PyBool b => b
  | PyInt z => negb (z =? 0)%Z
  | PyStr s => truthy s
  end.

(** [isinstance(v, str)] *)
Definition is_str (v : PyValue) : bool :=
  match v with PyStr _ => true | _ => false end.

Section SongMatch.
(** [fuzz.partial_ratio] *)
Variable partial_ratio : string -> string -> Z.
(** [Series.str.contains(pat, case=False)] reads [pat] as a regular
    expression: [pattern_compiles pat] tells whether it compiles (the
    call raises [re.error] when it does not) and [search_nocase pat s]
    whether it is found in [s], ignoring case. *)
Variable pattern_compiles : string -> bool.
Variable search_nocase : string -> string -> bool.

Definition lower_eq (a b : string) : bool := String.eqb (lower a) (lower b).

(** [unique_songs[unique_songs['song'] == song_title].iloc[0]]; the title
    is one of [unique_songs], so there is such a row. *)
Definition first_with_title (unique_songs : list Group) (title : string)
  : option Group :=
  find (fun g => String.eqb (g_song g) title) unique_songs.

(** The candidates of the fuzzy tier, in the order of [all_song_titles],
    before they are sorted. *)
Fixpoint fuzzy_candidates (unique_songs : list Group)
         (already_matched : list string) (query_song : string)
         (fuzzy_threshold : Z) (all_song_titles : list string)
  : list Match :=
  match all_song_titles with
  | [] => []
  | song_title :: rest =>
      let others :=
        fuzzy_candidates unique_songs already_matched query_song
                         fuzzy_threshold rest in
      if existsb (String.eqb (lower song_title)) already_matched then others
      else
        let score := partial_ratio (lower query_song) (lower song_title) in
        if (score >=? fuzzy_threshold)%Z then
          match first_with_title unique_songs song_title with
          | Some song_data => make_match score fuzzy song_data :: others
          | None => others
          end
        else others
  end.

Definition score_geb (m1 m2 : Match) : bool :=
  (match_score m1 >=? match_score m2)%Z.

(** The body of the [try] block; [None] stands for a raised exception. *)
Definition song_matches_body (df : DataFrame) (query_song : PyValue)
           (artist_name : option string) (max_results : Z)
           (fuzzy_threshold : Z) : option (list Match) :=
  if negb (py_truth query_song) || negb (is_str query_song) then Some []
  else
    match query_song with
    | PyStr raw =>
        let query_song := strip raw in
        if negb (truthy query_song) then Some []
        else
          let unique_songs := groupby_song_artist year df in
          (* Filter by artist if provided *)
          let filtered :=
            match artist_name with
            | Some a =>
                if truthy a then
                  let a' := strip a in
                  if pattern_compiles a'
                  then Some (filter (fun g => search_nocase a' (g_artist g))
                                    unique_songs)
                  else None
                else Some unique_songs
            | None => Some unique_songs
            end in
          match filtered with
          | None => None
          | Some unique_songs =>
              (* 1. Exact song match *)
              let exact_matches :=
                filter (fun g => lower_eq (g_song g) query_song)
                       unique_songs in
              let matches := map (make_match 100 exact) exact_matches in
              (* 2. Song contains match *)
              let after_contains :=
                if (Z.of_nat (List.length matches) <? max_results)%Z then
                  if pattern_compiles query_song then
                    let contains_matches :=
                      filter (fun g =>
                                search_nocase query_song (g_song g)
                                && negb (lower_eq (g_song g) query_song))
                             unique_songs in
                    Some (append_until max_results matches
                            (map (make_match 85 contains) contains_matches))
                  else None
                else Some matches in
              match after_contains with
              | None => None
              | Some matches =>
                  (* 3. Fuzzy matching on song titles *)
                  let matches :=
                    if (Z.of_nat (List.length matches) <? max_results)%Z then
                      let all_song_titles := map g_song unique_songs in
                      let already_matched :=
                        map (fun m => lower (m_song m)) matches in
                      let fuzzy_matches :=
                        stable_sort score_geb
                          (fuzzy_candidates unique_songs already_matched
                             query_song fuzzy_threshold all_song_titles) in
                      append_until max_results matches fuzzy_matches
                    else matches in
                  Some (slice_to max_results matches)
              end
          end
    | _ => Some []
    end.

(** [except Exception: return []] *)
Definition get_song_matches_with_duration (df : DataFrame)
           (query_song : PyValue) (artist_name : option string)
           (max_results : Z) (fuzzy_threshold : Z) : list Match :=
  match song_matches_body df query_song artist_name max_results
                          fuzzy_threshold with
  | Some matches => matches
  | None => []
  end.
End SongMatch.

End DataUtils.

(** ** The answer formatter and the orchestrator ([chatbot_logic.py]) *)

Module Chatbot.
Import PyStr PyList DataUtils Parser.

(** *** Formatting of duration results

    The formatted answer is kept as the sequence of the pieces of text that
    the formatter concatenates, each with the values it interpolates. *)

(** The comment on the staying power of a song. *)
Inductive Band : Type :=
| incredible        (* weeks >= 50 *)
| great_performance (* weeks >= 30 *)
| solid_hit         (* weeks >= 15 *)
| chart_entry.

Definition comment_band (weeks : Z) : Band :=
  if (weeks >=? 50)%Z then incredible
  else if (weeks >=? 30)%Z then great_performance
  else if (weeks >=? 15)%Z then solid_hit
  else chart_entry.

Inductive Line : Type :=
| header_line (title artist_name : string) (year_ : Z)
| chart_performance_line
| weeks_line (weeks : Z)
| best_position_line (best : Z)
| peak_rank_line (peak : Z)
| comment_line (b : Band).

(** The marker after an entry of the list of several matches. *)
Inductive Indicator : Type :=
| exact_mark
| percent_match (score : Z)
| no_indicator.

Definition match_indicator (m : Match) : Indicator :=
  match match_type m with
  | exact => exact_mark
  | fuzzy => percent_match (match_score m)
  | contains => no_indicator
  end.

Record ListedMatch : Type := mkListed {
  l_index : nat;
  l_match : Match;
  l_indicator : Indicator
}.

Inductive DurationText : Type :=
| not_found (original_query : string)
| single_match (lines : list Line)
| multiple_matches (count : nat) (original_query : string)
                   (entries : list ListedMatch).

(** [enumerate(matches, i)] *)
Fixpoint enumerate (A : Type) (i : nat) (l : list A) : list (nat * A) :=
  match l with
  | [] => []
  | x :: l' => (i, x) :: enumerate (S i) l'
  end.

Definition format_single (m : Match) : list Line :=
  let weeks := weeks_on_chart m in
  let best := best_rank m in
  let peak := m_peak_rank m in
  [header_line (m_song m) (m_artist m) (m_year m);
   chart_performance_line;
   weeks_line weeks;
   best_position_line best]
  ++ (if negb (peak =? best)%Z then [peak_rank_line peak] else [])
  ++ [comment_line (comment_band weeks)].

Definition format_song_duration_results (matches : list Match)
           (original_query : string) : DurationText :=
  match matches with
  | [] => not_found original_query
  | [m] => single_match (format_single m)
  | _ =>
      multiple_matches (List.length matches) original_query
        (map (fun im => mkListed (fst im) (snd im) (match_indicator (snd im)))
             (enumerate 1 matches))
  end.

(** *** Formatting of song lists *)

Inductive SongListText : Type :=
| no_songs_found (period : Z)
| song_list (actual_count : nat) (period : Z) (songs : list Group).

Definition format_top_songs (songs : list Group) (y : Z) (n : Z)
  : SongListText :=
  match songs with
  | [] => no_songs_found y
  | _ => song_list (List.length songs) y songs
  end.

Definition format_decade_songs (songs : list Group) (decade_start : Z)
           (n : Z) : SongListText :=
  match songs with
  | [] => no_songs_found decade_start
  | _ => song_list (List.length songs) decade_start songs
  end.

Definition get_decade_songs (df : DataFrame) (decade_start : Z) (n : Z)
  : list Group :=
  let decade_end := (decade_start + 9)%Z in
  let decade_data :=
    filter (fun e => (year e >=? decade_start)%Z && (year e <=? decade_end)%Z)
           df in
  match decade_data with
  | [] => []
  | _ => slice_to n (sort_values_rank (groupby_song_artist year decade_data))
  end.

(** *** The language-model fallback *)

(** The dictionary built from the translator's output. *)
Definition Dict : Type := list (string * string).

Fixpoint dict_set (key value : string) (d : Dict) : Dict :=
  match d with
  | [] => [(key, value)]
  | (k, v) :: d' =>
      if String.eqb k key then (key, value) :: d'
      else (k, v) :: dict_set key value d'
  end.

Fixpoint dict_get (key : string) (default : string) (d : Dict) : string :=
  match d with
  | [] => default
  | (k, v) :: d' => if String.eqb k key then v else dict_get key default d'
  end.

Definition parse_flan_output_to_dict (raw_text : string) : Dict :=
  fold_left
    (fun parsed item =>
       let item := strip item in
       if has_char ":" item then
         let (key, value) := split_first ":" item in
         dict_set (lower (strip key)) (strip value) parsed
       else parsed)
    (split_on ";" (strip raw_text)) [].

(** [s.strip(...)] with the double and the single quote as the characters
    to strip. *)
Definition strip_quotes (s : string) : string :=
  strip_chars (fun c => (code c =? 34)%nat || (code c =? 39)%nat) s.

(** The values that the orchestrator extracts before it routes. *)
Record Extracted : Type := mkExtracted {
  x_intent : string;
  x_year : option Z;
  x_n : Z;
  x_song : string;
  x_artist : string;
  x_decade_start : option Z
}.

Definition get_or (A : Type) (default : A) (o : option A) : A :=
  match o with Some v => v | None => default end.

(** [if enhanced_result:]: the dictionary has a key. *)
Definition has_keys (r : ParsedQuery) : bool :=
  match r with
  | mkParsed None None None None None None => false
  | _ => true
  end.

Definition extract_enhanced (r : ParsedQuery) : Extracted :=
  mkExtracted (get_or "" (q_intent r)) (q_year r) (get_or 10%Z (q_n r))
              (get_or "" (q_song r)) (get_or "" (q_artist r))
              (q_decade_start r).

(** The reading of the translator's answer; the year is converted before
    the count. *)
Definition extract_flan (flan_output : string) : result Extracted :=
  let nlp_result := parse_flan_output_to_dict flan_output in
  let intent := lower (dict_get "intent" "" nlp_result) in
  let year_str := dict_get "year" "" nlp_result in
  bind (if isdigit year_str
        then bind (py_int year_str) (fun y => ok (Some y))
        else ok None) (fun year =>
  let song := strip_quotes (dict_get "song" "" nlp_result) in
  let artist := strip_quotes (dict_get "artist" "" nlp_result) in
  let n_str := dict_get "n" "" nlp_result in
  bind (if isdigit n_str
        then bind (py_int n_str) (fun n => ok (Z.min n 50))
        else ok 10%Z) (fun n =>
  ok (mkExtracted intent year n song artist None))).

(** The answers of [respond_to_query], one constructor for each message
    (the text is given without the emoji that starts it). *)
Inductive Response : Type :=
| enter_valid_query
    (* Please enter a valid text query. *)
| specify_year
    (* Please specify a valid year between 1958-2021
       (e.g., 'Top 5 songs of 2012'). *)
| year_outside_range (y : Z)
    (* Sorry, I only have data from 1958-2021.
       Year {year} is outside this range. *)
| top_songs_answer (t : SongListText)
    (* format_top_songs(songs, year, n) *)
| specify_decade
    (* Please specify a valid decade (e.g., 'Best songs from the 80s'). *)
| decade_answer (t : SongListText)
    (* format_decade_songs(songs, decade_start, n) *)
| specify_song_with_artist
    (* Please specify a song name (e.g., 'How long was Thriller by
       Michael Jackson on the chart?'). *)
| specify_song
    (* Please specify a song name
       (e.g., 'How long was Thriller on the chart?'). *)
| duration_answer (t : DurationText)
    (* format_song_duration_results(matches, original_query) *)
| help_message
    (* get_help_message() *)
| something_went_wrong (e : Exn).
    (* Something went wrong. Please try a different query.
       (Error: {str(e)}) *)

(** [if not v:] for an optional integer. *)
Definition falsy_int (v : option Z) : bool :=
  match v with
  | None => true
  | Some z => (z =? 0)%Z
  end.



(** [str(z)], as an f-string or a concatenation renders an integer. *)
Definition str_of_int (z : Z) : string :=
  DecimalString.NilZero.string_of_int (Z.to_int z).

Section Orchestrator.
Variable partial_ratio : string -> string -> Z.
Variable pattern_compiles : string -> bool.
Variable search_nocase : string -> string -> bool.
(** [parse_query_with_flan] *)
Variable parse_query_with_flan : string -> string.
(** The dataframe loaded when [data_utils] is imported. *)
Variable df : DataFrame.

Definition song_matches :=
  get_song_matches_with_duration partial_ratio pattern_compiles
                                 search_nocase df.

(** The extraction of the parameters: the local parser first, the
    translator when the local parser returns the empty dictionary. *)
Definition extract (query : string) : result Extracted :=
  bind (enhanced_query_parser query) (fun enhanced_result =>
  if has_keys enhanced_result then ok (extract_enhanced enhanced_result)
  else extract_flan (parse_query_with_flan query)).

(** Route based on intent. *)
Definition route (x : Extracted) : Response :=
  if String.eqb (x_intent x) "top_songs" then
    if falsy_int (x_year x) then specify_year
    else
      let y := get_or 0%Z (x_year x) in
      if negb (validate_year_range df y) then year_outside_range y
      else
        top_songs_answer
          (format_top_songs (get_top_songs_by_year df y (x_n x)) y (x_n x))
  else if String.eqb (x_intent x) "top_songs_decade" then
    if falsy_int (x_decade_start x) then specify_decade
    else
      let d := get_or 0%Z (x_decade_start x) in
      decade_answer
        (format_decade_songs (get_decade_songs df d (x_n x)) d (x_n x))
  else if String.eqb (x_intent x) "song_duration_with_artist" then
    if negb (truthy (x_song x)) then specify_song_with_artist
    else
      duration_answer
        (format_song_duration_results
           (song_matches (PyStr (x_song x)) (Some (x_artist x)) 3%Z 60%Z)
           (x_song x ++ " by " ++ x_artist x))
  else if String.eqb (x_intent x) "song_duration" then
    if negb (truthy (x_song x)) then specify_song
    else
      duration_answer
        (format_song_duration_results
           (song_matches (PyStr (x_song x)) None 5%Z 60%Z)
           (x_song x))
  else help_message.

(** [try: ... except Exception as e:]: what the extraction raises is
    answered with the text of the handler. *)
Definition respond_to_query (query : string) : Response :=
  if negb (truthy query) then enter_valid_query
  else
    match extract query with
    | ok x => route x
    | raised e => something_went_wrong e
    end.
End Orchestrator.

End Chatbot.

(** ** Predicates used to state the properties *)

Module Spec.
Import PyStr Re DataUtils Parser Chatbot.

(** The key of an aggregate. *)
Definition key (g : Group) : string * string := (g_song g, g_artist g).

Definition rank_le (g1 g2 : Group) : Prop := (g_rank g1 <= g_rank g2)%Z.

(** The title of a match, as the engine compares titles. *)
Definition title_key (m : Match) : string := lower (m_song m).

(** The song and the artist of a match: the key of the aggregate that it
    reports. *)
Definition match_key (m : Match) : string * string := (m_song m, m_artist m).

(** What the engine guarantees of the entries of each tier, for the
    trimmed query [q], the threshold [t] and the matches [earlier] chosen
    by the tiers before the fuzzy one. *)
Definition exact_tier (q : string) (m : Match) : Prop :=
  match_type m = exact /\ match_score m = 100%Z /\ title_key m = lower q.

Definition contains_tier (q : string) (m : Match) : Prop :=
  match_type m = contains /\ match_score m = 85%Z /\ title_key m <> lower q.

Definition fuzzy_tier (t : Z) (earlier : list Match) (m : Match) : Prop :=
  match_type m = fuzzy /\ (t <= match_score m)%Z
  /\ ~ In (title_key m) (map title_key earlier).

(** A pattern of a rule fires on the text when it is found and the body of
    the rule accepts the match. *)
Definition fires (body : caps -> result (option ParsedQuery))
           (text : string) (p : regex) : Prop :=
  match re_search false p text with
  | Some m => body m <> ok None
  | None => False
  end.

(** The first pattern of the list that is found in the text, with its
    match. *)
Fixpoint first_found (patterns : list regex) (text : string)
  : option (regex * caps) :=
  match patterns with
  | [] => None
  | p :: rest =>
      match re_search false p text with
      | Some m => Some (p, m)
      | None => first_found rest text
      end
  end.

(** The decade that a token stands for, when no conversion fails. *)
Definition decade_of (tok : string) : Z :=
  if (String.length tok =? 2)%nat then
    if (int_of_digits tok >=? 50)%Z then (1900 + int_of_digits tok)%Z
    else (2000 + int_of_digits tok)%Z
  else int_of_digits tok.

(** The dictionary that the decade rule returns for the decade start
    [d]. *)
Definition decade_parse (d : Z) : ParsedQuery :=
  mkParsed (Some "top_songs_decade") (Some 20%Z) None (Some d) None None.

(** No rule of the cascade matches the query. *)
Definition no_rule_matches (query : string) : Prop :=
  Forall (fun rule =>
            Forall (fun p => ~ fires (snd rule) (strip (lower query)) p)
                   (fst rule))
         cascade.


(** The parse of the query is a top-songs request for [count] songs of the
    year [y]. *)
Definition parses_as_top_songs (count y : Z) (query : string) : bool :=
  match enhanced_query_parser query with
  | ok (mkParsed (Some i) (Some c) (Some yr) None None None) =>
      String.eqb i "top_songs" && (c =? count)%Z && (yr =? y)%Z
  | _ => false
  end.

(** The query of the property on out-of-range years. *)
Definition top_10_query (y : Z) : string :=
  ("top 10 songs of " ++ str_of_int y)%string.

End Spec.

(** ** Segments of a text

    The stop-word removal deletes whole words and the collapsing of white
    space rewrites runs of spaces; both are described on the segments of a
    text: its maximal runs of word characters, and each other character on
    its own. *)

Module Tokens.
Import PyStr Re.

Fixpoint all_word (s : string) : bool :=
  match s with
  | EmptyString => true
  | String c s' => is_word c && all_word s'
  end.

(** A word: at least one character, and only word characters. *)
Definition wordlike (w : string) : bool := truthy w && all_word w.

(** Equality without regard to case. *)
Definition eq_ci (a b : string) : bool := String.eqb (lower a) (lower b).

(** A word character in front of a segmented text joins the first segment
    when that is a word. *)
Definition merge (c : ascii) (l : list string) : list string :=
  match l with
  | g :: gs =>
      if word_after g then String c g :: gs else String c EmptyString :: l
  | [] => [String c EmptyString]
  end.

Fixpoint segs (s : string) : list string :=
  match s with
  | EmptyString => []
  | String c s' =>
      if is_word c then merge c (segs s') else String c EmptyString :: segs s'
  end.

Definition join (l : list string) : string :=
  fold_right String.append EmptyString l.

(** The segments that the removal of the word [w] keeps. *)
Definition keep (w g : string) : bool := negb (eq_ci g w).

(** A list of segments is canonical when each segment is a word or one
    character that is not a word character, and no two words are
    neighbours. *)
Fixpoint canon (l : list string) : Prop :=
  match l with
  | [] => True
  | g :: l' =>
      ((exists c, g = String c EmptyString /\ is_word c = false)
       \/ (wordlike g = true /\ word_after (join l') = false))
      /\ canon l'
  end.

(** No segment of the text is the word [w]. *)
Definition free (w s : string) : Prop :=
  Forall (fun g => eq_ci g w = false) (segs s).

(** The collapsing of white space as a scan: [in_run] tells that the
    previous character was white space. *)
Fixpoint squeeze (s : string) (in_run : bool) : string :=
  match s with
  | EmptyString => EmptyString
  | String c s' =>
      if is_space c then
        if in_run then squeeze s' true else String " " (squeeze s' true)
      else String c (squeeze s' false)
  end.

Definition is_space_seg (g : string) : bool :=
  match g with
  | String c EmptyString => is_space c
  | _ => false
  end.

Fixpoint squeeze_segs (l : list string) (in_run : bool) : list string :=
  match l with
  | [] => []
  | g :: l' =>
      if is_space_seg g then
        if in_run then squeeze_segs l' true else " " :: squeeze_segs l' true
      else g :: squeeze_segs l' false
  end.

(** Every white-space character of the text is a space that does not
    follow white space; [after_space] tells that the text follows one. *)
Fixpoint spaced (after_space : bool) (s : string) : Prop :=
  match s with
  | EmptyString => True
  | String c s' =>
      if is_space c
      then after_space = false /\ c = " "%char /\ spaced true s'
      else spaced false s'
  end.

(** The length of the run of white space that starts the text. *)
Fixpoint space_run (s : string) : nat :=
  match s with
  | EmptyString => 0
  | String c s' => if is_space c then S (space_run s') else 0
  end.

Fixpoint all_space (t : string) : bool :=
  match t with
  | EmptyString => true
  | String c t' => is_space c && all_space t'
  end.

(** The text does not start with white space. *)
Definition head_ok (s : string) : Prop :=
  match s with
  | EmptyString => True
  | String c _ => is_space c = false
  end.

End Tokens.

(** ** Patterns whose groups are runs of digits *)

Module Capture.
Import PyStr Re.

(** A capture group that is a run of digits: its number and the bounds on
    the length of the run. *)
Record digit_group : Type := mkDigitGroup {
  dg_index : nat;
  dg_lo : nat;
  dg_hi : option nat
}.

(** The groups of a pattern all of whose groups are runs of digits and
    stand outside of alternatives, in the order in which a match fills
    them; [None] for a pattern of another form. *)
Fixpoint digit_groups (r : regex) : option (list digit_group) :=
  match r with
  | Grp i (Rep CDigit lo hi _) => Some [mkDigitGroup i lo hi]
  | Grp _ _ => None
  | Seq r1 r2 =>
      match digit_groups r1, digit_groups r2 with
      | Some g1, Some g2 => Some (g1 ++ g2)
      | _, _ => None
      end
  | Alt r1 r2 =>
      match digit_groups r1, digit_groups r2 with
      | Some [], Some [] => Some []
      | _, _ => None
      end
  | _ => Some []
  end.

(** The text is a run of digits within the bounds of the group. *)
Definition fits (g : digit_group) (v : string) : Prop :=
  all_digits v = true
  /\ dg_lo g <= String.length v
  /\ (forall h, dg_hi g = Some h -> String.length v <= h).

(** The captures [cs'] are the captures [cs] with each group of the list
    filled, in order, with a text that fits it. *)
Inductive captured : list digit_group -> caps -> caps -> Prop :=
| captured_nil : forall cs, captured [] cs cs
| captured_cons : forall g gs v cs cs',
    fits g v -> captured gs (set_group (dg_index g) v cs) cs' ->
    captured (g :: gs) cs cs'.

(** A run of exactly [n] digits. *)
Definition digits (n : nat) (tok : string) : Prop :=
  String.length tok = n /\ all_digits tok = true.


End Capture.

(** ** The other queries of the store ([data_utils.py]) and the
    single-answer lookups *)

Module Queries.
Import PyStr PyList DataUtils.

Section Unique.
Variable A : Type.
Variable eqb : A -> A -> bool.

(** [Series.unique()]: the values in the order in which they first
    occur; [seen] holds the values met so far. *)
Fixpoint unique_from (seen : list A) (l : list A) : list A :=
  match l with
  | [] => []
  | x :: l' =>
      if existsb (eqb x) seen then unique_from seen l'
      else x :: unique_from (x :: seen) l'
  end.

Definition unique (l : list A) : list A := unique_from [] l.

(** [Series.nunique()] *)
Definition nunique (l : list A) : nat := List.length (unique l).
End Unique.

(** [df['song'].unique().tolist()] *)
Definition get_all_songs (df : DataFrame) : list string :=
  unique String.eqb (map song df).

(** The dictionary of [get_dataset_stats]. *)
Record DatasetStats : Type := mkStats {
  total_records : nat;
  unique_songs : nat;
  unique_artists : nat;
  year_range : Z * Z;
  total_years : nat
}.

(** On an empty frame the least year is NaN, [int] raises on it and the
    handler returns the empty dictionary, here [None]. *)
Definition get_dataset_stats (df : DataFrame) : option DatasetStats :=
  match year_min df, year_max df with
  | Some lo, Some hi =>
      Some (mkStats (List.length df)
                    (nunique String.eqb (map song df))
                    (nunique String.eqb (map artist df))
                    (lo, hi)
                    (nunique Z.eqb (map year df)))
  | _, _ => None
  end.

Section Finders.
Variable partial_ratio : string -> string -> Z.
Variable pattern_compiles : string -> bool.
Variable search_nocase : string -> string -> bool.

(** The rows whose column [col] contains the pattern, grouped, sorted by
    best rank and cut to [limit] rows; [str.contains] raises on a pattern
    that does not compile and the handler returns the empty list. *)
Definition search_songs_by_artist (df : DataFrame) (artist_name : string)
           (limit : Z) : list Group :=
  if pattern_compiles artist_name then
    let artist_songs :=
      filter (fun e => search_nocase artist_name (artist e)) df in
    match artist_songs with
    | [] => []
    | _ =>
        slice_to limit
          (sort_values_rank (groupby_song_artist year artist_songs))
    end
  else [].

Definition find_songs_by_pattern (df : DataFrame) (pattern : string)
           (limit : Z) : list Group :=
  if pattern_compiles pattern then
    let matching_songs :=
      filter (fun e => search_nocase pattern (song e)) df in
    match matching_songs with
    | [] => []
    | _ =>
        slice_to limit
          (sort_values_rank (groupby_song_artist year matching_songs))
    end
  else [].

(** [get_song_matches_with_duration(song_name, max_results=1)]: the
    artist filter and the threshold keep their defaults, [None] and 60. *)
Definition first_match (df : DataFrame) (song_name : PyValue)
  : list Match :=
  get_song_matches_with_duration partial_ratio pattern_compiles
                                 search_nocase df song_name None 1 60.

Definition get_song_weeks_on_chart (df : DataFrame) (song_name : PyValue)
  : Z :=
  match first_match df song_name with
  | m :: _ => weeks_on_chart m
  | [] => 0%Z
  end.

(** [find_similar_song] of [chatbot_logic.py]; its [threshold] is not
    passed on. *)
Definition find_similar_song (df : DataFrame) (query_song : PyValue)
           (threshold : Z) : string :=
  match first_match df query_song with
  | m :: _ => m_song m
  | [] => EmptyString
  end.
End Finders.

End Queries.

(** ** The entry of the translator ([flan_t5_parser.py]) *)

Module FlanParser.
Import PyStr.

(** [parse_query_with_flan]: a query that is empty once stripped is
    answered at once; any other query goes to the language model, and
    [run_model] stands for what follows the test: the loading of the
    model, the generation, the validation of the output and the handlers
    of their exceptions, each of which returns a text. *)
Definition parse_query_with_flan (run_model : string -> string)
           (user_input : string) : string :=
  if negb (truthy (strip user_input))
  then "intent: invalid_input; error: empty_query"
  else run_model user_input.

End FlanParser.

(** ** More predicates used to state the properties *)

Module Terms.
Import PyStr Re DataUtils Parser Chatbot Tokens.

(** The key of a row of the frame. *)
Definition ekey (e : ChartEntry) : string * string := (song e, artist e).

(** The aggregate [g] summarises the rows of [rows] that have its key:
    its rank and its peak rank are the least of theirs, its weeks the
    greatest, each of them reached by one of the rows, and its last column
    is the value of [first_col] in the first of the rows. *)
Definition summarises (first_col : ChartEntry -> Z)
           (rows : list ChartEntry) (g : Group) : Prop :=
  (forall e, In e rows -> ekey e = Spec.key g ->
             (g_rank g <= rank e)%Z
             /\ (g_peak_rank g <= peak_rank e)%Z
             /\ (weeks_on_board e <= g_weeks_on_board g)%Z)
  /\ (exists e, In e rows /\ ekey e = Spec.key g /\ rank e = g_rank g)
  /\ (exists e, In e rows /\ ekey e = Spec.key g
                /\ peak_rank e = g_peak_rank g)
  /\ (exists e, In e rows /\ ekey e = Spec.key g
                /\ weeks_on_board e = g_weeks_on_board g)
  /\ (exists e,
         find (fun e' => same_key e' g) rows = Some e
         /\ first_col e = g_first g).

(** The aggregate that a match reports. *)
Definition group_of (m : Match) : Group :=
  mkGroup (m_song m) (m_artist m) (best_rank m) (m_peak_rank m)
          (weeks_on_chart m) (m_year m).

(** The artist of the aggregate passes the artist filter of a query:
    there is no filter, or it is empty, or it is found in the artist. *)
Definition passes_artist_filter (search_nocase : string -> string -> bool)
           (artist_name : option string) (g : Group) : Prop :=
  match artist_name with
  | Some a => truthy a = true -> search_nocase (strip a) (g_artist g) = true
  | None => True
  end.

(** The ordering of the fuzzy tier: the better score first. *)
Definition score_ge (m1 m2 : Match) : Prop :=
  (match_score m2 <= match_score m1)%Z.

(** The queries of the first form that the parser knows: [top N songs of
    YYYY], with [song] for [songs] and [from] or [in] for [of]. *)
Definition top_forms : list string :=
  [" songs of "; " song of "; " songs from "; " song from ";
   " songs in "; " song in "]%string.

Definition top_query (count form yr : string) : string :=
  ("top " ++ count ++ form ++ yr)%string.

(** The answers of the translator in the format that its prompt asks
    for: [intent: top_songs; year: YYYY; n: NUMBER] and
    [intent: song_duration; song: SONG NAME]. *)
Definition top_songs_output (yr count : string) : string :=
  ("intent: top_songs; year: " ++ yr ++ "; n: " ++ count)%string.

Definition song_duration_output (title : string) : string :=
  ("intent: song_duration; song: " ++ title)%string.

(** A name as the parser returns it: not empty, without white space at
    its ends, with single spaces as its only white space, and with none of
    the stop words among its words. *)
Definition clean_name (words : list string) (name : string) : Prop :=
  truthy name = true
  /\ strip name = name
  /\ spaced false name
  /\ Forall (fun w => free w name) words.

(** The words of a text, in order. *)
Definition words_of (s : string) : list string :=
  filter word_after (segs s).

(** The word [g] is none of the stop words. *)
Definition not_stop_word (words : list string) (g : string) : bool :=
  forallb (fun w => keep w g) words.

End Terms.

(** ** Sample data used by the examples *)

Module Samples.
Import PyStr DataUtils Chatbot.

(** A stand-in for [fuzz.partial_ratio] that finds nothing similar. *)
Definition no_similarity (a b : string) : Z := 0%Z.

(** A stand-in for the search of [Series.str.contains]: every pattern
    compiles, and a pattern is found where it occurs as it is written,
    ignoring case. *)
Definition always_compiles (pat : string) : bool := true.

Fixpoint occurs_in (pat s : string) : bool :=
  String.prefix pat s
  || match s with
     | EmptyString => false
     | String _ s' => occurs_in pat s'
     end.

Definition literal_search (pat s : string) : bool :=
  occurs_in (lower pat) (lower s).

(** A translator that recognises no intent. *)
Definition flan_unknown (query : string) : string :=
  "intent: unknown; error: no_valid_intent".

(** Two songs with the same title, by two artists. *)
Definition hello_chart : DataFrame :=
  [ mkEntry "2015-11-14" 1 "Hello" "Adele" 0 1 1 2015;
    mkEntry "1984-03-24" 3 "Hello" "Lionel Richie" 5 3 6 1984;
    mkEntry "2015-11-21" 1 "Hello" "Adele" 1 1 2 2015 ].

(** A title and a longer title that contains it. *)
Definition goodbye_chart : DataFrame :=
  [ mkEntry "2015-11-14" 1 "Hello" "Adele" 0 1 1 2015;
    mkEntry "1967-12-30" 1 "Hello Goodbye" "The Beatles" 3 1 5 1967 ].

(** A chart that covers the years 1958 to 2021. *)
Definition small_chart : DataFrame :=
  [ mkEntry "1958-08-04" 1 "Poor Little Fool" "Ricky Nelson" 0 1 1 1958;
    mkEntry "2020-03-21" 2 "Blinding Lights" "The Weeknd" 3 1 15 2020;
    mkEntry "2020-03-21" 1 "The Box" "Roddy Ricch" 1 1 14 2020;
    mkEntry "2020-03-28" 1 "Blinding Lights" "The Weeknd" 2 1 16 2020;
    mkEntry "2021-01-02" 5 "Blinding Lights" "The Weeknd" 4 1 56 2021 ].

End Samples.

(** ** More sample data *)

Module MoreSamples.
Import PyStr DataUtils Chatbot.

(** A stand-in for the compilation of a pattern that refuses, as [re]
    does, a pattern that starts with the repetition sign. *)
Definition refuses_leading_star (pat : string) : bool :=
  negb (String.prefix "*" pat).

(** A title that starts with repetition signs. *)
Definition flawless_chart : DataFrame :=
  [ mkEntry "2014-01-04" 41 "***Flawless" "Beyonce" 0 41 1 2014;
    mkEntry "2014-08-23" 41 "***Flawless" "Beyonce" 0 41 4 2014;
    mkEntry "2014-01-04" 1 "The Monster" "Eminem" 1 1 9 2014 ].

(** Translators that give one fixed answer: one in the format for top
    songs, one in the format for a song, one without any key. *)
Definition flan_top_2020 (query : string) : string :=
  "intent: top_songs; year: 2020; n: 75".

Definition flan_blinding_lights (query : string) : string :=
  "intent: song_duration; song: Blinding Lights".

Definition flan_silent (query : string) : string := "sorry".

(** A count of 4301 digits, one more than [int] converts. *)
Definition long_count : string :=
  string_of_list_ascii (repeat "9"%char 4301).

End MoreSamples.

(** * Properties *)

(** ** Lists *)

Module PyListFacts.
Import PyList.

Lemma slice_to_firstn (A : Type) (k : Z) (l : list A) :
  exists j, slice_to k l = firstn j l /\ ((0 <= k)%Z -> j = Z.to_nat k).
Proof.
  unfold slice_to. destruct (0 <=? k)%Z eqn:E.
  - eexists; split; [reflexivity | auto].
  - eexists; split; [reflexivity | lia].
Qed.

Lemma slice_to_length (A : Type) (k : Z) (l : list A) :
  (0 <= k)%Z -> (Z.of_nat (List.length (slice_to k l)) <= k)%Z.
Proof.
  intros Hk. destruct (slice_to_firstn k l) as [j [-> Hj]].
  rewrite (Hj Hk), length_firstn. lia.
Qed.

Lemma Forall_firstn (A : Type) (P : A -> Prop) (j : nat) (l : list A) :
  Forall P l -> Forall P (firstn j l).
Proof.
  intros H. rewrite <- (firstn_skipn j l) in H.
  apply Forall_app in H. tauto.
Qed.

Lemma NoDup_firstn (A : Type) (j : nat) (l : list A) :
  NoDup l -> NoDup (firstn j l).
Proof.
  intros H. rewrite <- (firstn_skipn j l) in H.
  eapply NoDup_app_remove_r; eauto.
Qed.

Lemma StronglySorted_firstn (A : Type) (R : A -> A -> Prop) (j : nat)
      (l : list A) :
  StronglySorted R l -> StronglySorted R (firstn j l).
Proof.
  intros H. revert j. induction H as [| a l Hl IH Ha]; intros [| j]; simpl;
    try constructor; auto.
  now apply Forall_firstn.
Qed.

Lemma map_firstn (A B : Type) (f : A -> B) (j : nat) (l : list A) :
  map f (firstn j l) = firstn j (map f l).
Proof.
  revert j; induction l as [| x l IH]; intros [| j]; simpl; congruence.
Qed.

Section Sorting.
Variable A : Type.
Variable leb : A -> A -> bool.

Lemma insert_sorted_perm (x : A) (l : list A) :
  Permutation (insert_sorted leb x l) (x :: l).
Proof.
  induction l as [| y l IH]; simpl; auto.
  destruct (leb x y); auto.
  rewrite IH. apply perm_swap.
Qed.

Lemma stable_sort_perm (l : list A) : Permutation (stable_sort leb l) l.
Proof.
  induction l as [| x l IH]; simpl; auto.
  rewrite insert_sorted_perm. now constructor.
Qed.

Hypothesis leb_total : forall a b, leb a b = true \/ leb b a = true.

Let R (a b : A) : Prop := leb a b = true.

Lemma insert_sorted_sorted (x : A) (l : list A) :
  Sorted R l -> Sorted R (insert_sorted leb x l).
Proof.
  induction 1 as [| y l Hl IH Hy]; simpl.
  - repeat constructor.
  - destruct (leb x y) eqn:E.
    + repeat constructor; auto.
    + constructor; auto.
      assert (Hyx : R y x) by (destruct (leb_total x y); [congruence | auto]).
      destruct l as [| z l]; simpl.
      * now constructor.
      * destruct (leb x z); constructor; auto.
        now inversion Hy.
Qed.

Lemma stable_sort_sorted (l : list A) : Sorted R (stable_sort leb l).
Proof.
  induction l as [| x l IH]; simpl.
  - constructor.
  - now apply insert_sorted_sorted.
Qed.
End Sorting.

(** The loop that appends until the bound is reached adds a prefix of the
    candidates. *)
Lemma append_until_prefix (A : Type) (k : Z) (cands ms : list A) :
  exists j, append_until k ms cands = ms ++ firstn j cands.
Proof.
  revert ms; induction cands as [| x cands IH]; intros ms; simpl.
  - exists 0. now rewrite app_nil_r.
  - destruct (Z.of_nat (List.length ms) >=? k)%Z.
    + exists 0. now rewrite app_nil_r.
    + destruct (IH (ms ++ [x])) as [j Hj]. exists (S j).
      rewrite Hj, <- app_assoc. reflexivity.
Qed.

End PyListFacts.

(** ** The aggregation engine *)

Module AggregationFacts.
Import PyStr PyList DataUtils PyListFacts Spec.

Section GroupBy.
Variable first_col : ChartEntry -> Z.

Lemma same_key_iff (e : ChartEntry) (g : Group) :
  same_key e g = true <-> (song e, artist e) = key g.
Proof.
  unfold same_key, key. rewrite andb_true_iff, !String.eqb_eq.
  split; [intros [-> ->]; reflexivity | intros H; inversion H; auto].
Qed.

Lemma add_row_keys (e : ChartEntry) (gs : list Group) (k : string * string) :
  In k (map key (add_row first_col e gs)) ->
  In k (map key gs) \/ k = (song e, artist e).
Proof.
  induction gs as [| g gs IH]; simpl.
  - intros [<- | []]. now right.
  - destruct (same_key e g) eqn:E; simpl.
    + intros [<- | H]; auto.
    + intros [<- | H]; auto. destruct (IH H); auto.
Qed.

Lemma add_row_NoDup (e : ChartEntry) (gs : list Group) :
  NoDup (map key gs) -> NoDup (map key (add_row first_col e gs)).
Proof.
  induction gs as [| g gs IH]; simpl; intros H.
  - repeat constructor. intros [].
  - inversion H as [| ? ? Hg Hgs]; subst.
    destruct (same_key e g) eqn:E; simpl.
    + constructor; auto.
    + constructor; auto. intros Hin.
      destruct (add_row_keys _ _ _ Hin) as [Hin' | Heq]; auto.
      symmetry in Heq. apply same_key_iff in Heq. congruence.
Qed.

Lemma collect_groups_NoDup (rows : list ChartEntry) :
  NoDup (map key (collect_groups first_col rows)).
Proof.
  unfold collect_groups.
  assert (H : forall gs, NoDup (map key gs) ->
            NoDup (map key (fold_left (fun gs e => add_row first_col e gs)
                                      rows gs))).
  { induction rows as [| e rows IH]; simpl; auto.
    intros gs Hgs. apply IH. now apply add_row_NoDup. }
  apply H. constructor.
Qed.

(** No two rows of a grouped frame have the same song and artist. *)
Lemma groupby_NoDup (rows : list ChartEntry) :
  NoDup (map key (groupby_song_artist first_col rows)).
Proof.
  unfold groupby_song_artist.
  eapply Permutation_NoDup; [| apply collect_groups_NoDup].
  apply Permutation_map. symmetry. apply stable_sort_perm.
Qed.
End GroupBy.

Lemma sort_values_rank_sorted (gs : list Group) :
  StronglySorted rank_le (sort_values_rank gs).
Proof.
  apply Sorted_StronglySorted.
  - intros a b c; unfold rank_le; lia.
  - unfold sort_values_rank.
    assert (H := @stable_sort_sorted _ rank_leb).
    eapply Sorted_ind with (P := fun l => Sorted rank_le l);
      [constructor | | apply H].
    + intros a l _ IH Ha. constructor; auto.
      destruct Ha; constructor. unfold rank_leb in *. unfold rank_le. lia.
    + intros a b. unfold rank_leb. lia.
Qed.

Lemma sort_values_rank_NoDup (gs : list Group) :
  NoDup (map key gs) -> NoDup (map key (sort_values_rank gs)).
Proof.
  intros H. eapply Permutation_NoDup; [| exact H].
  apply Permutation_map. symmetry. apply stable_sort_perm.
Qed.

(** C2.  For every frame, year and count [n], [get_top_songs_by_year]
    returns at most [n] aggregates, in non-decreasing order of their best
    rank, and no two of them have the same song and artist. *)
Theorem top_songs_by_year_bounded_sorted_distinct
        (df : DataFrame) (y : Z) (n : nat) :
  let top := get_top_songs_by_year df y (Z.of_nat n) in
  List.length top <= n
  /\ StronglySorted rank_le top
  /\ NoDup (map key top).
Proof.
  unfold get_top_songs_by_year.
  destruct (filter (fun e => (year e =? y)%Z) df) as [| e rows] eqn:E.
  - simpl. repeat split; [lia | constructor | constructor].
  - cbv zeta.
    destruct (slice_to_firstn (Z.of_nat n)
                (sort_values_rank (groupby_song_artist last_week (e :: rows))))
      as [j [-> Hj]].
    rewrite (Hj (Nat2Z.is_nonneg n)), Nat2Z.id.
    split; [| split].
    + rewrite length_firstn. lia.
    + apply StronglySorted_firstn, sort_values_rank_sorted.
    + rewrite map_firstn. apply NoDup_firstn, sort_values_rank_NoDup,
        groupby_NoDup.
Qed.

(** The top songs of 2020 in the sample chart. *)
Example top_songs_of_2020 :
  get_top_songs_by_year Samples.small_chart 2020 10
  = [ mkGroup "Blinding Lights" "The Weeknd" 1 1 16 3;
      mkGroup "The Box" "Roddy Ricch" 1 1 14 1 ].
Proof. vm_compute. reflexivity. Qed.

End AggregationFacts.

(** ** The song match engine *)

Module SongMatchFacts.
Import PyStr PyList DataUtils PyListFacts Spec.

Section Facts.
Variable partial_ratio : string -> string -> Z.
Variable pattern_compiles : string -> bool.
Variable search_nocase : string -> string -> bool.

Let body := song_matches_body partial_ratio pattern_compiles search_nocase.
Let matches_of :=
  get_song_matches_with_duration partial_ratio pattern_compiles
                                 search_nocase.

Lemma existsb_eqb_false (x : string) (l : list string) :
  existsb (String.eqb x) l = false -> ~ In x l.
Proof.
  intros H Hin.
  assert (E : existsb (String.eqb x) l = true).
  { apply existsb_exists. exists x. split; auto. apply String.eqb_refl. }
  congruence.
Qed.

Lemma fuzzy_candidates_tier (us : list Group) (earlier : list Match)
      (q : string) (t : Z) (titles : list string) :
  Forall (fuzzy_tier t earlier)
         (fuzzy_candidates partial_ratio us (map title_key earlier) q t
                           titles).
Proof.
  induction titles as [| title titles IH]; simpl; [constructor |].
  destruct (existsb _ _) eqn:Hseen; auto.
  destruct (_ >=? t)%Z eqn:Hscore; auto.
  destruct (first_with_title us title) as [g |] eqn:Hfind; auto.
  constructor; auto.
  apply find_some in Hfind. destruct Hfind as [_ Hg].
  apply String.eqb_eq in Hg.
  unfold fuzzy_tier, title_key; simpl. rewrite Hg.
  repeat split; [lia |]. now apply existsb_eqb_false.
Qed.

Lemma exact_matches_tier (us : list Group) (q : string) :
  Forall (exact_tier q)
         (map (make_match 100 exact)
              (filter (fun g => lower_eq (g_song g) q) us)).
Proof.
  apply Forall_forall. intros m Hm. apply in_map_iff in Hm.
  destruct Hm as [g [<- Hg]]. apply filter_In in Hg. destruct Hg as [_ Hg].
  apply String.eqb_eq in Hg. repeat split; auto.
Qed.

Lemma contains_matches_tier (us : list Group) (q : string) :
  Forall (contains_tier q)
         (map (make_match 85 contains)
              (filter (fun g => search_nocase q (g_song g)
                                && negb (lower_eq (g_song g) q)) us)).
Proof.
  apply Forall_forall. intros m Hm. apply in_map_iff in Hm.
  destruct Hm as [g [<- Hg]]. apply filter_In in Hg. destruct Hg as [_ Hg].
  apply andb_true_iff in Hg. destruct Hg as [_ Hg].
  apply negb_true_iff, String.eqb_neq in Hg. repeat split; auto.
Qed.

(** The result is a prefix of the exact matches, followed by contains
    matches, followed by fuzzy matches. *)
Lemma song_matches_shape (df : DataFrame) (query_song : PyValue)
      (artist_name : option string) (k t : Z) (r : list Match) :
  body df query_song artist_name k t = Some r ->
  r = []
  \/ exists s ex co fu j,
      query_song = PyStr s
      /\ r = firstn j (ex ++ co ++ fu)
      /\ Forall (exact_tier (strip s)) ex
      /\ Forall (contains_tier (strip s)) co
      /\ Forall (fuzzy_tier t (ex ++ co)) fu.
Proof.
  unfold body, song_matches_body.
  destruct (negb (py_truth query_song) || negb (is_str query_song));
    [intros [= <-]; now left |].
  destruct query_song as [| b | z | s]; try (intros [= <-]; now left).
  destruct (negb (truthy (strip s))); [intros [= <-]; now left |].
  set (q := strip s).
  match goal with
  | |- match ?f with _ => _ end = _ -> _ => destruct f as [us |]
  end; [| discriminate].
  set (ex := map (make_match 100 exact)
                 (filter (fun g => lower_eq (g_song g) q) us)).
  assert (Hex : Forall (exact_tier q) ex) by apply exact_matches_tier.
  set (conts := map (make_match 85 contains)
                    (filter (fun g => search_nocase q (g_song g)
                                      && negb (lower_eq (g_song g) q)) us)).
  assert (Hconts : Forall (contains_tier q) conts)
    by apply contains_matches_tier.
  assert (Hco : forall ms,
             (if (Z.of_nat (List.length ex) <? k)%Z
              then if pattern_compiles q
                   then Some (append_until k ex conts) else None
              else Some ex) = Some ms ->
             exists co, ms = ex ++ co /\ Forall (contains_tier q) co).
  { intros ms. destruct (_ <? k)%Z.
    - destruct (pattern_compiles q); [| discriminate].
      intros [= <-]. destruct (append_until_prefix k conts ex) as [j ->].
      exists (firstn j conts). split; auto. now apply Forall_firstn.
    - intros [= <-]. exists []. split; [now rewrite app_nil_r | constructor]. }
  match goal with
  | |- match ?f with _ => _ end = _ -> _ =>
      destruct f as [ms |]; [| discriminate]
  end.
  destruct (Hco ms eq_refl) as [co [-> Hco']]. clear Hco.
  intros [= <-]. right.
  match goal with
  | |- context [slice_to k ?l] =>
      destruct (slice_to_firstn k l) as [j [-> _]]
  end.
  destruct (_ <? k)%Z.
  - match goal with
    | |- context [append_until k (ex ++ co) ?c] =>
        destruct (append_until_prefix k c (ex ++ co)) as [j' ->];
        exists s, ex, co, (firstn j' c), j
    end.
    rewrite <- app_assoc. repeat split; auto.
    apply Forall_firstn.
    eapply Permutation_Forall;
      [symmetry; apply stable_sort_perm | apply fuzzy_candidates_tier].
  - exists s, ex, co, [], j. rewrite app_nil_r. repeat split; auto.
Qed.

Lemma matches_of_shape (df : DataFrame) (query_song : PyValue)
      (artist_name : option string) (k t : Z) :
  let r := matches_of df query_song artist_name k t in
  r = []
  \/ exists s ex co fu j,
      query_song = PyStr s
      /\ r = firstn j (ex ++ co ++ fu)
      /\ Forall (exact_tier (strip s)) ex
      /\ Forall (contains_tier (strip s)) co
      /\ Forall (fuzzy_tier t (ex ++ co)) fu.
Proof.
  unfold matches_of, get_song_matches_with_duration. cbv zeta.
  destruct (song_matches_body _ _ _ _ _ _ _ _) as [r |] eqn:E; auto.
  eapply song_matches_shape; eauto.
Qed.

Lemma matches_of_length (df : DataFrame) (query_song : PyValue)
      (artist_name : option string) (k t : Z) :
  (0 <= k)%Z ->
  (Z.of_nat (List.length (matches_of df query_song artist_name k t)) <= k)%Z.
Proof.
  intros Hk. unfold matches_of, get_song_matches_with_duration,
    song_matches_body.
  repeat match goal with
         | |- context [match ?x with _ => _ end] =>
             lazymatch x with
             | context [slice_to] => fail
             | _ => destruct x; simpl; try lia
             end
         end; now apply slice_to_length.
Qed.
End Facts.
End SongMatchFacts.

Module SongMatchClaims.
Import PyStr PyList DataUtils PyListFacts Spec SongMatchFacts.

Section Claims.
Variable partial_ratio : string -> string -> Z.
Variable pattern_compiles : string -> bool.
Variable search_nocase : string -> string -> bool.

Let matches_of :=
  get_song_matches_with_duration partial_ratio pattern_compiles
                                 search_nocase.

(** C1.  For every frame, query, artist filter, threshold and bound
    [max_results], the engine returns at most [max_results] entries, and
    the result is a run of exact matches (score 100), then a run of
    contains matches (score 85), then a run of fuzzy matches. *)
Theorem song_matches_bounded_and_tiered
        (df : DataFrame) (query_song : PyValue)
        (artist_name : option string) (max_results : nat)
        (fuzzy_threshold : Z) :
  let r := matches_of df query_song artist_name (Z.of_nat max_results)
                      fuzzy_threshold in
  List.length r <= max_results
  /\ exists ex co fu,
      r = ex ++ co ++ fu
      /\ Forall (fun m => match_type m = exact
                          /\ match_score m = 100%Z) ex
      /\ Forall (fun m => match_type m = contains
                          /\ match_score m = 85%Z) co
      /\ Forall (fun m => match_type m = fuzzy) fu.
Proof.
  intros r. split.
  - assert (H := matches_of_length partial_ratio pattern_compiles
                   search_nocase df query_song artist_name fuzzy_threshold
                   (Nat2Z.is_nonneg max_results)).
    fold matches_of in H. fold r in H. lia.
  - destruct (matches_of_shape partial_ratio pattern_compiles search_nocase
                df query_song artist_name (Z.of_nat max_results)
                fuzzy_threshold)
      as [Hr | (s & ex & co & fu & j & _ & Hr & Hex & Hco & Hfu)];
      fold matches_of in Hr; fold r in Hr; rewrite Hr.
    + exists [], [], []. repeat split; constructor.
    + rewrite !firstn_app.
      eexists _, _, _. split; [reflexivity |].
      repeat split; apply Forall_firstn.
      * eapply Forall_impl; [| exact Hex]. unfold exact_tier. tauto.
      * eapply Forall_impl; [| exact Hco]. unfold contains_tier. tauto.
      * eapply Forall_impl; [| exact Hfu]. unfold fuzzy_tier. tauto.
Qed.

(** Two entries of the result that come from different tiers never have
    the same title, compared without regard to case: a contains match is
    not an exact match, and a fuzzy match has none of the titles chosen by
    the two tiers before it. *)
Lemma titles_differ_across_tiers
      (df : DataFrame) (query_song : PyValue)
      (artist_name : option string) (max_results fuzzy_threshold : Z)
      (a b : Match) :
  let r := matches_of df query_song artist_name max_results
                      fuzzy_threshold in
  In a r -> In b r -> match_type a <> match_type b ->
  title_key a <> title_key b.
Proof.
  intros r.
  destruct (matches_of_shape partial_ratio pattern_compiles search_nocase
              df query_song artist_name max_results fuzzy_threshold)
    as [Hr | (s & ex & co & fu & j & _ & Hr & Hex & Hco & Hfu)];
    fold matches_of in Hr; fold r in Hr; rewrite Hr.
  - intros [].
  - intros Ha Hb Hty.
    assert (Hin : forall m, In m (firstn j (ex ++ co ++ fu)) ->
              In m ex \/ In m co \/ In m fu).
    { intros m Hm.
      assert (Hm' : In m (ex ++ co ++ fu)).
      { rewrite <- (firstn_skipn j (ex ++ co ++ fu)).
        apply in_or_app. now left. }
      apply in_app_or in Hm'. destruct Hm' as [Hm' | Hm']; auto.
      apply in_app_or in Hm'. tauto. }
    rewrite Forall_forall in Hex, Hco, Hfu.
    assert (Hearlier : forall x y, In x fu -> In y ex \/ In y co ->
              title_key x <> title_key y).
    { intros x y Hx Hy Heq. destruct (Hfu x Hx) as (_ & _ & Hnot).
      apply Hnot. rewrite Heq. apply in_map, in_or_app. tauto. }
    destruct (Hin a Ha) as [Ha' | [Ha' | Ha']];
      destruct (Hin b Hb) as [Hb' | [Hb' | Hb']].
    + destruct (Hex a Ha') as (? & _), (Hex b Hb') as (? & _). congruence.
    + destruct (Hex a Ha') as (_ & _ & ?), (Hco b Hb') as (_ & _ & ?).
      congruence.
    + intros Heq. apply (Hearlier b a); auto.
    + destruct (Hco a Ha') as (_ & _ & ?), (Hex b Hb') as (_ & _ & ?).
      congruence.
    + destruct (Hco a Ha') as (? & _), (Hco b Hb') as (? & _). congruence.
    + intros Heq. apply (Hearlier b a); auto.
    + apply Hearlier; auto.
    + apply Hearlier; auto.
    + destruct (Hfu a Ha') as (? & _), (Hfu b Hb') as (? & _). congruence.
Qed.

(** C10.  For a query that is not a string, or whose text is empty once
    the white space around it is removed, the engine returns the empty
    list; the chart is not consulted. *)
Theorem song_matches_degenerate_query
        (df : DataFrame) (query_song : PyValue)
        (artist_name : option string) (max_results fuzzy_threshold : Z) :
  is_str query_song = false
  \/ (exists s, query_song = PyStr s /\ strip s = EmptyString) ->
  matches_of df query_song artist_name max_results fuzzy_threshold = [].
Proof.
  unfold matches_of, get_song_matches_with_duration, song_matches_body.
  intros [H | [s [-> H]]].
  - rewrite H. simpl. now rewrite orb_true_r.
  - destruct (negb (py_truth (PyStr s)) || negb (is_str (PyStr s)));
      [reflexivity |].
    rewrite H. reflexivity.
Qed.

(** With the chart of the two songs called Hello, the query hello and
    the bound 2, both songs are returned as exact matches, whatever the
    library calls answer: the later tiers are not consulted. *)
Lemma hello_matches :
  matches_of Samples.hello_chart (PyStr "hello") None 2 60
  = [ mkMatch "Hello" "Adele" 2 1 1 2015 100 exact;
      mkMatch "Hello" "Lionel Richie" 6 3 3 1984 100 exact ].
Proof. vm_compute. reflexivity. Qed.
End Claims.

(** C4, as stated, fails: the two songs called Hello are both returned. *)
Lemma song_matches_repeat_a_title :
  ~ NoDup (map title_key
             (get_song_matches_with_duration
                Samples.no_similarity Samples.always_compiles
                Samples.literal_search Samples.hello_chart (PyStr "hello")
                None 5 60)).
Proof.
  vm_compute. intros H. inversion H as [| ? ? Hnot _]; subst.
  apply Hnot. left. reflexivity.
Qed.

Lemma song_matches_degenerate_query_witness :
  get_song_matches_with_duration
    Samples.no_similarity Samples.always_compiles Samples.literal_search
    Samples.hello_chart (PyStr "   ") None 5 60 = [].
Proof.
  apply (@song_matches_degenerate_query
           Samples.no_similarity Samples.always_compiles
           Samples.literal_search Samples.hello_chart (PyStr "   ") None
           5%Z 60%Z).
  right. exists "   ". split; reflexivity.
Defined.

End SongMatchClaims.

(** ** The answer formatter *)

Module FormatterClaims.
Import PyStr DataUtils Chatbot.

(** C8.  The answer for a single match has a peak-rank line exactly when
    the peak rank of the match differs from its best rank, and that line
    then shows the peak rank. *)
Theorem single_match_peak_line (m : Match) (original_query : string) :
  format_song_duration_results [m] original_query
  = single_match (format_single m)
  /\ ((exists p, In (peak_rank_line p) (format_single m))
      <-> m_peak_rank m <> best_rank m)
  /\ (forall p, In (peak_rank_line p) (format_single m)
                <-> (p = m_peak_rank m /\ m_peak_rank m <> best_rank m)).
Proof.
  assert (H : forall p, In (peak_rank_line p) (format_single m)
                        <-> (p = m_peak_rank m /\ m_peak_rank m <> best_rank m)).
  { intros p. unfold format_single. cbv zeta.
    destruct (m_peak_rank m =? best_rank m)%Z eqn:E; simpl.
    - apply Z.eqb_eq in E. split.
      + intros [H | [H | [H | [H | [H | H]]]]]; try discriminate; tauto.
      + intros [_ H]. congruence.
    - apply Z.eqb_neq in E. split.
      + intros [H | [H | [H | [H | [H | [H | H]]]]]]; try discriminate;
          try tauto.
        inversion H. auto.
      + intros [-> _]. tauto. }
  split; [reflexivity | split; [| exact H]].
  split.
  - intros [p Hp]. apply H in Hp. tauto.
  - intros Hne. exists (m_peak_rank m). apply H. tauto.
Qed.

End FormatterClaims.

(** ** What a match captures *)

Module CaptureFacts.
Import PyStr Re Capture.
Local Open Scope string_scope.

Section Matcher.
Variable ci : bool.
Variable R : Type.

(** A repetition consumes a run of characters of its class, of a length
    within its bounds, and leaves the captures as they are. *)
Lemma rep_match_sound (cl : cclass) (greedy : bool) (s : string) :
  forall (lo : nat) (hi : option nat) (prev : option ascii) (cs : caps)
         (k : cont R) (x : R),
    rep_match ci cl greedy lo hi prev s cs k = Some x ->
    exists t s' p',
      s = t ++ s'
      /\ forallb (cmatch ci cl) (list_ascii_of_string t) = true
      /\ lo <= String.length t
      /\ (forall h, hi = Some h -> String.length t <= h)
      /\ k p' s' cs = Some x.
Proof.
  induction s as [| a s IH]; intros lo hi prev cs k x.
  - cbn [rep_match]. destruct lo; [| discriminate].
    intros H. exists EmptyString, EmptyString, prev.
    assert (Hk : k prev EmptyString cs = Some x)
      by (destruct greedy; destruct (k prev EmptyString cs); congruence).
    repeat split; auto. intros h _. simpl. lia.
  - cbn [rep_match].
    set (more := if may_repeat hi && cmatch ci cl a
                 then rep_match ci cl greedy (pred lo) (dec_hi hi) (Some a) s
                                cs k
                 else None).
    assert (Hmore : more = Some x ->
              exists t s' p',
                String a s = t ++ s'
                /\ forallb (cmatch ci cl) (list_ascii_of_string t) = true
                /\ lo <= String.length t
                /\ (forall h, hi = Some h -> String.length t <= h)
                /\ k p' s' cs = Some x).
    { unfold more. destruct (may_repeat hi) eqn:Hhi; [| discriminate].
      destruct (cmatch ci cl a) eqn:Ha; [| discriminate]. simpl.
      intros H. apply IH in H.
      destruct H as (t & s' & p' & -> & Ht & Hlo & Hhi' & Hk).
      exists (String a t), s', p'. simpl. rewrite Ha, Ht.
      repeat split; auto; [lia |].
      intros h ->. destruct h as [| h]; [discriminate |].
      specialize (Hhi' h eq_refl). lia. }
    assert (Hstop : k prev (String a s) cs = Some x -> lo = 0 ->
              exists t s' p',
                String a s = t ++ s'
                /\ forallb (cmatch ci cl) (list_ascii_of_string t) = true
                /\ lo <= String.length t
                /\ (forall h, hi = Some h -> String.length t <= h)
                /\ k p' s' cs = Some x).
    { intros Hk ->. exists EmptyString, (String a s), prev.
      repeat split; auto. intros h _. simpl. lia. }
    destruct lo as [| lo]; auto.
    destruct greedy.
    + destruct more as [y |]; [intros [= <-] | intros H]; auto.
    + destruct (k prev (String a s) cs) as [y |]; [intros [= <-] | intros H];
        auto.
Qed.

Lemma take_append (t s' : string) :
  take (String.length (t ++ s') - String.length s') (t ++ s') = t.
Proof.
  assert (H : String.length (t ++ s') - String.length s' = String.length t).
  { assert (String.length (t ++ s') = String.length t + String.length s')
      by (clear; induction t; simpl; auto).
    lia. }
  rewrite H. clear H. induction t as [| c t IH]; simpl.
  - destruct s'; reflexivity.
  - now rewrite IH.
Qed.

Lemma captured_app (gs1 gs2 : list digit_group) (cs cs' cs'' : caps) :
  captured gs1 cs cs' -> captured gs2 cs' cs'' ->
  captured (gs1 ++ gs2) cs cs''.
Proof.
  induction 1 as [| g gs v cs cs' Hv _ IH]; simpl; auto.
  intros H. econstructor; eauto.
Qed.

(** A match of a pattern whose groups are runs of digits fills each group
    with a run of digits within its bounds. *)
Lemma rmatch_groups (r : regex) :
  forall (gs : list digit_group),
    digit_groups r = Some gs ->
    forall (prev : option ascii) (s : string) (cs : caps) (k : cont R)
           (x : R),
      rmatch ci r prev s cs k = Some x ->
      exists p' s' cs', captured gs cs cs' /\ k p' s' cs' = Some x.
Proof.
  induction r as [| cl | cl lo hi g | r1 IH1 r2 IH2 | r1 IH1 r2 IH2 | i r IH
                  | |]; intros gs Hgs prev s cs k x H.
  - injection Hgs as <-. simpl in H. exists prev, s, cs. split; [constructor | auto].
  - injection Hgs as <-. simpl in H. destruct s as [| a s]; [discriminate |].
    destruct (cmatch ci cl a); [| discriminate].
    exists (Some a), s, cs. split; [constructor | auto].
  - injection Hgs as <-. simpl in H. apply rep_match_sound in H.
    destruct H as (_ & s' & p' & _ & _ & _ & _ & H).
    exists p', s', cs. split; [constructor | auto].
  - simpl in Hgs.
    destruct (digit_groups r1) as [g1 |]; [| discriminate].
    destruct (digit_groups r2) as [g2 |]; [| discriminate].
    injection Hgs as <-. cbn [rmatch] in H.
    apply (IH1 g1 eq_refl) in H. destruct H as (p1 & s1 & cs1 & H1 & H).
    apply (IH2 g2 eq_refl) in H. destruct H as (p2 & s2 & cs2 & H2 & H).
    exists p2, s2, cs2. split; auto. eapply captured_app; eauto.
  - simpl in Hgs.
    destruct (digit_groups r1) as [[| ? ?] |]; try discriminate.
    destruct (digit_groups r2) as [[| ? ?] |]; try discriminate.
    injection Hgs as <-. cbn [rmatch] in H.
    destruct (rmatch ci r1 prev s cs k) as [y |] eqn:E.
    + injection H as <-. eapply IH1; eauto.
    + eapply IH2; eauto.
  - destruct r as [| | cl lo hi g | | | | |]; try discriminate.
    destruct cl; try discriminate. injection Hgs as <-.
    cbn [rmatch] in H. apply rep_match_sound in H.
    destruct H as (t & s' & p' & -> & Ht & Hlo & Hhi & Hk).
    rewrite take_append in Hk.
    exists p', s', (set_group i t cs). split; auto.
    econstructor; [| constructor]. repeat split; auto.
  - injection Hgs as <-. simpl in H. destruct (at_end s); [| discriminate].
    exists prev, s, cs. split; [constructor | auto].
  - injection Hgs as <-. simpl in H.
    destruct (word_boundary prev s); [| discriminate].
    exists prev, s, cs. split; [constructor | auto].
Qed.




End Matcher.



Lemma search_from_match (ci : bool) (r : regex) (s : string) :
  forall prev m,
    search_from ci r prev s = Some m ->
    exists p' s', rmatch ci r p' s' [] (fun _ _ cs => Some cs) = Some m.
Proof.
  induction s as [| a s IH]; intros prev m; cbn [search_from].
  - destruct (rmatch ci r prev EmptyString [] _) eqn:E; [| discriminate].
    intros [= <-]. eauto.
  - destruct (rmatch ci r prev (String a s) [] _) eqn:E.
    + intros [= <-]. eauto.
    + apply IH.
Qed.

(** The groups of a match found by [re.search]. *)
Lemma re_search_groups (ci : bool) (r : regex) (gs : list digit_group)
      (s : string) (m : caps) :
  digit_groups r = Some gs -> re_search ci r s = Some m -> captured gs [] m.
Proof.
  intros Hr H. apply search_from_match in H. destruct H as (p' & s' & H).
  apply (@rmatch_groups ci _ r gs Hr) in H.
  destruct H as (_ & _ & cs' & Hc & [= <-]). exact Hc.
Qed.

Lemma captured_one (lo : nat) (hi : option nat) (m : caps) :
  captured [mkDigitGroup 1 lo hi] [] m ->
  fits (mkDigitGroup 1 lo hi) (group 1 m).
Proof.
  intros H. inversion H as [| g gs v cs cs' Hv Hrest]; subst.
  inversion Hrest; subst. exact Hv.
Qed.

Lemma captured_two (lo1 lo2 : nat) (hi1 hi2 : option nat) (m : caps) :
  captured [mkDigitGroup 1 lo1 hi1; mkDigitGroup 2 lo2 hi2] [] m ->
  fits (mkDigitGroup 1 lo1 hi1) (group 1 m)
  /\ fits (mkDigitGroup 2 lo2 hi2) (group 2 m).
Proof.
  intros H. inversion H as [| g gs v cs cs' Hv Hrest]; subst.
  inversion Hrest as [| g' gs' v' cs0 cs0' Hv' Hrest']; subst.
  inversion Hrest'; subst. split; [exact Hv | exact Hv'].
Qed.

(** A run of at least one digit satisfies [str.isdigit]. *)
Lemma fits_isdigit (g : digit_group) (v : string) :
  fits g v -> 1 <= dg_lo g -> isdigit v = true.
Proof.
  intros (Hd & Hlo & _) H1. unfold isdigit. rewrite Hd.
  destruct v; simpl in *; [lia | reflexivity].
Qed.

Lemma fits_digits (i n : nat) (v : string) :
  fits (mkDigitGroup i n (Some n)) v -> digits n v.
Proof.
  intros (Hd & Hlo & Hhi). simpl in *. specialize (Hhi n eq_refl).
  split; [lia | exact Hd].
Qed.

End CaptureFacts.

(** ** The intent parser *)

Module ParserFacts.
Import PyStr Re Capture CaptureFacts Parser Chatbot Spec.

(** *** The conversion [int] *)

Lemma py_int_ok (s : string) :
  String.length s <= int_max_str_digits -> py_int s = ok (int_of_digits s).
Proof. intros H. unfold py_int. apply Nat.leb_le in H. now rewrite H. Qed.

Lemma py_int_raised (s : string) :
  int_max_str_digits < String.length s ->
  py_int s = raised (ValueError_int_max_str_digits (String.length s)).
Proof. intros H. unfold py_int. apply Nat.leb_gt in H. now rewrite H. Qed.

Lemma py_int_cases (s : string) :
  (String.length s <= int_max_str_digits /\ py_int s = ok (int_of_digits s))
  \/ (int_max_str_digits < String.length s
      /\ py_int s = raised (ValueError_int_max_str_digits (String.length s))).
Proof.
  destruct (Nat.le_gt_cases (String.length s) int_max_str_digits) as [H | H].
  - left. split; [exact H | now apply py_int_ok].
  - right. split; [exact H | now apply py_int_raised].
Qed.

Lemma small_below_limit (n : nat) : n <= 4 -> n <= int_max_str_digits.
Proof.
  intros H. apply (Nat.le_trans _ 4); [exact H |].
  apply Nat.leb_le. vm_compute. reflexivity.
Qed.

(** A year of four digits and a decade token of two are converted. *)
Lemma py_int_digits (n : nat) (tok : string) :
  digits n tok -> n <= 4 -> py_int tok = ok (int_of_digits tok).
Proof.
  intros [H _] Hn. apply py_int_ok. rewrite H. now apply small_below_limit.
Qed.

(** *** The loop over the patterns of a rule *)

Lemma try_patterns_none (patterns : list regex)
      (body : caps -> result (option ParsedQuery)) (text : string) :
  Forall (fun p => ~ fires body text p) patterns ->
  try_patterns patterns body text = ok None.
Proof.
  induction 1 as [| p ps Hp _ IH]; simpl; auto.
  unfold fires in Hp. destruct (re_search false p text) as [m |]; auto.
  destruct (body m) as [[r |] | e]; auto; exfalso; apply Hp; discriminate.
Qed.

(** A result of [try_patterns] comes from the first pattern that fires. *)
Lemma try_patterns_some (patterns : list regex)
      (body : caps -> result (option ParsedQuery)) (text : string)
      (r : ParsedQuery) :
  try_patterns patterns body text = ok (Some r) ->
  exists p m, In p patterns /\ re_search false p text = Some m
              /\ body m = ok (Some r).
Proof.
  induction patterns as [| p ps IH]; simpl; [discriminate |].
  destruct (re_search false p text) as [m |] eqn:E.
  - destruct (body m) as [[r' |] | e] eqn:B.
    + intros [= <-]. exists p, m. auto.
    + intros H. destruct (IH H) as (p' & m' & ? & ? & ?).
      exists p', m'. auto.
    + discriminate.
  - intros H. destruct (IH H) as (p' & m' & ? & ? & ?).
    exists p', m'. auto.
Qed.


(** When the body lets no match go, the loop ends at the first pattern
    that is found. *)
Lemma try_patterns_first_found (patterns : list regex)
      (body : caps -> result (option ParsedQuery)) (text : string) :
  (forall m, body m <> ok None) ->
  try_patterns patterns body text
  = match first_found patterns text with
    | Some (_, m) => body m
    | None => ok None
    end.
Proof.
  intros Hb. induction patterns as [| p ps IH]; simpl; auto.
  destruct (re_search false p text) as [m |]; auto.
  specialize (Hb m). destruct (body m) as [[r |] | e]; congruence.
Qed.

Lemma first_found_in (patterns : list regex) (text : string) (p : regex)
      (m : caps) :
  first_found patterns text = Some (p, m) ->
  In p patterns /\ re_search false p text = Some m.
Proof.
  induction patterns as [| p' ps IH]; simpl; [discriminate |].
  destruct (re_search false p' text) as [m' |] eqn:E.
  - intros [= <- <-]. auto.
  - intros H. apply IH in H. tauto.
Qed.

(** *** What the patterns of the numeric rules capture *)

Lemma top_year_groups (p : regex) (text : string) (m : caps) :
  In p top_year_patterns -> re_search false p text = Some m ->
  isdigit (group 1 m) = true /\ digits 4 (group 2 m).
Proof.
  unfold top_year_patterns.
  intros [<- | [<- | [<- | [<- | []]]]] Hm;
    (eapply re_search_groups in Hm; [| reflexivity]);
    apply captured_two in Hm; destruct Hm as [H1 H2];
    (split; [eapply fits_isdigit; eauto; simpl; lia
            | eapply fits_digits; eauto]).
Qed.

Lemma top_year_default_groups (p : regex) (text : string) (m : caps) :
  In p top_year_default_patterns -> re_search false p text = Some m ->
  digits 4 (group 1 m).
Proof.
  unfold top_year_default_patterns.
  intros [<- | [<- | [<- | []]]] Hm;
    eapply fits_digits, captured_one, re_search_groups; eauto; reflexivity.
Qed.

(** The decade patterns capture a token of two digits or of four. *)
Lemma decade_patterns_token (p : regex) (text : string) (m : caps) :
  In p decade_patterns -> re_search false p text = Some m ->
  digits 2 (group 1 m) \/ digits 4 (group 1 m).
Proof.
  unfold decade_patterns.
  intros [<- | [<- | [<- | [<- | []]]]] H;
    [left | right | left | right];
    eapply fits_digits, captured_one, re_search_groups; eauto; reflexivity.
Qed.



(** *** The bodies of the rules *)

(** The body of the first rule on a match: the count is converted, or it
    is too long and the conversion raises. *)
Lemma top_year_body_cases (p : regex) (text : string) (m : caps) :
  In p top_year_patterns -> re_search false p text = Some m ->
  (String.length (group 1 m) <= int_max_str_digits
   /\ top_year_body m
      = ok (Some (mkParsed (Some "top_songs")
                           (Some (int_of_digits (group 1 m)))
                           (Some (int_of_digits (group 2 m)))
                           None None None)))
  \/ (int_max_str_digits < String.length (group 1 m)
      /\ top_year_body m
         = raised (ValueError_int_max_str_digits
                     (String.length (group 1 m)))).
Proof.
  intros Hp Hm. destruct (@top_year_groups _ _ _ Hp Hm) as [_ H2].
  unfold top_year_body.
  destruct (py_int_cases (group 1 m)) as [[Hl ->] | [Hl ->]]; simpl.
  - left. split; auto. rewrite (@py_int_digits _ _ H2); [reflexivity | lia].
  - right. auto.
Qed.

Lemma top_year_body_never_skips (m : caps) : top_year_body m <> ok None.
Proof.
  unfold top_year_body.
  destruct (py_int (group 1 m)); simpl; [| discriminate].
  destruct (py_int (group 2 m)); simpl; discriminate.
Qed.

Lemma top_year_default_body_ok (p : regex) (text : string) (m : caps) :
  In p top_year_default_patterns -> re_search false p text = Some m ->
  top_year_default_body m
  = ok (Some (mkParsed (Some "top_songs") (Some 10%Z)
                       (Some (int_of_digits (group 1 m)))
                       None None None)).
Proof.
  intros Hp Hm. unfold top_year_default_body.
  rewrite (@py_int_digits _ _ (@top_year_default_groups _ _ _ Hp Hm));
    [reflexivity | lia].
Qed.

Lemma resolve_two_digits (tok : string) :
  digits 2 tok ->
  resolve_decade tok
  = ok (if (int_of_digits tok >=? 50)%Z then (1900 + int_of_digits tok)%Z
        else (2000 + int_of_digits tok)%Z).
Proof.
  intros H. unfold resolve_decade. rewrite (proj1 H). simpl Nat.eqb.
  cbv iota. rewrite (@py_int_digits _ _ H); [| lia]. simpl.
  now destruct (int_of_digits tok >=? 50)%Z.
Qed.

Lemma resolve_four_digits (tok : string) :
  digits 4 tok -> resolve_decade tok = ok (int_of_digits tok).
Proof.
  intros H. unfold resolve_decade. rewrite (proj1 H). simpl Nat.eqb.
  cbv iota. now apply (@py_int_digits _ _ H).
Qed.

Lemma resolve_decade_ok (tok : string) :
  digits 2 tok \/ digits 4 tok -> resolve_decade tok = ok (decade_of tok).
Proof.
  intros [H | H].
  - rewrite (@resolve_two_digits _ H). unfold decade_of. now rewrite (proj1 H).
  - rewrite (@resolve_four_digits _ H). unfold decade_of. now rewrite (proj1 H).
Qed.

Lemma decade_body_ok (p : regex) (text : string) (m : caps) :
  In p decade_patterns -> re_search false p text = Some m ->
  decade_body m
  = ok (Some (mkParsed (Some "top_songs_decade") (Some 20%Z) None
                       (Some (decade_of (group 1 m))) None None)).
Proof.
  intros Hp Hm. unfold decade_body.
  now rewrite (@resolve_decade_ok _ (@decade_patterns_token _ _ _ Hp Hm)).
Qed.



(** *** The cascade *)

Lemma run_cascade_ok (rules : list Rule) (text : string) (r : ParsedQuery) :
  run_cascade rules text = ok r ->
  r = empty_result
  \/ exists patterns body p m,
      In (patterns, body) rules /\ In p patterns
      /\ re_search false p text = Some m /\ body m = ok (Some r).
Proof.
  induction rules as [| [patterns body] rules IH]; simpl.
  - intros [= <-]. now left.
  - destruct (try_patterns patterns body text) as [[r' |] | e] eqn:E.
    + intros [= <-]. right. apply try_patterns_some in E.
      destruct E as (p & m & Hp & Hm & Hb). exists patterns, body, p, m. auto.
    + intros H. destruct (IH H) as [-> | (ps & b & p & m & Hr & Hrest)];
        [now left | right].
      exists ps, b, p, m. tauto.
    + discriminate.
Qed.


(** The five rules, one by one. *)
Lemma parser_ok_rule (query : string) (r : ParsedQuery) :
  enhanced_query_parser query = ok r ->
  r = empty_result
  \/ exists p m,
      re_search false p (strip (lower query)) = Some m
      /\ ((In p top_year_patterns /\ top_year_body m = ok (Some r))
          \/ (In p top_year_default_patterns
              /\ top_year_default_body m = ok (Some r))
          \/ (In p decade_patterns /\ decade_body m = ok (Some r))
          \/ (In p duration_with_artist_patterns
              /\ duration_with_artist_body m = ok (Some r))
          \/ (In p duration_patterns /\ duration_body m = ok (Some r))).
Proof.
  unfold enhanced_query_parser. intros H. apply run_cascade_ok in H.
  destruct H as [-> | (ps & b & p & m & Hr & Hp & Hm & Hb)]; [now left |].
  right. exists p, m. split; [exact Hm |].
  unfold cascade in Hr. simpl in Hr.
  destruct Hr as [E | [E | [E | [E | [E | []]]]]]; injection E as <- <-; tauto.
Qed.

(** The intent of a parse is absent or one of the four routed intents. *)
Lemma parser_intents (query : string) (r : ParsedQuery) :
  enhanced_query_parser query = ok r ->
  r = empty_result
  \/ In (q_intent r)
        [Some "top_songs"; Some "top_songs_decade";
         Some "song_duration_with_artist"; Some "song_duration"].
Proof.
  intros H. apply parser_ok_rule in H.
  destruct H as [-> | (p & m & Hm & H)]; [now left | right].
  destruct H as [[Hp Hb] | [[Hp Hb] | [[Hp Hb] | [[Hp Hb] | [Hp Hb]]]]].
  - destruct (@top_year_body_cases _ _ _ Hp Hm) as [[_ E] | [_ E]];
      rewrite E in Hb; [| discriminate].
    injection Hb as <-. simpl. auto.
  - rewrite (@top_year_default_body_ok _ _ _ Hp Hm) in Hb.
    injection Hb as <-. simpl. auto.
  - rewrite (@decade_body_ok _ _ _ Hp Hm) in Hb. injection Hb as <-.
    simpl. auto.
  - unfold duration_with_artist_body in Hb.
    destruct (cleanup_both _ _) as [s1 a1].
    destruct (truthy _ && truthy _); [| discriminate].
    injection Hb as <-. simpl. auto.
  - unfold duration_body in Hb. destruct (truthy _); [| discriminate].
    injection Hb as <-. simpl. auto 6.
Qed.








(** When no pattern fires, the cascade runs to its end. *)
Lemma no_rule_empty (query : string) :
  no_rule_matches query -> enhanced_query_parser query = ok empty_result.
Proof.
  unfold enhanced_query_parser, no_rule_matches.
  generalize (strip (lower query)) as text. intros text.
  induction cascade as [| [patterns body] rules IH]; simpl; auto.
  intros H. inversion H as [| ? ? Hrule Hrest]; subst. simpl in Hrule.
  rewrite (@try_patterns_none _ _ _ Hrule). auto.
Qed.

(** The count of the language-model path is capped at 50. *)
Lemma flan_count_capped (flan_output : string) (x : Extracted) :
  extract_flan flan_output = ok x -> (x_n x <= 50)%Z.
Proof.
  unfold extract_flan.
  destruct (isdigit (dict_get "year" "" _));
    [destruct (py_int (dict_get "year" "" _)); simpl; [| discriminate] |];
    simpl;
    (destruct (isdigit (dict_get "n" "" _));
     [destruct (py_int (dict_get "n" "" _)); simpl; [| discriminate] |];
     simpl; intros [= <-]; simpl; lia).
Qed.

(** A top-songs pattern without a count gives the count 10, and a decade
    pattern gives 20. *)
Lemma default_counts (m : caps) (r : ParsedQuery) :
  (top_year_default_body m = ok (Some r) -> q_n r = Some 10%Z)
  /\ (decade_body m = ok (Some r) -> q_n r = Some 20%Z).
Proof.
  unfold top_year_default_body, decade_body. split.
  - destruct (py_int (group 1 m)); simpl; [| discriminate].
    intros [= <-]. reflexivity.
  - destruct (resolve_decade (group 1 m)); simpl; [| discriminate].
    intros [= <-]. reflexivity.
Qed.

End ParserFacts.

Module ParserClaims.
Import PyStr Re Parser Chatbot Spec ParserFacts.

(** C3, evaluated where it fails.  On the query "top 100 songs of 2020" the
    local parser extracts the count 100, and the orchestrator passes it on
    as it is: the count of the pattern path is not capped at 50. *)
Theorem pattern_path_count_not_capped
        (parse_query_with_flan : string -> string) :
  exists x,
    extract parse_query_with_flan "top 100 songs of 2020" = ok x
    /\ x_intent x = "top_songs" /\ x_year x = Some 2020%Z /\ x_n x = 100%Z
    /\ (x_n x > 50)%Z.
Proof. eexists. split; [vm_compute; reflexivity |]. repeat split. Qed.


(** When no rule matches, the orchestrator takes the parameters from the
    translator. *)
Lemma no_rule_then_translator
      (parse_query_with_flan : string -> string) (query : string) :
  no_rule_matches query ->
  extract parse_query_with_flan query
  = extract_flan (parse_query_with_flan query).
Proof.
  intros H. unfold extract.
  assert (E := @no_rule_empty query H).
  rewrite E. reflexivity.
Qed.

(** What the parser raises, the orchestrator answers with the text of its
    handler. *)
Lemma raised_is_answered
      (partial_ratio : string -> string -> Z)
      (pattern_compiles : string -> bool)
      (search_nocase : string -> string -> bool)
      (parse_query_with_flan : string -> string) (df : DataUtils.DataFrame)
      (query : string) (e : Exn) :
  truthy query = true ->
  enhanced_query_parser query = raised e ->
  respond_to_query partial_ratio pattern_compiles search_nocase
                   parse_query_with_flan df query
  = something_went_wrong e.
Proof.
  intros Hq H. unfold respond_to_query, extract. rewrite Hq, H. reflexivity.
Qed.



End ParserClaims.

(** ** Decade queries *)

Module DecadeClaims.
Import PyStr Re Capture CaptureFacts Parser Chatbot Spec ParserFacts.

Lemma top_year_default_body_never_skips (m : caps) :
  top_year_default_body m <> ok None.
Proof.
  unfold top_year_default_body.
  destruct (py_int (group 1 m)); simpl; discriminate.
Qed.

Lemma decade_body_never_skips (m : caps) : decade_body m <> ok None.
Proof.
  unfold decade_body.
  destruct (resolve_decade (group 1 m)); simpl; discriminate.
Qed.

(** The three cases of the resolution of a token. *)
Lemma decade_of_cases (tok : string) :
  digits 2 tok \/ digits 4 tok ->
  let value := int_of_digits tok in
  (digits 2 tok /\ (50 <= value)%Z /\ decade_of tok = (1900 + value)%Z)
  \/ (digits 2 tok /\ (value < 50)%Z /\ decade_of tok = (2000 + value)%Z)
  \/ (digits 4 tok /\ decade_of tok = value).
Proof.
  cbv zeta. unfold decade_of. intros [H | H]; rewrite (proj1 H); simpl Nat.eqb;
    cbv iota.
  - destruct (int_of_digits tok >=? 50)%Z eqn:E.
    + left. repeat split; auto; try apply H. lia.
    + right; left. repeat split; auto; try apply H. lia.
  - right; right. split; auto.
Qed.

(** A parse with the decade intent comes from a decade pattern. *)
Lemma decade_intent_rule (query : string) (r : ParsedQuery) :
  enhanced_query_parser query = ok r ->
  q_intent r = Some "top_songs_decade" ->
  exists p m,
    In p decade_patterns
    /\ re_search false p (strip (lower query)) = Some m
    /\ r = decade_parse (decade_of (group 1 m)).
Proof.
  intros H Hi. apply parser_ok_rule in H.
  destruct H as [-> | (p & m & Hm & H)]; [discriminate |].
  destruct H as [[Hp Hb] | [[Hp Hb] | [[Hp Hb] | [[Hp Hb] | [Hp Hb]]]]].
  - destruct (@top_year_body_cases _ _ _ Hp Hm) as [[_ E] | [_ E]];
      rewrite E in Hb; [| discriminate].
    injection Hb as <-. discriminate.
  - rewrite (@top_year_default_body_ok _ _ _ Hp Hm) in Hb.
    injection Hb as <-. discriminate.
  - rewrite (@decade_body_ok _ _ _ Hp Hm) in Hb. injection Hb as <-.
    exists p, m. auto.
  - unfold duration_with_artist_body in Hb.
    destruct (cleanup_both _ _) as [s1 a1].
    destruct (truthy _ && truthy _); [| discriminate].
    injection Hb as <-. discriminate.
  - unfold duration_body in Hb. destruct (truthy _); [| discriminate].
    injection Hb as <-. discriminate.
Qed.

(** The parse of a query in which no pattern of the two top-songs rules is
    found and a decade pattern is. *)
Lemma decade_rule_runs (query : string) (p : regex) (m : caps) :
  let text := strip (lower query) in
  first_found top_year_patterns text = None ->
  first_found top_year_default_patterns text = None ->
  first_found decade_patterns text = Some (p, m) ->
  enhanced_query_parser query = ok (decade_parse (decade_of (group 1 m))).
Proof.
  cbv zeta. intros F1 F2 F3.
  unfold enhanced_query_parser, cascade. cbn [run_cascade].
  rewrite (@try_patterns_first_found top_year_patterns _ _
             top_year_body_never_skips), F1.
  rewrite (@try_patterns_first_found top_year_default_patterns _ _
             top_year_default_body_never_skips), F2.
  rewrite (@try_patterns_first_found decade_patterns _ _
             decade_body_never_skips), F3.
  destruct (@first_found_in _ _ _ _ F3) as [Hp Hm].
  rewrite (@decade_body_ok _ _ _ Hp Hm). reflexivity.
Qed.

Lemma first_found_none (patterns : list regex) (text : string) (p : regex) :
  first_found patterns text = None -> In p patterns ->
  re_search false p text = None.
Proof.
  induction patterns as [| p' ps IH]; simpl; [tauto |].
  destruct (re_search false p' text) eqn:E; [discriminate |].
  intros H [<- | Hp]; auto.
Qed.

Lemma first_found_some (patterns : list regex) (text : string) (p : regex)
      (m : caps) :
  In p patterns -> re_search false p text = Some m ->
  exists p' m', first_found patterns text = Some (p', m').
Proof.
  intros Hp Hm. destruct (first_found patterns text) as [[p' m'] |] eqn:F;
    [eauto |].
  rewrite (@first_found_none _ _ _ F Hp) in Hm. discriminate.
Qed.

(** C6, evaluated where it fails.  The query "top songs from 2000s" has
    the decade form: the second decade pattern, whose comment in the code
    names this very query, is found in it with the token 2000, and the
    body of the decade rule gives the decade intent and the decade start
    2000 on that match.  But a pattern of the second rule of the cascade,
    which runs first, is found in it too, and the parser returns the
    intent top_songs for the year 2000 with the count 10: no decade start
    is resolved, and the orchestrator takes the query for a request of the
    top songs of one year. *)
Theorem decade_form_read_as_year
        (parse_query_with_flan : string -> string) :
  let query := "top songs from 2000s" in
  (exists p m,
      nth_error decade_patterns 1 = Some p
      /\ re_search false p (strip (lower query)) = Some m
      /\ group 1 m = "2000"
      /\ decade_body m = ok (Some (decade_parse 2000)))
  /\ enhanced_query_parser query
     = ok (mkParsed (Some "top_songs") (Some 10%Z) (Some 2000%Z)
                    None None None)
  /\ extract parse_query_with_flan query
     = ok (mkExtracted "top_songs" (Some 2000%Z) 10 "" "" None).
Proof.
  cbv zeta. split; [| split; vm_compute; reflexivity].
  eexists. eexists. split; [reflexivity |].
  split; [vm_compute; reflexivity |].
  split; vm_compute; reflexivity.
Qed.

(** X27.  A parse has the decade intent exactly when no
    pattern of the two top-songs rules is found in the query and a decade
    pattern is; it then has the count 20 and the decade start resolved
    from the token that the first decade pattern found has captured: a
    token of two digits of value at least 50 gives 1900 plus the value,
    one of value below 50 gives 2000 plus the value, and a token of four
    digits gives its value. *)
Theorem decade_rule_resolution (query : string) :
  let text := strip (lower query) in
  (forall r,
      enhanced_query_parser query = ok r ->
      q_intent r = Some "top_songs_decade" ->
      first_found top_year_patterns text = None
      /\ first_found top_year_default_patterns text = None
      /\ exists p m, first_found decade_patterns text = Some (p, m))
  /\ (forall p m,
         first_found top_year_patterns text = None ->
         first_found top_year_default_patterns text = None ->
         first_found decade_patterns text = Some (p, m) ->
         let tok := group 1 m in
         let value := int_of_digits tok in
         exists d,
           enhanced_query_parser query = ok (decade_parse d)
           /\ ((digits 2 tok /\ (50 <= value)%Z /\ d = (1900 + value)%Z)
               \/ (digits 2 tok /\ (value < 50)%Z /\ d = (2000 + value)%Z)
               \/ (digits 4 tok /\ d = value))).
Proof.
  cbv zeta. split.
  - intros r H Hi.
    destruct (@decade_intent_rule _ _ H Hi) as (p & m & Hp & Hm & ->).
    unfold enhanced_query_parser, cascade in H. cbn [run_cascade] in H.
    rewrite (@try_patterns_first_found top_year_patterns _ _
               top_year_body_never_skips) in H.
    destruct (first_found top_year_patterns _) as [[p1 m1] |] eqn:F1.
    { exfalso. destruct (@first_found_in _ _ _ _ F1) as [Hp1 Hm1].
      destruct (@top_year_body_cases _ _ _ Hp1 Hm1) as [[_ E] | [_ E]];
        rewrite E in H; discriminate. }
    rewrite (@try_patterns_first_found top_year_default_patterns _ _
               top_year_default_body_never_skips) in H.
    destruct (first_found top_year_default_patterns _) as [[p2 m2] |] eqn:F2.
    { exfalso. destruct (@first_found_in _ _ _ _ F2) as [Hp2 Hm2].
      rewrite (@top_year_default_body_ok _ _ _ Hp2 Hm2) in H.
      discriminate. }
    split; [reflexivity | split; [reflexivity |]].
    eapply first_found_some; eauto.
  - intros p m F1 F2 F3. exists (decade_of (group 1 m)).
    split; [now apply (@decade_rule_runs query p m) |].
    destruct (@first_found_in _ _ _ _ F3) as [Hp Hm].
    exact (@decade_of_cases _ (@decade_patterns_token _ _ _ Hp Hm)).
Qed.

(** The decade queries of the specification. *)
Example decade_examples :
  enhanced_query_parser "Best songs from the 80s" = ok (decade_parse 1980)
  /\ enhanced_query_parser "best of the 00s" = ok (decade_parse 2000)
  /\ enhanced_query_parser "top hits from the 10s" = ok (decade_parse 2010)
  /\ enhanced_query_parser "best of 2000s" = ok (decade_parse 2000)
  /\ enhanced_query_parser "top hits of 1990s" = ok (decade_parse 1990).
Proof. vm_compute. repeat split. Qed.

End DecadeClaims.

(** ** Segments *)

Module TokenFacts.
Import PyStr Re Tokens.
Local Open Scope string_scope.

Lemma is_word_lower_char (c : ascii) : is_word (lower_char c) = is_word c.
Proof. destruct c as [[] [] [] [] [] [] [] []]; reflexivity. Qed.

Lemma word_not_space (c : ascii) : is_word c = true -> is_space c = false.
Proof. destruct c as [[] [] [] [] [] [] [] []]; vm_compute; congruence. Qed.

Lemma space_not_word (c : ascii) : is_space c = true -> is_word c = false.
Proof. destruct c as [[] [] [] [] [] [] [] []]; vm_compute; congruence. Qed.

(** A character that matches a word character without regard to case is a
    word character. *)
Lemma eqb_lower_word (a c : ascii) :
  Ascii.eqb (lower_char a) (lower_char c) = true -> is_word a = is_word c.
Proof.
  intros H. apply Ascii.eqb_eq in H.
  rewrite <- (is_word_lower_char a), <- (is_word_lower_char c). congruence.
Qed.

Lemma join_cons (g : string) (l : list string) : join (g :: l) = g ++ join l.
Proof. reflexivity. Qed.

Lemma join_merge (c : ascii) (l : list string) :
  join (merge c l) = String c (join l).
Proof.
  unfold merge. destruct l as [| g gs]; simpl; auto.
  destruct (word_after g); reflexivity.
Qed.

Lemma join_segs (s : string) : join (segs s) = s.
Proof.
  induction s as [| c s IH]; simpl; auto.
  destruct (is_word c).
  - rewrite join_merge. congruence.
  - simpl. congruence.
Qed.

Lemma word_after_append (g rest : string) :
  truthy g = true -> word_after (g ++ rest) = word_after g.
Proof. destruct g; simpl; [discriminate | reflexivity]. Qed.

Lemma wordlike_head (g : string) : wordlike g = true -> word_after g = true.
Proof.
  unfold wordlike. destruct g as [| c g]; simpl; [discriminate |].
  intros H. apply andb_true_iff in H. tauto.
Qed.

Lemma wordlike_cons (c : ascii) (g : string) :
  wordlike (String c g) = is_word c && all_word g.
Proof. reflexivity. Qed.

Lemma canon_merge (c : ascii) (l : list string) :
  is_word c = true -> canon l -> canon (merge c l).
Proof.
  intros Hc Hl. unfold merge. destruct l as [| g gs].
  - simpl. split; auto. right. rewrite wordlike_cons, Hc. auto.
  - destruct (word_after g) eqn:Hg.
    + simpl in Hl. destruct Hl as [[(a & -> & Ha) | (Hw & Hn)] Hgs].
      * simpl in Hg. congruence.
      * simpl. split; auto. right. split; auto.
        rewrite wordlike_cons, Hc. unfold wordlike in Hw.
        apply andb_true_iff in Hw. tauto.
    + split; auto. right. split.
      * rewrite wordlike_cons, Hc. reflexivity.
      * rewrite join_cons. destruct g as [| a g]; simpl in *.
        -- destruct Hl as [[(a & Ha & _) | (Hw & _)] _]; discriminate.
        -- exact Hg.
Qed.

Lemma canon_segs (s : string) : canon (segs s).
Proof.
  induction s as [| c s IH]; simpl; auto.
  destruct (is_word c) eqn:Hc.
  - now apply canon_merge.
  - simpl. split; auto. left. eauto.
Qed.

(** A word in front of a text that does not start with a word character is
    a segment of its own. *)
Lemma segs_run (g rest : string) :
  wordlike g = true -> word_after rest = false ->
  segs (g ++ rest) = g :: segs rest.
Proof.
  induction g as [| c g IH]; [discriminate |].
  rewrite wordlike_cons. intros H Hrest. apply andb_true_iff in H.
  destruct H as [Hc Hg]. simpl. rewrite Hc.
  destruct g as [| a g].
  - simpl. destruct rest as [| b rest]; simpl; auto.
    simpl in Hrest. rewrite Hrest. unfold merge. simpl. rewrite Hrest.
    reflexivity.
  - rewrite IH; auto. simpl. simpl in Hg.
    apply andb_true_iff in Hg. destruct Hg as [-> _]. reflexivity.
Qed.

Lemma segs_join (l : list string) : canon l -> segs (join l) = l.
Proof.
  induction l as [| g l IH]; simpl; auto.
  intros [[(c & -> & Hc) | (Hw & Hn)] Hl].
  - simpl. rewrite Hc, IH; auto.
  - rewrite segs_run; auto. rewrite IH; auto.
Qed.

(** The segments of a text that is followed by one that does not start
    with a word character. *)
Lemma segs_app (a t : string) :
  word_after t = false -> segs (a ++ t) = (segs a ++ segs t)%list.
Proof.
  intros Ht. induction a as [| c a IH]; simpl; auto.
  rewrite IH. destruct (is_word c); auto.
  unfold merge. destruct (segs a) as [| g gs] eqn:E; simpl.
  - destruct t as [| b t]; simpl; auto.
    simpl in Ht. rewrite Ht. simpl. rewrite Ht. reflexivity.
  - destruct (word_after g); reflexivity.
Qed.

Lemma keep_other (w : string) (c : ascii) :
  wordlike w = true -> is_word c = false -> keep w (String c EmptyString) = true.
Proof.
  intros Hw Hc. unfold keep, eq_ci. apply negb_true_iff.
  destruct w as [| a w]; simpl; auto.
  destruct (Ascii.eqb (lower_char c) (lower_char a)) eqn:E; auto.
  apply eqb_lower_word in E. rewrite wordlike_cons in Hw.
  apply andb_true_iff in Hw. destruct Hw. congruence.
Qed.

Lemma canon_filter (w : string) (l : list string) :
  wordlike w = true -> canon l -> canon (filter (keep w) l).
Proof.
  intros Hw. induction l as [| g l IH]; simpl; auto.
  intros [Hg Hl]. destruct (keep w g) eqn:K; auto.
  simpl. split; auto.
  destruct Hg as [? | (Hg & Hn)]; auto. right. split; auto.
  destruct l as [| h l]; simpl; auto.
  simpl in Hl. destruct Hl as [[(c & -> & Hc) | (Hh & _)] _].
  - rewrite keep_other; auto.
  - rewrite join_cons, word_after_append, wordlike_head in Hn; auto.
    + discriminate.
    + unfold wordlike in Hh. apply andb_true_iff in Hh. tauto.
Qed.

Lemma filter_all (A : Type) (f : A -> bool) (l : list A) :
  Forall (fun x => f x = true) l -> filter f l = l.
Proof.
  induction 1 as [| x l Hx _ IH]; simpl; auto. rewrite Hx. congruence.
Qed.

End TokenFacts.

(** ** The removal of a stop word *)

Module WordRemovalFacts.
Import PyStr Re Parser Tokens TokenFacts.
Local Open Scope string_scope.

Lemma lit_cons (c c' : ascii) (w : string) :
  lit (String c (String c' w)) = Seq (Chr (CLit c)) (lit (String c' w)).
Proof. reflexivity. Qed.

Lemma eq_ci_cons (a c : ascii) (g w : string) :
  eq_ci (String a g) (String c w)
  = Ascii.eqb (lower_char a) (lower_char c) && eq_ci g w.
Proof. reflexivity. Qed.

Section Lit.
Variable R : Type.

(** The text of a word is matched against a run of word characters: the
    match, with the word boundary after it, succeeds exactly when the run
    is the word. *)
Lemma rmatch_lit_run (w : string) :
  wordlike w = true ->
  forall (g rest : string) (p : option ascii) (cs : caps)
         (K : string -> caps -> option R),
    all_word g = true -> word_after rest = false ->
    rmatch true (lit w) p (g ++ rest) cs
           (fun p' s' cs' => if word_boundary p' s' then K s' cs' else None)
    = if eq_ci g w then K rest cs else None.
Proof.
  induction w as [| c w IH]; [discriminate |].
  rewrite wordlike_cons. intros Hw g rest p cs K Hg Hrest.
  apply andb_true_iff in Hw. destruct Hw as [Hc Hw].
  destruct g as [| a g].
  - (* the run is empty: the first character of the word is not matched *)
    assert (Hno : forall b s, rest = String b s ->
                     cmatch true (CLit c) b = false).
    { intros b s ->. simpl in *.
      destruct (Ascii.eqb (lower_char b) (lower_char c)) eqn:E; auto.
      apply eqb_lower_word in E. congruence. }
    change (eq_ci EmptyString (String c w)) with false. cbv iota.
    change (EmptyString ++ rest) with rest.
    destruct w as [| c' w].
    + cbn [lit rmatch]. destruct rest as [| b s]; auto.
      now rewrite (Hno b s eq_refl).
    + rewrite lit_cons. cbn [rmatch].
      destruct rest as [| b s]; auto. now rewrite (Hno b s eq_refl).
  - simpl in Hg. apply andb_true_iff in Hg. destruct Hg as [Ha Hg].
    rewrite eq_ci_cons.
    change (String a g ++ rest) with (String a (g ++ rest)).
    destruct w as [| c' w].
    + cbn [lit rmatch cmatch].
      destruct (Ascii.eqb (lower_char a) (lower_char c)); auto.
      destruct g as [| a' g].
      * simpl. unfold word_boundary. simpl. rewrite Ha, Hrest. reflexivity.
      * simpl in Hg. apply andb_true_iff in Hg. destruct Hg as [Ha' _].
        unfold word_boundary. simpl. rewrite Ha, Ha'. reflexivity.
    + rewrite lit_cons. cbn [rmatch cmatch].
      destruct (Ascii.eqb (lower_char a) (lower_char c));
        [apply IH; auto | reflexivity].
Qed.
End Lit.

Lemma length_append_sub (g rest : string) :
  String.length (g ++ rest) - String.length rest = String.length g.
Proof.
  assert (H : String.length (g ++ rest) = String.length g + String.length rest).
  { induction g as [| c g IH]; simpl; auto. }
  lia.
Qed.

Lemma word_re_unfold (w : string) :
  word_re w = Seq WordB (Seq (lit w) WordB).
Proof. reflexivity. Qed.

(** The word pattern at the start of a run, not preceded by a word
    character. *)
Lemma match_len_word_run (w g rest : string) (prev : option ascii) :
  wordlike w = true -> wordlike g = true -> word_after rest = false ->
  word_before prev = false ->
  match_len true (word_re w) prev (g ++ rest)
  = if eq_ci g w then Some (String.length g) else None.
Proof.
  intros Hw Hg Hrest Hprev. unfold match_len. rewrite word_re_unfold.
  cbn [rmatch]. unfold word_boundary at 1.
  rewrite Hprev, word_after_append, (wordlike_head _ Hg);
    [| unfold wordlike in Hg; apply andb_true_iff in Hg; tauto].
  simpl xorb. cbv iota.
  unfold wordlike in Hg. apply andb_true_iff in Hg. destruct Hg as [_ Hg].
  rewrite (@rmatch_lit_run nat w Hw g rest prev []
             (fun s' _ => Some (String.length (g ++ rest) - String.length s')));
    auto.
  now rewrite length_append_sub.
Qed.

(** The word pattern does not match in front of a character that is not a
    word character, nor at the end of the text. *)
Lemma match_len_word_other (w s : string) (prev : option ascii) :
  wordlike w = true -> word_after s = false ->
  match_len true (word_re w) prev s = None.
Proof.
  intros Hw Hs. unfold match_len. rewrite word_re_unfold. cbn [rmatch].
  destruct (word_boundary prev s); auto.
  assert (E := @rmatch_lit_run nat w Hw EmptyString s prev []
                 (fun s' _ => Some (String.length s - String.length s'))
                 eq_refl Hs).
  simpl append in E. rewrite E.
  unfold eq_ci. destruct w; [discriminate | reflexivity].
Qed.

(** Nor does it match inside a word. *)
Lemma match_len_word_inside (w s : string) (prev : option ascii) :
  word_before prev = true -> word_after s = true ->
  match_len true (word_re w) prev s = None.
Proof.
  intros Hp Hs. unfold match_len. rewrite word_re_unfold. cbn [rmatch].
  unfold word_boundary at 1. rewrite Hp, Hs. reflexivity.
Qed.

Section Sub.
Variable ci : bool.
Variable r : regex.
Variable repl : string.

Lemma sub_from_skip (x rest : string) (p : option ascii) :
  exists p', sub_from ci r repl p (x ++ rest) (String.length x)
             = sub_from ci r repl p' rest 0.
Proof.
  revert p. induction x as [| c x IH]; intros p; simpl.
  - exists p. reflexivity.
  - apply IH.
Qed.
End Sub.

Section Word.
Variable w : string.
Hypothesis Hw : wordlike w = true.

Let sub := sub_from true (word_re w) EmptyString.

Lemma sub_word_tail (g rest : string) (p : option ascii) :
  all_word g = true -> word_before p = true ->
  exists p', sub p (g ++ rest) 0 = g ++ sub p' rest 0.
Proof.
  revert p. induction g as [| a g IH]; intros p Hg Hp.
  - exists p. reflexivity.
  - simpl in Hg. apply andb_true_iff in Hg. destruct Hg as [Ha Hg].
    unfold sub. simpl append. cbn [sub_from].
    rewrite match_len_word_inside; auto.
    destruct (IH (Some a) Hg Ha) as [p' Hp']. exists p'.
    unfold sub in Hp'. simpl. now rewrite Hp'.
Qed.

(** One word at the start of the text, not preceded by a word character, is
    dropped when it is the stop word and copied when it is not. *)
Lemma sub_word_run (g rest : string) (p : option ascii) :
  wordlike g = true -> word_after rest = false -> word_before p = false ->
  exists p', sub p (g ++ rest) 0
             = (if eq_ci g w then EmptyString else g) ++ sub p' rest 0.
Proof.
  intros Hg Hrest Hp.
  assert (M := match_len_word_run w g rest p Hw Hg Hrest Hp).
  destruct g as [| a g]; [discriminate |].
  rewrite wordlike_cons in Hg. apply andb_true_iff in Hg.
  destruct Hg as [Ha Hg].
  unfold sub. simpl append in *. cbn [sub_from]. rewrite M.
  destruct (eq_ci (String a g) w).
  - simpl String.length. simpl.
    apply (sub_from_skip true (word_re w) EmptyString g rest (Some a)).
  - destruct (sub_word_tail g rest (Some a) Hg Ha) as [p' Hp'].
    exists p'. unfold sub in Hp'. simpl. now rewrite Hp'.
Qed.

(** The removal of the stop word from a text keeps the segments that are
    not the word. *)
Lemma sub_word_join (l : list string) :
  canon l ->
  forall p, word_before p && word_after (join l) = false ->
            sub p (join l) 0 = join (filter (keep w) l).
Proof.
  induction l as [| g l IH]; intros Hl p Hp.
  - unfold sub. simpl. destruct (match_len _ _ _ _); reflexivity.
  - simpl in Hl. destruct Hl as [[(c & -> & Hc) | (Hg & Hn)] Hl].
    + rewrite join_cons. simpl append. simpl filter.
      rewrite keep_other; auto. rewrite join_cons. simpl append.
      unfold sub. cbn [sub_from].
      rewrite match_len_word_other; auto.
      f_equal. apply IH; auto. simpl. now rewrite Hc.
    + rewrite join_cons. simpl filter.
      assert (Hp' : word_before p = false).
      { rewrite join_cons, word_after_append, (wordlike_head _ Hg) in Hp.
        - now rewrite andb_true_r in Hp.
        - unfold wordlike in Hg. apply andb_true_iff in Hg. tauto. }
      destruct (sub_word_run g (join l) p Hg Hn Hp') as [p' ->].
      rewrite IH; auto; [| rewrite Hn; apply andb_false_r].
      unfold keep. destruct (eq_ci g w); reflexivity.
Qed.

Lemma re_sub_word (s : string) :
  re_sub true (word_re w) EmptyString s = join (filter (keep w) (segs s)).
Proof.
  unfold re_sub. rewrite <- (join_segs s) at 1.
  apply sub_word_join; [apply canon_segs | reflexivity].
Qed.

Lemma segs_re_sub_word (s : string) :
  segs (re_sub true (word_re w) EmptyString s) = filter (keep w) (segs s).
Proof.
  rewrite re_sub_word. apply segs_join, canon_filter; auto. apply canon_segs.
Qed.

(** A text without the stop word is left as it is. *)
Lemma re_sub_word_free (s : string) :
  free w s -> re_sub true (word_re w) EmptyString s = s.
Proof.
  intros H. rewrite re_sub_word, filter_all; [apply join_segs |].
  eapply Forall_impl; [| exact H]. intros g Hg. unfold keep. now rewrite Hg.
Qed.
End Word.

End WordRemovalFacts.

(** ** White space: collapsing and stripping *)

Module SpaceFacts.
Import PyStr Re Parser Tokens TokenFacts.
Local Open Scope string_scope.

Lemma space_run_lstrip (s : string) :
  String.length s - String.length (lstrip_chars is_space s) = space_run s.
Proof.
  assert (H : String.length s
              = space_run s + String.length (lstrip_chars is_space s)).
  { induction s as [| c s IH]; simpl; auto.
    destruct (is_space c); simpl; auto. }
  lia.
Qed.

(** A greedy run of white space takes all the white space there is. *)
Lemma rep_space_greedy (R : Type) (f : string -> R) (s : string) :
  forall (lo : nat) (prev : option ascii) (cs : caps),
    rep_match false CSpace true lo None prev s cs (fun _ s' _ => Some (f s'))
    = if (lo <=? space_run s)%nat
      then Some (f (lstrip_chars is_space s)) else None.
Proof.
  induction s as [| c s IH]; intros lo prev cs.
  - destruct lo; reflexivity.
  - cbn [rep_match may_repeat dec_hi cmatch andb space_run lstrip_chars].
    destruct (is_space c).
    + rewrite IH. destruct lo as [| lo]; simpl; try reflexivity;
        try (destruct (lo <=? space_run s)%nat; reflexivity).
    + destruct lo; reflexivity.
Qed.

Lemma match_len_spaces (prev : option ascii) (s : string) :
  match_len false sp1 prev s
  = match space_run s with
    | O => None
    | S n => Some (S n)
    end.
Proof.
  unfold match_len, sp1. cbn [rmatch].
  rewrite (rep_space_greedy (fun s' => String.length s - String.length s')).
  rewrite space_run_lstrip. destruct (space_run s); reflexivity.
Qed.

(** [re.sub(r'\s+', ' ', s)] is the scan [squeeze]. *)
Lemma sub_spaces (s : string) :
  forall p,
    sub_from false sp1 " " p s 0 = squeeze s false
    /\ sub_from false sp1 " " p s (space_run s) = squeeze s true.
Proof.
  induction s as [| c s IH]; intros p.
  - cbn [sub_from space_run]. rewrite match_len_spaces. simpl. auto.
  - cbn [sub_from space_run squeeze]. rewrite match_len_spaces.
    cbn [space_run]. destruct (IH (Some c)) as [IH0 IH1].
    destruct (is_space c).
    + rewrite IH1. auto.
    + rewrite IH0. auto.
Qed.

Lemma re_sub_spaces (s : string) : re_sub false sp1 " " s = squeeze s false.
Proof. apply sub_spaces. Qed.

Lemma merge_other (c : ascii) (g : string) (l : list string) :
  word_after g = false ->
  merge c (g :: l) = String c EmptyString :: g :: l.
Proof. intros H. unfold merge. now rewrite H. Qed.

Lemma segs_squeeze (s : string) :
  forall b, segs (squeeze s b) = squeeze_segs (segs s) b.
Proof.
  induction s as [| c s IH]; intros b; simpl; auto.
  destruct (is_space c) eqn:Hsp.
  - rewrite (space_not_word _ Hsp). simpl. rewrite Hsp.
    destruct b; simpl; now rewrite IH.
  - destruct (is_word c) eqn:Hw.
    + simpl. rewrite Hw, IH.
      destruct (segs s) as [| g gs]; simpl.
      * now rewrite Hsp.
      * destruct (word_after g) eqn:Hg.
        -- assert (Hng : is_space_seg g = false).
           { destruct g as [| a [| a' g]]; simpl in *; auto.
             destruct (is_space a) eqn:E; auto.
             apply space_not_word in E. congruence. }
           rewrite Hng. simpl. rewrite Hg.
           destruct g as [| a g]; [discriminate | reflexivity].
        -- cbn [squeeze_segs is_space_seg]. rewrite Hsp.
           destruct (is_space_seg g); now rewrite merge_other.
    + simpl. rewrite Hw, Hsp, IH. reflexivity.
Qed.

Lemma Forall_squeeze_segs (P : string -> Prop) (l : list string) :
  P " " -> Forall P l -> forall b, Forall P (squeeze_segs l b).
Proof.
  intros Hsp. induction 1 as [| g l Hg _ IH]; intros b; simpl; auto.
  destruct (is_space_seg g); [destruct b |]; auto.
Qed.

Lemma spaced_squeeze (s : string) : forall b, spaced b (squeeze s b).
Proof.
  induction s as [| c s IH]; intros b; simpl; auto.
  destruct (is_space c) eqn:E.
  - destruct b; simpl; auto.
  - simpl. rewrite E. auto.
Qed.

Lemma squeeze_spaced (s : string) : forall b, spaced b s -> squeeze s b = s.
Proof.
  induction s as [| c s IH]; intros b; simpl; auto.
  destruct (is_space c).
  - intros (-> & -> & H). now rewrite IH.
  - intros H. now rewrite IH.
Qed.

Lemma spaced_weaken (s : string) : spaced true s -> spaced false s.
Proof.
  destruct s as [| c s]; simpl; auto.
  destruct (is_space c); auto. intros (H & _). discriminate.
Qed.

Lemma spaced_lstrip (s : string) :
  forall b, spaced b s -> spaced false (lstrip_chars is_space s).
Proof.
  induction s as [| c s IH]; intros b; simpl; auto.
  destruct (is_space c) eqn:E.
  - intros (_ & _ & H). eauto.
  - intros H. simpl. now rewrite E.
Qed.

Lemma spaced_rstrip (s : string) :
  forall b, spaced b s -> spaced b (rstrip_chars is_space s).
Proof.
  induction s as [| c s IH]; intros b; simpl; auto.
  destruct (is_space c) eqn:E.
  - intros (-> & -> & H). apply IH in H.
    destruct (rstrip_chars is_space s); simpl; auto.
  - intros H. apply IH in H.
    destruct (rstrip_chars is_space s); simpl; rewrite E; auto.
Qed.

Lemma spaced_strip (s : string) : spaced false s -> spaced false (strip s).
Proof.
  intros H. unfold strip, strip_chars.
  eapply spaced_rstrip, spaced_lstrip; eauto.
Qed.

(** *** Stripping *)

Lemma Forall_segs_lstrip (P : string -> Prop) (s : string) :
  Forall P (segs s) -> Forall P (segs (lstrip_chars is_space s)).
Proof.
  induction s as [| c s IH]; simpl; auto.
  destruct (is_space c) eqn:E; [| simpl; auto].
  rewrite (space_not_word _ E). intros H. inversion H; auto.
Qed.

Lemma rstrip_decomp (s : string) :
  exists t, s = rstrip_chars is_space s ++ t /\ all_space t = true.
Proof.
  induction s as [| c s (t & Hs & Ht)]; simpl.
  - exists EmptyString. auto.
  - destruct (rstrip_chars is_space s) as [| a r] eqn:E.
    + simpl in Hs. subst t. destruct (is_space c) eqn:Hc.
      * exists (String c s). simpl. rewrite Hc. auto.
      * exists s. auto.
    + exists t. simpl. split; auto. now rewrite Hs at 1.
Qed.

Lemma Forall_segs_rstrip (P : string -> Prop) (s : string) :
  Forall P (segs s) -> Forall P (segs (rstrip_chars is_space s)).
Proof.
  destruct (rstrip_decomp s) as (t & Hs & Ht).
  rewrite Hs at 1. rewrite segs_app.
  - intros H. apply Forall_app in H. tauto.
  - destruct t as [| c t]; simpl in *; auto.
    apply andb_true_iff in Ht. destruct Ht as [Hc _].
    now apply space_not_word.
Qed.

Lemma Forall_segs_strip (P : string -> Prop) (s : string) :
  Forall P (segs s) -> Forall P (segs (strip s)).
Proof.
  intros H. unfold strip, strip_chars.
  now apply Forall_segs_rstrip, Forall_segs_lstrip.
Qed.

Lemma rstrip_idem (s : string) :
  rstrip_chars is_space (rstrip_chars is_space s) = rstrip_chars is_space s.
Proof.
  induction s as [| c s IH]; simpl; auto.
  destruct (rstrip_chars is_space s) as [| a r] eqn:E.
  - destruct (is_space c) eqn:Hc; simpl; auto. now rewrite Hc.
  - cbn [rstrip_chars]. cbn [rstrip_chars] in IH. rewrite IH. reflexivity.
Qed.

Lemma head_ok_lstrip (s : string) : head_ok (lstrip_chars is_space s).
Proof.
  induction s as [| c s IH]; simpl; auto.
  destruct (is_space c) eqn:E; simpl; auto.
Qed.

Lemma lstrip_rstrip (s : string) :
  head_ok s ->
  lstrip_chars is_space (rstrip_chars is_space s) = rstrip_chars is_space s.
Proof.
  destruct s as [| c s]; simpl; auto. intros Hc.
  destruct (rstrip_chars is_space s); rewrite ?Hc; simpl; now rewrite ?Hc.
Qed.

Lemma strip_idem (s : string) : strip (strip s) = strip s.
Proof.
  unfold strip, strip_chars.
  rewrite lstrip_rstrip by apply head_ok_lstrip. apply rstrip_idem.
Qed.

End SpaceFacts.

(** ** The stop-word stripping *)

Module StopWordFacts.
Import PyStr Re Parser Tokens TokenFacts WordRemovalFacts SpaceFacts.
Local Open Scope string_scope.

Lemma free_remove_same (w s : string) :
  wordlike w = true -> free w (remove_word w s).
Proof.
  intros Hw. unfold free, remove_word. apply Forall_segs_strip.
  rewrite segs_re_sub_word by assumption.
  apply Forall_forall. intros g Hg. apply filter_In in Hg.
  destruct Hg as [_ Hg]. unfold keep in Hg. now apply negb_true_iff in Hg.
Qed.

Lemma free_remove_other (w w' s : string) :
  wordlike w' = true -> free w s -> free w (remove_word w' s).
Proof.
  intros Hw' H. unfold free, remove_word. apply Forall_segs_strip.
  rewrite segs_re_sub_word by assumption.
  unfold free in H. rewrite Forall_forall in H.
  apply Forall_forall. intros g Hg. apply filter_In in Hg. apply H. tauto.
Qed.

Lemma free_collapse (w s : string) :
  wordlike w = true -> free w s -> free w (collapse_spaces s).
Proof.
  intros Hw H. unfold free, collapse_spaces. apply Forall_segs_strip.
  rewrite re_sub_spaces, segs_squeeze. apply Forall_squeeze_segs; auto.
  assert (K := keep_other w " "%char Hw eq_refl).
  unfold keep in K. now apply negb_true_iff in K.
Qed.

(** A text that is stripped and has none of the word is not changed by the
    removal of the word. *)
Lemma remove_word_fixed (w s : string) :
  wordlike w = true -> free w s -> strip s = s -> remove_word w s = s.
Proof.
  intros Hw H Hs. unfold remove_word. now rewrite re_sub_word_free.
Qed.

Lemma collapse_fixed (s : string) :
  spaced false s -> strip s = s -> collapse_spaces s = s.
Proof.
  intros H Hs. unfold collapse_spaces.
  now rewrite re_sub_spaces, squeeze_spaced.
Qed.

Section Words.
Variable words : list string.
Hypothesis words_ok : Forall (fun w => wordlike w = true) words.

Let loop (ws : list string) (s : string) : string :=
  fold_left (fun acc w => remove_word w acc) ws s.

(** After the loop the text has none of the words of the loop, and none of
    the words it had none of before. *)
Lemma loop_free (ws : list string) :
  Forall (fun w => wordlike w = true) ws ->
  forall s w, free w s \/ In w ws -> free w (loop ws s).
Proof.
  induction 1 as [| a ws Ha Hws IH]; intros s w H; simpl.
  - destruct H as [H | []]. exact H.
  - apply IH. destruct H as [H | [<- | H]]; auto.
    + left. now apply free_remove_other.
    + left. now apply free_remove_same.
Qed.

Lemma loop_fixed (ws : list string) :
  Forall (fun w => wordlike w = true) ws ->
  forall s, Forall (fun w => free w s) ws -> strip s = s -> loop ws s = s.
Proof.
  induction 1 as [| a ws Ha Hws IH]; intros s H Hs; simpl; auto.
  inversion H as [| ? ? Hfa Hfws]; subst.
  rewrite remove_word_fixed; auto.
Qed.

Lemma strip_stop_words_fixed (s : string) :
  strip_stop_words words (strip_stop_words words s)
  = strip_stop_words words s.
Proof.
  set (t := strip_stop_words words s).
  assert (Hfree : Forall (fun w => free w t) words).
  { apply Forall_forall. intros w Hw. unfold t, strip_stop_words.
    apply free_collapse.
    - rewrite Forall_forall in words_ok. auto.
    - apply (loop_free words_ok). now right. }
  assert (Hstrip : strip t = t).
  { unfold t, strip_stop_words, collapse_spaces. apply strip_idem. }
  assert (Hspaced : spaced false t).
  { unfold t, strip_stop_words, collapse_spaces.
    apply spaced_strip. rewrite re_sub_spaces. apply spaced_squeeze. }
  unfold strip_stop_words at 1. fold (loop words t).
  rewrite loop_fixed; auto. now apply collapse_fixed.
Qed.
End Words.

(** The loop of pattern 4 treats the song and the artist apart. *)
Lemma cleanup_both_split (words : list string) (s a : string) :
  cleanup_both words (s, a)
  = (fold_left (fun acc w => remove_word w acc) words s,
     fold_left (fun acc w => remove_word w acc) words a).
Proof.
  unfold cleanup_both. revert s a.
  induction words as [| w ws IH]; intros s a; simpl; auto.
Qed.

(** C9.  The stop-word stripping of a captured name is idempotent, for the
    word list of the rule with an artist and for the word list of the rule
    without; the rule with an artist applies it to the song and to the
    artist. *)
Theorem strip_stop_words_idempotent (name other : string) :
  strip_stop_words cleanup_words_with_artist
                   (strip_stop_words cleanup_words_with_artist name)
  = strip_stop_words cleanup_words_with_artist name
  /\ strip_stop_words cleanup_words (strip_stop_words cleanup_words name)
     = strip_stop_words cleanup_words name
  /\ (let (song_name, artist_name) :=
        cleanup_both cleanup_words_with_artist (name, other) in
      (collapse_spaces song_name, collapse_spaces artist_name))
     = (strip_stop_words cleanup_words_with_artist name,
        strip_stop_words cleanup_words_with_artist other).
Proof.
  split; [| split].
  - apply strip_stop_words_fixed. repeat constructor.
  - apply strip_stop_words_fixed. repeat constructor.
  - rewrite cleanup_both_split. reflexivity.
Qed.

End StopWordFacts.



(** ** The orchestrator *)

Module OrchestratorClaims.
Import PyStr Re Parser DataUtils Chatbot Spec.

Lemma parses_as_top_songs_spec (count y : Z) (query : string) :
  parses_as_top_songs count y query = true ->
  enhanced_query_parser query
  = ok (mkParsed (Some "top_songs") (Some count) (Some y) None None None).
Proof.
  unfold parses_as_top_songs.
  destruct (enhanced_query_parser query)
    as [[[i |] [c |] [yr |] [d |] [s |] [a |]] | e]; try discriminate.
  intros H. apply andb_true_iff in H. destruct H as [H Hy].
  apply andb_true_iff in H. destruct H as [Hi Hc].
  apply String.eqb_eq in Hi. apply Z.eqb_eq in Hc, Hy. congruence.
Qed.

(** Every query for the top 10 songs of a year of four digits is read as
    such, with that year. *)
Lemma four_digit_years_checked :
  forallb (fun k => parses_as_top_songs 10 (Z.of_nat k)
                                        (top_10_query (Z.of_nat k)))
          (seq (10 * 100) (90 * 100)) = true.
Proof. vm_compute. reflexivity. Qed.

Lemma four_digit_year_parse (y : Z) :
  (1000 <= y <= 9999)%Z ->
  enhanced_query_parser (top_10_query y)
  = ok (mkParsed (Some "top_songs") (Some 10%Z) (Some y) None None None).
Proof.
  intros Hy. apply parses_as_top_songs_spec.
  assert (H := four_digit_years_checked). rewrite forallb_forall in H.
  specialize (H (Z.to_nat y)). rewrite Z2Nat.id in H by lia.
  apply H. apply in_seq. lia.
Qed.

Section Respond.
Variable partial_ratio : string -> string -> Z.
Variable pattern_compiles : string -> bool.
Variable search_nocase : string -> string -> bool.
Variable parse_query_with_flan : string -> string.

Let respond :=
  respond_to_query partial_ratio pattern_compiles search_nocase
                   parse_query_with_flan.

(** C7, as the code has it.  For a year of four digits outside the range of
    years of the chart, the answer to the query for the top 10 songs of
    that year is the out-of-range message for that year; the chart is not
    queried. *)
Theorem out_of_range_year_message (df : DataFrame) (y lo hi : Z) :
  (1000 <= y <= 9999)%Z ->
  year_min df = Some lo -> year_max df = Some hi ->
  (y < lo \/ hi < y)%Z ->
  respond df (top_10_query y) = year_outside_range y.
Proof.
  intros Hy Hlo Hhi Hout. unfold respond, respond_to_query.
  assert (Hq : truthy (top_10_query y) = true) by reflexivity.
  rewrite Hq. cbn [negb]. unfold extract.
  rewrite (four_digit_year_parse Hy). cbn [bind has_keys].
  unfold route, extract_enhanced, falsy_int, validate_year_range.
  cbn -[get_top_songs_by_year format_top_songs Z.leb Z.eqb year_min year_max].
  destruct (y =? 0)%Z eqn:E0; [apply Z.eqb_eq in E0; lia |].
  rewrite Hlo, Hhi.
  assert (Hv : ((lo <=? y) && (y <=? hi))%Z = false).
  { apply andb_false_iff. destruct Hout; [left | right];
      apply Z.leb_gt; lia. }
  rewrite Hv. reflexivity.
Qed.
End Respond.

Lemma out_of_range_year_witness :
  respond_to_query Samples.no_similarity Samples.always_compiles
                   Samples.literal_search Samples.flan_unknown
                   Samples.small_chart (top_10_query 2035)
  = year_outside_range 2035.
Proof.
  apply (@out_of_range_year_message
           Samples.no_similarity Samples.always_compiles
           Samples.literal_search Samples.flan_unknown
           Samples.small_chart 2035%Z 1958%Z 2021%Z).
  - lia.
  - reflexivity.
  - reflexivity.
  - lia.
Defined.

(** C7, as stated, fails: the year 20201 is outside the range of the chart,
    and the answer is the list of the top songs of 2020. *)
Lemma five_digit_year_not_rejected :
  validate_year_range Samples.small_chart 20201 = false
  /\ respond_to_query Samples.no_similarity Samples.always_compiles
                      Samples.literal_search Samples.flan_unknown
                      Samples.small_chart (top_10_query 20201)
     = top_songs_answer
         (song_list 2 2020
            [ mkGroup "Blinding Lights" "The Weeknd" 1 1 16 3;
              mkGroup "The Box" "Roddy Ricch" 1 1 14 1 ])
  /\ respond_to_query Samples.no_similarity Samples.always_compiles
                      Samples.literal_search Samples.flan_unknown
                      Samples.small_chart (top_10_query 20201)
     <> year_outside_range 20201.
Proof.
  split; [reflexivity |]. split; [vm_compute; reflexivity |].
  vm_compute. discriminate.
Qed.

(** A year of fewer than four digits is not read by the local parser; the
    answer then depends on the translator, and is the help text when the
    translator recognises no intent. *)
Example three_digit_year_goes_to_translator :
  enhanced_query_parser (top_10_query 999) = ok empty_result
  /\ respond_to_query Samples.no_similarity Samples.always_compiles
                      Samples.literal_search Samples.flan_unknown
                      Samples.small_chart (top_10_query 999)
     = help_message.
Proof. split; vm_compute; reflexivity. Qed.

End OrchestratorClaims.

(** ** Scenarios *)

Module Scenarios.
Import PyStr Re Parser DataUtils Chatbot Spec.

(** The parses of the queries that the help text and the specification give
    as examples. *)
Example parse_top_3_of_2020 :
  enhanced_query_parser "Top 3 songs of 2020"
  = ok (mkParsed (Some "top_songs") (Some 3%Z) (Some 2020%Z) None None None).
Proof. vm_compute. reflexivity. Qed.

Example parse_best_of_the_80s :
  enhanced_query_parser "Best songs from the 80s"
  = ok (mkParsed (Some "top_songs_decade") (Some 20%Z) None (Some 1980%Z)
                 None None).
Proof. vm_compute. reflexivity. Qed.

Example parse_shape_of_you :
  enhanced_query_parser "How long did Shape of You stay on the chart?"
  = ok (mkParsed (Some "song_duration") None None None (Some "shape of you")
                 None).
Proof. vm_compute. reflexivity. Qed.

Example parse_back_to_back_by_drake :
  enhanced_query_parser "How long did Back to Back by Drake stay on the chart?"
  = ok (mkParsed (Some "song_duration_with_artist") None None None
                 (Some "back to back") (Some "drake")).
Proof. vm_compute. reflexivity. Qed.

(** A match whose song is nothing but stop words is discarded. *)
Example parse_the_billboard :
  enhanced_query_parser "the billboard" = ok empty_result.
Proof. vm_compute. reflexivity. Qed.

(** A top-songs pattern is tried before the decade patterns and is also
    found in front of a decade of four digits. *)
Example parse_top_songs_from_2000s :
  enhanced_query_parser "top songs from 2000s"
  = ok (mkParsed (Some "top_songs") (Some 10%Z) (Some 2000%Z) None None None).
Proof. vm_compute. reflexivity. Qed.

Example strip_stop_words_example :
  strip_stop_words cleanup_words_with_artist "the   Long  and  Winding Road"
  = "and Winding Road".
Proof. vm_compute. reflexivity. Qed.

(** The fuzzy tier looks a title up by its first row: with one title by two
    artists, both candidates are the row of the first artist. *)
Example fuzzy_tier_repeats_first_row :
  get_song_matches_with_duration
    (fun _ _ => 90%Z) Samples.always_compiles Samples.literal_search
    [ mkEntry "1999-01-02" 4 "Hallo" "Anna" 0 4 1 1999;
      mkEntry "2005-06-11" 9 "Hallo" "Bert" 0 9 2 2005 ]
    (PyStr "hello") None 5 60
  = [ mkMatch "Hallo" "Anna" 1 4 4 1999 90 fuzzy;
      mkMatch "Hallo" "Anna" 1 4 4 1999 90 fuzzy ].
Proof. vm_compute. reflexivity. Qed.

(** A negative bound is read the way a slice reads it: all but the last. *)
Example negative_bound :
  List.length
    (get_song_matches_with_duration
       Samples.no_similarity Samples.always_compiles Samples.literal_search
       Samples.hello_chart (PyStr "hello") None (-1) 60)
  = 1.
Proof. vm_compute. reflexivity. Qed.

End Scenarios.

(** ** What an aggregate says about its rows *)

Module GroupFacts.
Import PyStr PyList DataUtils PyListFacts Spec Terms AggregationFacts.

Lemma filter_none (A : Type) (f : A -> bool) (l : list A) :
  (forall x, In x l -> f x = false) -> filter f l = [].
Proof.
  induction l as [| x l IH]; simpl; intros H; auto.
  rewrite (H x) by auto. apply IH. auto.
Qed.

Section GroupBy.
Variable first_col : ChartEntry -> Z.

(** The row either meets its group, which absorbs it, or starts a new
    group at the end. *)
Lemma add_row_cases (e : ChartEntry) (gs : list Group) :
  (exists l1 g l2,
      gs = l1 ++ g :: l2 /\ same_key e g = true
      /\ add_row first_col e gs = l1 ++ merge_row g e :: l2)
  \/ ((forall h, In h gs -> same_key e h = false)
      /\ add_row first_col e gs = gs ++ [new_group first_col e]).
Proof.
  induction gs as [| g gs IH]; simpl.
  - right. split; [intros h [] | reflexivity].
  - destruct (same_key e g) eqn:E.
    + left. exists [], g, gs. auto.
    + destruct IH as [[l1 [g0 [l2 [-> [Hk Hadd]]]]] | [Hno Hadd]].
      * left. exists (g :: l1), g0, l2. simpl.
        rewrite Hadd. auto.
      * right. rewrite Hadd. split; auto.
        intros h [<- | Hh]; auto.
Qed.

(** The aggregate of the rows [e :: es] of one key. *)
Let agg (e : ChartEntry) (es : list ChartEntry) : Group :=
  fold_left merge_row es (new_group first_col e).

Let has (g : Group) (e : ChartEntry) : bool := same_key e g.

(** [g] is the aggregate of the rows of [rows] that have its key. *)
Let folds (rows : list ChartEntry) (g : Group) : Prop :=
  exists e es, filter (has g) rows = e :: es /\ g = agg e es.

Lemma fold_merge_key (es : list ChartEntry) (g : Group) :
  key (fold_left merge_row es g) = key g.
Proof.
  revert g; induction es as [| e es IH]; intros g; simpl; auto.
  now rewrite IH.
Qed.

Lemma has_key_eq (g h : Group) (e : ChartEntry) :
  key g = key h -> has g e = has h e.
Proof.
  unfold has, same_key, key. intros H. inversion H. congruence.
Qed.

Lemma filter_has_eq (g h : Group) (rows : list ChartEntry) :
  key g = key h -> filter (has g) rows = filter (has h) rows.
Proof.
  intros H. apply filter_ext. intros e. now apply has_key_eq.
Qed.

Lemma folds_snoc_other (done : list ChartEntry) (e : ChartEntry)
      (g : Group) :
  same_key e g = false -> folds done g -> folds (done ++ [e]) g.
Proof.
  intros Hk [e0 [es [Hf Hg]]]. exists e0, es. split; auto.
  rewrite filter_app. simpl. unfold has at 2. rewrite Hk.
  now rewrite app_nil_r.
Qed.

Lemma folds_snoc_same (done : list ChartEntry) (e : ChartEntry)
      (g : Group) :
  same_key e g = true -> folds done g -> folds (done ++ [e]) (merge_row g e).
Proof.
  intros Hk [e0 [es [Hf Hg]]]. exists e0, (es ++ [e]). split.
  - rewrite (@filter_has_eq (merge_row g e) g) by reflexivity.
    rewrite filter_app. simpl. unfold has at 2. rewrite Hk.
    now rewrite Hf.
  - unfold agg. rewrite fold_left_app. simpl. unfold agg in Hg.
    now rewrite <- Hg.
Qed.

(** The invariant of the grouping loop: each group is the aggregate of
    the rows met so far that have its key, each row met so far has its
    group, and no two groups have the same key. *)
Let inv (done : list ChartEntry) (gs : list Group) : Prop :=
  (forall g, In g gs -> folds done g)
  /\ (forall e, In e done -> exists g, In g gs /\ same_key e g = true)
  /\ NoDup (map key gs).

Lemma same_key_merge (e e' : ChartEntry) (g : Group) :
  same_key e' (merge_row g e) = same_key e' g.
Proof. reflexivity. Qed.

Lemma add_row_inv (done : list ChartEntry) (e : ChartEntry)
      (gs : list Group) :
  inv done gs -> inv (done ++ [e]) (add_row first_col e gs).
Proof.
  intros [Hfold [Hall Hnd]].
  assert (Hnd' : NoDup (map key (add_row first_col e gs))) by now apply add_row_NoDup.
  destruct (add_row_cases e gs)
    as [[l1 [g [l2 [-> [Hk Hadd]]]]] | [Hno Hadd]]; rewrite Hadd in *.
  - split; [| split]; auto.
    + intros g' Hg'. apply in_app_or in Hg'.
      assert (Hother : In g' (l1 ++ l2) -> folds (done ++ [e]) g').
      { intros Hin. apply folds_snoc_other.
        - destruct (same_key e g') eqn:E; auto.
          rewrite map_app in Hnd. simpl in Hnd.
          apply NoDup_remove_2 in Hnd. exfalso. apply Hnd.
          rewrite <- map_app. apply in_map_iff. exists g'. split; auto.
          apply same_key_iff in E, Hk. congruence.
        - apply Hfold. apply in_app_or in Hin. apply in_or_app.
          simpl. tauto. }
      destruct Hg' as [Hg' | [<- | Hg']].
      * apply Hother, in_or_app. auto.
      * apply folds_snoc_same; auto. apply Hfold, in_or_app. simpl. auto.
      * apply Hother, in_or_app. auto.
    + intros e' He'. apply in_app_or in He'.
      destruct He' as [He' | [<- | []]].
      * destruct (Hall e' He') as [g' [Hg' Hk']].
        apply in_app_or in Hg'. destruct Hg' as [Hg' | [<- | Hg']].
        -- exists g'. split; auto. apply in_or_app. auto.
        -- exists (merge_row g e). split; auto. apply in_or_app.
           simpl. auto.
        -- exists g'. split; auto. apply in_or_app. simpl. auto.
      * exists (merge_row g e). split; auto. apply in_or_app. simpl. auto.
  - split; [| split]; auto.
    + intros g' Hg'. apply in_app_or in Hg'.
      destruct Hg' as [Hg' | [<- | []]].
      * apply folds_snoc_other; auto.
      * exists e, []. split; [| reflexivity].
        rewrite filter_app. simpl.
        replace (has (new_group first_col e) e) with true.
        2:{ symmetry. apply same_key_iff. reflexivity. }
        replace (filter (has (new_group first_col e)) done) with
          (@nil ChartEntry); auto.
        symmetry. apply filter_none. intros e' He'.
        destruct (has (new_group first_col e) e') eqn:E; auto.
        destruct (Hall e' He') as [g' [Hg' Hk']].
        rewrite <- (Hno g' Hg'). symmetry.
        apply same_key_iff. apply same_key_iff in E, Hk'.
        rewrite <- Hk'. now rewrite E.
    + intros e' He'. apply in_app_or in He'.
      destruct He' as [He' | [<- | []]].
      * destruct (Hall e' He') as [g' [Hg' Hk']].
        exists g'. split; auto. apply in_or_app. auto.
      * exists (new_group first_col e). split.
        -- apply in_or_app. simpl. auto.
        -- apply same_key_iff. reflexivity.
Qed.

Lemma collect_groups_inv (rows : list ChartEntry) :
  inv rows (collect_groups first_col rows).
Proof.
  unfold collect_groups.
  assert (H : forall done gs,
             inv done gs ->
             inv (done ++ rows)
                 (fold_left (fun gs e => add_row first_col e gs) rows gs)).
  { induction rows as [| e rows IH]; intros done gs Hinv; simpl.
    - now rewrite app_nil_r.
    - replace (done ++ e :: rows) with ((done ++ [e]) ++ rows)
        by (rewrite <- app_assoc; reflexivity).
      apply IH. now apply add_row_inv. }
  apply (H [] []). split; [| split]; try (intros ? []). constructor.
Qed.

(** The extrema that an aggregate accumulates. *)
Lemma fold_merge_bounds (es : list ChartEntry) (g0 : Group) :
  let g := fold_left merge_row es g0 in
  g_first g = g_first g0
  /\ ((g_rank g <= g_rank g0)%Z
      /\ (forall x, In x es -> (g_rank g <= rank x)%Z)
      /\ (g_rank g = g_rank g0 \/ exists x, In x es /\ rank x = g_rank g))
  /\ ((g_peak_rank g <= g_peak_rank g0)%Z
      /\ (forall x, In x es -> (g_peak_rank g <= peak_rank x)%Z)
      /\ (g_peak_rank g = g_peak_rank g0
          \/ exists x, In x es /\ peak_rank x = g_peak_rank g))
  /\ ((g_weeks_on_board g0 <= g_weeks_on_board g)%Z
      /\ (forall x, In x es -> (weeks_on_board x <= g_weeks_on_board g)%Z)
      /\ (g_weeks_on_board g = g_weeks_on_board g0
          \/ exists x, In x es /\ weeks_on_board x = g_weeks_on_board g)).
Proof.
  revert g0. induction es as [| e es IH]; intros g0; cbv zeta; simpl.
  - repeat split; auto; try lia; intros x [].
  - destruct (IH (merge_row g0 e))
      as [Hf [[Hr1 [Hr2 Hr3]] [[Hp1 [Hp2 Hp3]] [Hw1 [Hw2 Hw3]]]]].
    simpl in *.
    split; [exact Hf |].
    split; [| split].
    + split; [lia | split].
      * intros x [<- | Hx]; [lia | auto].
      * destruct Hr3 as [Hr3 | [x [Hx Hr3]]]; [| right; eauto].
        destruct (Z.min_spec (g_rank g0) (rank e)) as [[_ E] | [_ E]];
          rewrite E in Hr3; [now left | right; eauto].
    + split; [lia | split].
      * intros x [<- | Hx]; [lia | auto].
      * destruct Hp3 as [Hp3 | [x [Hx Hp3]]]; [| right; eauto].
        destruct (Z.min_spec (g_peak_rank g0) (peak_rank e))
          as [[_ E] | [_ E]];
          rewrite E in Hp3; [now left | right; eauto].
    + split; [lia | split].
      * intros x [<- | Hx]; [lia | auto].
      * destruct Hw3 as [Hw3 | [x [Hx Hw3]]]; [| right; eauto].
        destruct (Z.max_spec (g_weeks_on_board g0) (weeks_on_board e))
          as [[_ E] | [_ E]];
          rewrite E in Hw3; [right; eauto | now left].
Qed.

Lemma folds_summarises (rows : list ChartEntry) (g : Group) :
  folds rows g -> summarises first_col rows g.
Proof.
  intros [e0 [es [Hf Hg]]].
  assert (Hin : forall x, In x (e0 :: es) ->
                          In x rows /\ ekey x = key g).
  { intros x Hx. rewrite <- Hf in Hx. apply filter_In in Hx.
    destruct Hx as [Hx Hk]. split; auto. now apply same_key_iff. }
  assert (Hout : forall x, In x rows -> ekey x = key g -> In x (e0 :: es)).
  { intros x Hx Hk. rewrite <- Hf. apply filter_In. split; auto.
    now apply same_key_iff. }
  destruct (fold_merge_bounds es (new_group first_col e0))
    as [Hfi [[Hr1 [Hr2 Hr3]] [[Hp1 [Hp2 Hp3]] [Hw1 [Hw2 Hw3]]]]].
  fold (agg e0 es) in *. rewrite <- Hg in *. simpl in *.
  unfold summarises. split; [| split; [| split; [| split]]].
  - intros x Hx Hk. destruct (Hout x Hx Hk) as [<- | Hes].
    + lia.
    + repeat split; auto.
  - destruct Hr3 as [E | [x [Hx E]]].
    + exists e0. destruct (Hin e0) as [H1 H2]; simpl; auto.
    + exists x. destruct (Hin x) as [H1 H2]; simpl; auto.
  - destruct Hp3 as [E | [x [Hx E]]].
    + exists e0. destruct (Hin e0) as [H1 H2]; simpl; auto.
    + exists x. destruct (Hin x) as [H1 H2]; simpl; auto.
  - destruct Hw3 as [E | [x [Hx E]]].
    + exists e0. destruct (Hin e0) as [H1 H2]; simpl; auto.
    + exists x. destruct (Hin x) as [H1 H2]; simpl; auto.
  - exists e0. split; auto.
    assert (Hfind : forall l, find (has g) l = hd_error (filter (has g) l)).
    { induction l as [| x l IH]; simpl; auto.
      destruct (has g x); simpl; auto. }
    change (find (has g) rows = Some e0). rewrite Hfind, Hf. reflexivity.
Qed.

(** Each row of the grouped frame summarises the rows of its key. *)
Lemma groupby_summarises (rows : list ChartEntry) (g : Group) :
  In g (groupby_song_artist first_col rows) -> summarises first_col rows g.
Proof.
  intros Hg. unfold groupby_song_artist in Hg.
  apply (Permutation_in _ (stable_sort_perm key_leb _)) in Hg.
  apply folds_summarises. now apply collect_groups_inv.
Qed.

(** Each key of the frame has its row in the grouped frame. *)
Lemma groupby_complete (rows : list ChartEntry) (e : ChartEntry) :
  In e rows ->
  exists g, In g (groupby_song_artist first_col rows) /\ key g = ekey e.
Proof.
  intros He. destruct (collect_groups_inv rows) as [_ [Hall _]].
  destruct (Hall e He) as [g [Hg Hk]]. exists g. split.
  - unfold groupby_song_artist.
    apply (Permutation_in _ (Permutation_sym (stable_sort_perm key_leb _))).
    exact Hg.
  - symmetry. now apply same_key_iff.
Qed.
End GroupBy.

End GroupFacts.

(** ** The ranked queries of the store *)

Module RankingFacts.
Import PyStr PyList DataUtils Chatbot Queries.
Import PyListFacts Spec Terms AggregationFacts GroupFacts.

Lemma StronglySorted_app_le (A : Type) (R : A -> A -> Prop)
      (l1 l2 : list A) :
  StronglySorted R (l1 ++ l2) ->
  forall a b, In a l1 -> In b l2 -> R a b.
Proof.
  induction l1 as [| x l1 IH]; simpl; intros H a b Ha Hb; [tauto |].
  inversion H as [| ? ? Hs Hx]; subst.
  destruct Ha as [<- | Ha].
  - rewrite Forall_forall in Hx. apply Hx, in_or_app. auto.
  - eapply IH; eauto.
Qed.

Lemma In_firstn_inv (A : Type) (j : nat) (l : list A) (x : A) :
  In x (firstn j l) -> In x l.
Proof.
  intros H. rewrite <- (firstn_skipn j l). apply in_or_app. auto.
Qed.

Section Ranked.
Variable first_col : ChartEntry -> Z.
Variable rows : list ChartEntry.

Let ranked : list Group :=
  sort_values_rank (groupby_song_artist first_col rows).

Lemma ranked_in (g : Group) :
  In g ranked <-> In g (groupby_song_artist first_col rows).
Proof.
  unfold ranked, sort_values_rank. split; intros H.
  - eapply Permutation_in; [apply stable_sort_perm | exact H].
  - eapply Permutation_in; [symmetry; apply stable_sort_perm | exact H].
Qed.

(** Every row of a cut of the ranked frame summarises the rows of its
    key. *)
Lemma slice_summarises (k : Z) (g : Group) :
  In g (slice_to k ranked) -> summarises first_col rows g.
Proof.
  intros Hg. destruct (slice_to_firstn k ranked) as [j [E _]].
  rewrite E in Hg. apply In_firstn_inv, ranked_in in Hg.
  now apply groupby_summarises.
Qed.

(** The first [n] rows of the ranked frame are at most [n], sorted by
    rank and of distinct keys. *)
Lemma slice_bounded_sorted_distinct (n : nat) :
  let top := slice_to (Z.of_nat n) ranked in
  List.length top <= n
  /\ StronglySorted rank_le top
  /\ NoDup (map key top).
Proof.
  cbv zeta. destruct (slice_to_firstn (Z.of_nat n) ranked) as [j [-> Hj]].
  rewrite (Hj (Nat2Z.is_nonneg n)), Nat2Z.id.
  split; [| split].
  - rewrite length_firstn. lia.
  - apply StronglySorted_firstn, sort_values_rank_sorted.
  - rewrite map_firstn. apply NoDup_firstn, sort_values_rank_NoDup,
      groupby_NoDup.
Qed.

(** Any cut of the ranked frame is sorted by rank and of distinct
    keys. *)
Lemma slice_sorted_distinct (k : Z) :
  StronglySorted rank_le (slice_to k ranked)
  /\ NoDup (map key (slice_to k ranked)).
Proof.
  destruct (slice_to_firstn k ranked) as [j [-> _]]. split.
  - apply StronglySorted_firstn, sort_values_rank_sorted.
  - rewrite map_firstn. apply NoDup_firstn, sort_values_rank_NoDup,
      groupby_NoDup.
Qed.

(** A key is left out of the first [n] rows only when there are [n] rows
    and none of them has a worse rank than any row of that key. *)
Lemma slice_keeps_the_best (n : nat) (e : ChartEntry) :
  In e rows ->
  let top := slice_to (Z.of_nat n) ranked in
  In (ekey e) (map key top)
  \/ (List.length top = n
      /\ forall g, In g top -> (g_rank g <= rank e)%Z).
Proof.
  intros He. cbv zeta.
  destruct (slice_to_firstn (Z.of_nat n) ranked) as [j [-> Hj]].
  rewrite (Hj (Nat2Z.is_nonneg n)), Nat2Z.id.
  destruct (groupby_complete first_col rows e He) as [g' [Hg' Hk]].
  assert (Hr : (g_rank g' <= rank e)%Z).
  { destruct (groupby_summarises _ _ _ Hg') as [Hle _].
    destruct (Hle e He); auto. }
  apply ranked_in in Hg'.
  rewrite <- (firstn_skipn n ranked) in Hg'. apply in_app_or in Hg'.
  destruct Hg' as [Hg' | Hg'].
  - left. rewrite <- Hk. now apply in_map.
  - right. split.
    + rewrite length_firstn. apply Nat.min_l.
      destruct (Nat.le_gt_cases n (List.length ranked)) as [Hn | Hn]; auto.
      rewrite skipn_all2 in Hg' by lia. destruct Hg'.
    + intros g Hg.
      assert (Hs : StronglySorted rank_le (firstn n ranked ++ skipn n ranked)).
      { rewrite firstn_skipn. apply sort_values_rank_sorted. }
      assert (H := @StronglySorted_app_le _ _ _ _ Hs g g' Hg Hg').
      unfold rank_le in H. lia.
Qed.
End Ranked.

Lemma top_rows_summarise (df : DataFrame) (y n : Z) (g : Group) :
  In g (get_top_songs_by_year df y n) ->
  summarises last_week (filter (fun e => (year e =? y)%Z) df) g.
Proof.
  unfold get_top_songs_by_year.
  destruct (filter (fun e => (year e =? y)%Z) df) as [| e rows] eqn:E;
    [intros [] |].
  apply slice_summarises.
Qed.

(** X1.  Each row that [get_top_songs_by_year] returns for the year [y]
    summarises the chart entries of that year with its song and artist:
    its rank is the best rank among them, its peak rank the best peak
    rank, its weeks the greatest number of weeks, each reached by one of
    the entries, and its last-week value is that of the first entry. *)
Theorem top_songs_summarise_the_year (df : DataFrame) (y n : Z) (g : Group) :
  In g (get_top_songs_by_year df y n) ->
  summarises last_week (filter (fun e => (year e =? y)%Z) df) g.
Proof.
  unfold get_top_songs_by_year.
  destruct (filter (fun e => (year e =? y)%Z) df) as [| e rows] eqn:E.
  - intros [].
  - intros Hg. apply groupby_summarises.
    destruct (slice_to_firstn n
                (sort_values_rank
                   (groupby_song_artist last_week (e :: rows))))
      as [j [Hj _]].
    rewrite Hj in Hg. apply In_firstn_inv in Hg.
    unfold sort_values_rank in Hg.
    eapply Permutation_in; [apply stable_sort_perm | exact Hg].
Qed.

Lemma top_songs_summarise_the_year_witness :
  summarises last_week
    (filter (fun e => (year e =? 2020)%Z) Samples.small_chart)
    (mkGroup "Blinding Lights" "The Weeknd" 1 1 16 3).
Proof.
  apply (@top_songs_summarise_the_year Samples.small_chart 2020 10).
  vm_compute. auto.
Defined.

(** X2.  [get_top_songs_by_year] keeps the best: a song and artist with a
    chart entry in the year [y] is left out of the answer only when the
    answer has [n] rows, none of which has a worse rank than that
    entry. *)
Theorem top_songs_keep_the_best (df : DataFrame) (y : Z) (n : nat)
        (e : ChartEntry) :
  In e df -> year e = y ->
  let top := get_top_songs_by_year df y (Z.of_nat n) in
  In (ekey e) (map key top)
  \/ (List.length top = n
      /\ forall g, In g top -> (g_rank g <= rank e)%Z).
Proof.
  intros He Hy. unfold get_top_songs_by_year.
  assert (Hin : In e (filter (fun e => (year e =? y)%Z) df)).
  { apply filter_In. split; auto. now apply Z.eqb_eq. }
  destruct (filter (fun e => (year e =? y)%Z) df) as [| e0 rows] eqn:E;
    [destruct Hin |].
  now apply slice_keeps_the_best.
Qed.

Lemma top_songs_keep_the_best_witness :
  let e := mkEntry "2020-03-21" 2 "Blinding Lights" "The Weeknd" 3 1 15 2020 in
  let top := get_top_songs_by_year Samples.small_chart 2020 (Z.of_nat 1) in
  In (ekey e) (map key top)
  \/ (List.length top = 1
      /\ forall g, In g top -> (g_rank g <= rank e)%Z).
Proof.
  apply (@top_songs_keep_the_best Samples.small_chart 2020 1).
  - simpl. auto.
  - reflexivity.
Defined.

(** The rows of the decade that starts in [d]. *)
Lemma decade_filter (d : Z) (e : ChartEntry) :
  ((year e >=? d)%Z && (year e <=? d + 9)%Z = true)
  <-> (d <= year e <= d + 9)%Z.
Proof. rewrite andb_true_iff. lia. Qed.

(** X3.  [get_decade_songs] returns at most [n] rows, sorted by best
    rank, of pairwise distinct song and artist, and the year shown with
    each row lies in the decade. *)
Theorem decade_songs_bounded_sorted_distinct (df : DataFrame) (d : Z)
        (n : nat) :
  let top := get_decade_songs df d (Z.of_nat n) in
  List.length top <= n
  /\ StronglySorted rank_le top
  /\ NoDup (map key top)
  /\ Forall (fun g => (d <= g_first g <= d + 9)%Z) top.
Proof.
  unfold get_decade_songs. cbv zeta.
  destruct (filter _ df) as [| e rows] eqn:E.
  - simpl. repeat split; [lia | constructor | constructor | constructor].
  - destruct (slice_bounded_sorted_distinct year (e :: rows) n)
      as [H1 [H2 H3]].
    repeat split; auto.
    apply Forall_forall. intros g Hg.
    apply slice_summarises in Hg.
    destruct Hg as [_ [_ [_ [_ [e' [Hfind Hfirst]]]]]].
    apply find_some in Hfind. destruct Hfind as [Hin _].
    rewrite <- E in Hin. apply filter_In in Hin. destruct Hin as [_ Hin].
    apply decade_filter in Hin. lia.
Qed.

(** X4.  Each row that [get_decade_songs] returns summarises the chart
    entries of the decade with its song and artist, the year being that of
    the first of them; and a song and artist with an entry in the decade
    is left out only when the answer has [n] rows, none of which has a
    worse rank than that entry. *)
Theorem decade_songs_summarise_and_keep_the_best (df : DataFrame) (d : Z)
        (n : nat) :
  let decade_data := filter (fun e => (year e >=? d)%Z && (year e <=? d + 9)%Z)
                            df in
  let top := get_decade_songs df d (Z.of_nat n) in
  Forall (summarises year decade_data) top
  /\ forall e, In e df -> (d <= year e <= d + 9)%Z ->
               In (ekey e) (map key top)
               \/ (List.length top = n
                   /\ forall g, In g top -> (g_rank g <= rank e)%Z).
Proof.
  unfold get_decade_songs. cbv zeta. split.
  - destruct (filter _ df) as [| e rows] eqn:E; [constructor |].
    apply Forall_forall. intros g. apply slice_summarises.
  - intros e He Hy.
    assert (Hin : In e (filter (fun e => (year e >=? d)%Z
                                         && (year e <=? d + 9)%Z) df)).
    { apply filter_In. split; auto. now apply decade_filter. }
    destruct (filter _ df) as [| e0 rows] eqn:E; [destruct Hin |].
    now apply slice_keeps_the_best.
Qed.

Section Finders.
Variable pattern_compiles : string -> bool.
Variable search_nocase : string -> string -> bool.

(** The common part of the two searches: [col] is the column that is
    searched. *)
Lemma search_rows_facts (col : ChartEntry -> string) (gcol : Group -> string)
      (df : DataFrame) (pat : string) (limit : nat) :
  (forall e g, ekey e = key g -> col e = gcol g) ->
  let rows := filter (fun e => search_nocase pat (col e)) df in
  let r := match rows with
           | [] => []
           | _ => slice_to (Z.of_nat limit)
                    (sort_values_rank (groupby_song_artist year rows))
           end in
  (List.length r <= limit
   /\ StronglySorted rank_le r
   /\ NoDup (map key r))
  /\ Forall (fun g => search_nocase pat (gcol g) = true
                      /\ summarises year rows g) r
  /\ forall e, In e df -> search_nocase pat (col e) = true ->
               In (ekey e) (map key r)
               \/ (List.length r = limit
                   /\ forall g, In g r -> (g_rank g <= rank e)%Z).
Proof.
  intros Hcol. cbv zeta.
  destruct (filter _ df) as [| e0 rows] eqn:E.
  - split; [simpl; split; [lia | split; constructor] | split; [constructor |]].
    intros e He Hs.
    assert (Hin : In e (filter (fun e => search_nocase pat (col e)) df))
      by (apply filter_In; auto).
    rewrite E in Hin. destruct Hin.
  - split; [apply slice_bounded_sorted_distinct | split].
    + apply Forall_forall. intros g Hg. apply slice_summarises in Hg.
      split; auto.
      destruct Hg as [_ [[e [Hin [Hk _]]] _]].
      rewrite <- E in Hin. apply filter_In in Hin.
      rewrite <- (Hcol e g Hk). tauto.
    + intros e He Hs. apply slice_keeps_the_best.
      rewrite <- E. apply filter_In. auto.
Qed.

(** X5.  [search_songs_by_artist] returns at most [limit] rows, sorted by
    best rank and of distinct song and artist; the artist of each row
    matches the search and the row summarises the matching chart entries
    of its song and artist; a matching entry is left out only when there
    are [limit] rows, none of a worse rank; and a pattern that does not
    compile gives the empty list. *)
Theorem search_songs_by_artist_sound_and_best (df : DataFrame)
        (artist_name : string) (limit : nat) :
  let r := search_songs_by_artist pattern_compiles search_nocase df
             artist_name (Z.of_nat limit) in
  let rows := filter (fun e => search_nocase artist_name (artist e)) df in
  (List.length r <= limit
   /\ StronglySorted rank_le r
   /\ NoDup (map key r))
  /\ Forall (fun g => search_nocase artist_name (g_artist g) = true
                      /\ summarises year rows g) r
  /\ (pattern_compiles artist_name = false -> r = [])
  /\ (pattern_compiles artist_name = true ->
      forall e, In e df -> search_nocase artist_name (artist e) = true ->
                In (ekey e) (map key r)
                \/ (List.length r = limit
                    /\ forall g, In g r -> (g_rank g <= rank e)%Z)).
Proof.
  cbv zeta. unfold search_songs_by_artist.
  destruct (pattern_compiles artist_name).
  - destruct (@search_rows_facts artist g_artist df artist_name limit)
      as [H1 [H2 H3]].
    { intros e g H. now inversion H. }
    repeat split; try apply H1; auto. discriminate.
  - simpl. repeat split; try constructor; try lia; discriminate.
Qed.

(** X6.  [find_songs_by_pattern] returns at most [limit] rows, sorted by
    best rank and of distinct song and artist; the title of each row
    matches the pattern and the row summarises the matching chart entries
    of its song and artist; a matching entry is left out only when there
    are [limit] rows, none of a worse rank; and a pattern that does not
    compile gives the empty list. *)
Theorem find_songs_by_pattern_sound_and_best (df : DataFrame)
        (pattern : string) (limit : nat) :
  let r := find_songs_by_pattern pattern_compiles search_nocase df
             pattern (Z.of_nat limit) in
  let rows := filter (fun e => search_nocase pattern (song e)) df in
  (List.length r <= limit
   /\ StronglySorted rank_le r
   /\ NoDup (map key r))
  /\ Forall (fun g => search_nocase pattern (g_song g) = true
                      /\ summarises year rows g) r
  /\ (pattern_compiles pattern = false -> r = [])
  /\ (pattern_compiles pattern = true ->
      forall e, In e df -> search_nocase pattern (song e) = true ->
                In (ekey e) (map key r)
                \/ (List.length r = limit
                    /\ forall g, In g r -> (g_rank g <= rank e)%Z)).
Proof.
  cbv zeta. unfold find_songs_by_pattern.
  destruct (pattern_compiles pattern).
  - destruct (@search_rows_facts song g_song df pattern limit)
      as [H1 [H2 H3]].
    { intros e g H. now inversion H. }
    repeat split; try apply H1; auto. discriminate.
  - simpl. repeat split; try constructor; try lia; discriminate.
Qed.
End Finders.

End RankingFacts.

(** ** The range of years and the statistics of the store *)

Module StoreFacts.
Import PyStr PyList DataUtils Queries Spec Terms.

Lemma fold_min_spec (l : list ChartEntry) (m0 : Z) :
  let m := fold_left (fun m e => Z.min m (year e)) l m0 in
  (m <= m0)%Z /\ (forall e, In e l -> (m <= year e)%Z)
  /\ (m = m0 \/ exists e, In e l /\ year e = m).
Proof.
  revert m0; induction l as [| x l IH]; intros m0; cbv zeta; simpl.
  - split; [lia | split; [intros e [] | now left]].
  - destruct (IH (Z.min m0 (year x))) as [H1 [H2 H3]].
    split; [lia | split].
    + intros e [<- | He]; [lia | auto].
    + destruct H3 as [H3 | [e [He H3]]];
        [| right; exists e; split; [now right | exact H3]].
      destruct (Z.min_spec m0 (year x)) as [[_ E] | [_ E]];
        rewrite E in *;
        [now left | right; exists x; split; [now left | congruence]].
Qed.

Lemma fold_max_spec (l : list ChartEntry) (m0 : Z) :
  let m := fold_left (fun m e => Z.max m (year e)) l m0 in
  (m0 <= m)%Z /\ (forall e, In e l -> (year e <= m)%Z)
  /\ (m = m0 \/ exists e, In e l /\ year e = m).
Proof.
  revert m0; induction l as [| x l IH]; intros m0; cbv zeta; simpl.
  - split; [lia | split; [intros e [] | now left]].
  - destruct (IH (Z.max m0 (year x))) as [H1 [H2 H3]].
    split; [lia | split].
    + intros e [<- | He]; [lia | auto].
    + destruct H3 as [H3 | [e [He H3]]];
        [| right; exists e; split; [now right | exact H3]].
      destruct (Z.max_spec m0 (year x)) as [[_ E] | [_ E]];
        rewrite E in *;
        [right; exists x; split; [now left | congruence] | now left].
Qed.

(** The least year of the frame is the year of one of its rows and no row
    has an earlier one. *)
Lemma year_min_spec (df : DataFrame) (lo : Z) :
  year_min df = Some lo ->
  (forall e, In e df -> (lo <= year e)%Z)
  /\ exists e, In e df /\ year e = lo.
Proof.
  destruct df as [| e0 rest]; simpl; [discriminate |]. intros [= <-].
  destruct (fold_min_spec rest (year e0)) as [H1 [H2 H3]]. split.
  - intros e [<- | He]; auto.
  - destruct H3 as [H3 | [e [He H3]]]; [exists e0 | exists e]; auto.
Qed.

Lemma year_max_spec (df : DataFrame) (hi : Z) :
  year_max df = Some hi ->
  (forall e, In e df -> (year e <= hi)%Z)
  /\ exists e, In e df /\ year e = hi.
Proof.
  destruct df as [| e0 rest]; simpl; [discriminate |]. intros [= <-].
  destruct (fold_max_spec rest (year e0)) as [H1 [H2 H3]]. split.
  - intros e [<- | He]; auto.
  - destruct H3 as [H3 | [e [He H3]]]; [exists e0 | exists e]; auto.
Qed.

(** X7.  [validate_year_range] accepts a year exactly when the frame has a
    row of that year or an earlier one and a row of that year or a later
    one; in particular it rejects every year on an empty frame and accepts
    the year of every row. *)
Theorem validate_year_range_spec (df : DataFrame) (y : Z) :
  validate_year_range df y = true
  <-> exists e1 e2, In e1 df /\ In e2 df /\ (year e1 <= y <= year e2)%Z.
Proof.
  unfold validate_year_range.
  destruct (year_min df) as [lo |] eqn:Elo.
  - destruct (year_max df) as [hi |] eqn:Ehi.
    + destruct (year_min_spec _ Elo) as [Hlo [e1 [He1 Hy1]]].
      destruct (year_max_spec _ Ehi) as [Hhi [e2 [He2 Hy2]]].
      rewrite andb_true_iff, !Z.leb_le. split.
      * intros H. exists e1, e2. repeat split; auto; lia.
      * intros [a [b [Ha [Hb H]]]].
        assert (H1 := Hlo a Ha). assert (H2 := Hhi b Hb). lia.
    + destruct df; simpl in *; discriminate.
  - destruct df; simpl in *; [| discriminate].
    split; [discriminate | intros [e1 [_ [[] _]]]].
Qed.

Section Unique.
Variable A : Type.
Variable eqb : A -> A -> bool.
Hypothesis eqb_eq : forall a b, eqb a b = true <-> a = b.

Lemma existsb_eqb_In (x : A) (l : list A) :
  existsb (eqb x) l = true <-> In x l.
Proof.
  rewrite existsb_exists. split.
  - intros [y [Hy E]]. apply eqb_eq in E. now subst.
  - intros H. exists x. split; auto. now apply eqb_eq.
Qed.

Lemma unique_from_In (l : list A) :
  forall seen x,
    In x (unique_from eqb seen l) <-> In x l /\ ~ In x seen.
Proof.
  induction l as [| a l IH]; intros seen x; simpl; [tauto |].
  destruct (existsb (eqb a) seen) eqn:E.
  - apply existsb_eqb_In in E. rewrite IH. split.
    + tauto.
    + intros [[<- | H] Hn]; tauto.
  - assert (Ha : ~ In a seen).
    { intros H. apply existsb_eqb_In in H. congruence. }
    simpl. rewrite IH. simpl. split.
    + intros [<- | [H Hn]]; tauto.
    + intros [[<- | H] Hn]; auto.
      destruct (eqb a x) eqn:Eax.
      * apply eqb_eq in Eax. auto.
      * right. split; auto. intros [<- | Hs]; auto.
        assert (Hrefl : eqb a a = true) by now apply eqb_eq.
        congruence.
Qed.

Lemma unique_from_NoDup (l : list A) :
  forall seen, NoDup (unique_from eqb seen l).
Proof.
  induction l as [| a l IH]; intros seen; simpl; [constructor |].
  destruct (existsb (eqb a) seen); auto.
  constructor; auto. rewrite unique_from_In. simpl. tauto.
Qed.

Lemma unique_from_length (l : list A) :
  forall seen, List.length (unique_from eqb seen l) <= List.length l.
Proof.
  induction l as [| a l IH]; intros seen; simpl; auto.
  destruct (existsb (eqb a) seen); simpl.
  - specialize (IH seen). lia.
  - specialize (IH (a :: seen)). lia.
Qed.

Lemma unique_In (l : list A) (x : A) : In x (unique eqb l) <-> In x l.
Proof. unfold unique. rewrite unique_from_In. simpl. tauto. Qed.

Lemma unique_nonempty (l : list A) : l <> [] -> unique eqb l <> [].
Proof.
  destruct l as [| a l]; [congruence |]. intros _ H.
  assert (Ha : In a (unique eqb (a :: l))) by (apply unique_In; simpl; auto).
  rewrite H in Ha. destruct Ha.
Qed.
End Unique.

(** X8.  [get_all_songs] lists every title of the frame once, and
    nothing else. *)
Theorem get_all_songs_each_title_once (df : DataFrame) :
  NoDup (get_all_songs df)
  /\ forall title, In title (get_all_songs df)
                   <-> exists e, In e df /\ song e = title.
Proof.
  unfold get_all_songs. split.
  - apply (@unique_from_NoDup _ _ String.eqb_eq).
  - intros title. rewrite (@unique_In _ _ String.eqb_eq), in_map_iff.
    split; intros [e H]; exists e; tauto.
Qed.

(** Distinct integers between two bounds are no more than the bounds
    leave room for. *)
Lemma NoDup_between (l : list Z) (lo hi : Z) :
  NoDup l -> (forall z, In z l -> (lo <= z <= hi)%Z) ->
  (Z.of_nat (List.length l) <= Z.max 0 (hi - lo + 1))%Z.
Proof.
  intros Hnd Hin.
  set (room := map (fun i => (lo + Z.of_nat i)%Z)
                   (seq 0 (Z.to_nat (hi - lo + 1)))).
  assert (Hincl : incl l room).
  { intros z Hz. apply Hin in Hz. unfold room. apply in_map_iff.
    exists (Z.to_nat (z - lo)). split; [lia |]. apply in_seq. lia. }
  apply (NoDup_incl_length Hnd) in Hincl.
  unfold room in Hincl. rewrite length_map, length_seq in Hincl. lia.
Qed.

(** X9.  [get_dataset_stats] gives no statistics on an empty frame, and
    on any other frame statistics in which the bounds of the years are in
    order, there is at least one song, artist and year, no count exceeds
    the number of records, and the number of years is at most the number
    of years from the first to the last. *)
Theorem dataset_stats_consistent (df : DataFrame) :
  match get_dataset_stats df with
  | None => df = []
  | Some st =>
      df <> []
      /\ total_records st = List.length df
      /\ 1 <= unique_songs st <= total_records st
      /\ 1 <= unique_artists st <= total_records st
      /\ 1 <= total_years st <= total_records st
      /\ (fst (year_range st) <= snd (year_range st))%Z
      /\ (Z.of_nat (total_years st)
          <= snd (year_range st) - fst (year_range st) + 1)%Z
      /\ validate_year_range df (fst (year_range st)) = true
      /\ validate_year_range df (snd (year_range st)) = true
  end.
Proof.
  unfold get_dataset_stats.
  destruct (year_min df) as [lo |] eqn:Elo;
    [| destruct df; simpl in *; [reflexivity | discriminate]].
  destruct (year_max df) as [hi |] eqn:Ehi;
    [| destruct df; simpl in *; discriminate].
  destruct (year_min_spec _ Elo) as [Hlo [e1 [He1 Hy1]]].
  destruct (year_max_spec _ Ehi) as [Hhi [e2 [He2 Hy2]]].
  assert (Hne : df <> []) by (intros ->; destruct He1).
  assert (Hcount : forall (B : Type) (eqb : B -> B -> bool)
                          (col : ChartEntry -> B),
             (forall a b, eqb a b = true <-> a = b) ->
             1 <= nunique eqb (map col df) <= List.length df).
  { intros B eqb col Heqb. unfold nunique, unique. split.
    - assert (H : unique eqb (map col df) <> []).
      { apply (@unique_nonempty _ _ Heqb). destruct df; simpl; congruence. }
      unfold unique in H.
      destruct (unique_from eqb [] (map col df)); simpl; [congruence | lia].
    - rewrite <- (length_map col df). apply unique_from_length. }
  assert (Hlohi : (lo <= hi)%Z).
  { assert (H := Hlo e2 He2). lia. }
  simpl. repeat split; auto;
    try apply (Hcount _ String.eqb _ String.eqb_eq);
    try apply (Hcount _ Z.eqb _ Z.eqb_eq).
  - assert (H : (Z.of_nat (nunique Z.eqb (map year df))
                 <= Z.max 0 (hi - lo + 1))%Z).
    { apply NoDup_between.
      - apply (@unique_from_NoDup _ _ Z.eqb_eq).
      - intros z Hz. apply (proj1 (@unique_In _ Z.eqb Z.eqb_eq _ _)) in Hz.
        apply in_map_iff in Hz. destruct Hz as [e [<- He]].
        split; auto. }
    lia.
  - unfold validate_year_range. rewrite Elo, Ehi.
    apply andb_true_iff. rewrite !Z.leb_le. lia.
  - unfold validate_year_range. rewrite Elo, Ehi.
    apply andb_true_iff. rewrite !Z.leb_le. lia.
Qed.

End StoreFacts.

(** ** The anatomy of a song search *)

Module MatchEngineFacts.
Import PyStr PyList DataUtils Queries.
Import PyListFacts Spec Terms AggregationFacts GroupFacts SongMatchFacts.
Import RankingFacts.

Lemma truthy_strip (s : string) : truthy (strip s) = true -> truthy s = true.
Proof. destruct s; simpl; auto. Qed.

Lemma group_of_make_match (score : Z) (ty : MatchType) (g : Group) :
  group_of (make_match score ty g) = g.
Proof. destruct g; reflexivity. Qed.

Lemma score_ge_sorted (l : list Match) :
  StronglySorted score_ge (stable_sort score_geb l).
Proof.
  apply Sorted_StronglySorted.
  - intros a b c; unfold score_ge; lia.
  - assert (H := @stable_sort_sorted _ score_geb).
    eapply Sorted_ind with (P := fun l => Sorted score_ge l);
      [constructor | | apply H].
    + intros a l0 _ IH Ha. constructor; auto.
      destruct Ha; constructor. unfold score_geb in *. unfold score_ge. lia.
    + intros a b. unfold score_geb. lia.
Qed.

Section Engine.
Variable partial_ratio : string -> string -> Z.
Variable pattern_compiles : string -> bool.
Variable search_nocase : string -> string -> bool.

Let body := song_matches_body partial_ratio pattern_compiles search_nocase.
Let matches_of :=
  get_song_matches_with_duration partial_ratio pattern_compiles
                                 search_nocase.

(** The aggregates that the artist filter lets through. *)
Let filtered (df : DataFrame) (artist_name : option string) : list Group :=
  match artist_name with
  | Some a =>
      if truthy a
      then filter (fun g => search_nocase (strip a) (g_artist g))
                  (groupby_song_artist year df)
      else groupby_song_artist year df
  | None => groupby_song_artist year df
  end.

Lemma filtered_sound (df : DataFrame) (artist_name : option string)
      (g : Group) :
  In g (filtered df artist_name) ->
  In g (groupby_song_artist year df)
  /\ passes_artist_filter search_nocase artist_name g.
Proof.
  unfold filtered, passes_artist_filter.
  destruct artist_name as [a |]; [| tauto].
  destruct (truthy a).
  - intros H. apply filter_In in H. tauto.
  - intros H. split; [exact H | discriminate].
Qed.

Let exact_of (us : list Group) (q : string) : list Match :=
  map (make_match 100 exact) (filter (fun g => lower_eq (g_song g) q) us).

Let contains_of (us : list Group) (q : string) : list Match :=
  map (make_match 85 contains)
      (filter (fun g => search_nocase q (g_song g)
                        && negb (lower_eq (g_song g) q)) us).

Let fuzzy_of (us : list Group) (earlier : list Match) (q : string) (t : Z)
  : list Match :=
  stable_sort score_geb
    (fuzzy_candidates partial_ratio us (map title_key earlier) q t
                      (map g_song us)).

(** The result of a search that does not fail: all the exact matches,
    then the first of the contains matches, then the first of the fuzzy
    matches in the order of their scores, cut to the bound. *)
Lemma song_matches_anatomy (df : DataFrame) (s : string)
      (artist_name : option string) (k t : Z) (r : list Match) :
  truthy (strip s) = true ->
  body df (PyStr s) artist_name k t = Some r ->
  let q := strip s in
  let us := filtered df artist_name in
  exists co fu j,
    r = firstn j (exact_of us q ++ co ++ fu)
    /\ ((0 <= k)%Z -> j = Z.to_nat k)
    /\ (exists j1, co = firstn j1 (contains_of us q))
    /\ (exists j2, fu = firstn j2 (fuzzy_of us (exact_of us q ++ co) q t))
    /\ (pattern_compiles q = true
        \/ ((k <= Z.of_nat (List.length (exact_of us q)))%Z
            /\ co = [] /\ fu = [])).
Proof.
  intros Hq. unfold body, song_matches_body.
  simpl py_truth. simpl is_str. rewrite (truthy_strip _ Hq), Hq. simpl negb.
  simpl orb. cbv iota.
  assert (Hus : forall us',
             match artist_name with
             | Some a =>
                 if truthy a
                 then if pattern_compiles (strip a)
                      then Some (filter (fun g => search_nocase (strip a)
                                                                (g_artist g))
                                        (groupby_song_artist year df))
                      else None
                 else Some (groupby_song_artist year df)
             | None => Some (groupby_song_artist year df)
             end = Some us' -> us' = filtered df artist_name).
  { intros us'. unfold filtered. destruct artist_name as [a |].
    - destruct (truthy a).
      + destruct (pattern_compiles (strip a)); [| discriminate].
        now intros [= <-].
      + now intros [= <-].
    - now intros [= <-]. }
  match goal with
  | |- match ?f with _ => _ end = _ -> _ =>
      destruct f as [us |] eqn:Ef; [| discriminate]
  end.
  rewrite (Hus us eq_refl). clear Hus Ef us.
  cbv zeta. set (q := strip s). set (us := filtered df artist_name).
  fold (exact_of us q). fold (contains_of us q).
  set (ex := exact_of us q).
  destruct (Z.of_nat (List.length ex) <? k)%Z eqn:Ek1.
  - destruct (pattern_compiles q) eqn:Ec; [| discriminate].
    destruct (append_until_prefix k (contains_of us q) ex) as [j1 Hj1].
    rewrite Hj1. set (co := firstn j1 (contains_of us q)).
    intros [= <-].
    match goal with
    | |- context [slice_to k ?l] =>
        destruct (slice_to_firstn k l) as [j [-> Hj]]
    end.
    destruct (Z.of_nat (List.length (ex ++ co)) <? k)%Z.
    + match goal with
      | |- context [append_until k (ex ++ co) ?c] =>
          destruct (append_until_prefix k c (ex ++ co)) as [j2 ->];
          exists co, (firstn j2 c), j
      end.
      rewrite <- app_assoc.
      split; [reflexivity | split; [exact Hj | split; [| split]]].
      * exists j1. reflexivity.
      * exists j2. reflexivity.
      * now left.
    + exists co, [], j. rewrite app_nil_r.
      split; [reflexivity | split; [exact Hj | split; [| split]]].
      * exists j1. reflexivity.
      * exists 0. reflexivity.
      * now left.
  - intros [= <-]. rewrite Ek1.
    match goal with
    | |- context [slice_to k ?l] =>
        destruct (slice_to_firstn k l) as [j [-> Hj]]
    end.
    exists [], [], j. rewrite !app_nil_r.
    split; [reflexivity | split; [exact Hj | split; [| split]]].
    + exists 0. reflexivity.
    + exists 0. reflexivity.
    + right. apply Z.ltb_ge in Ek1. auto.
Qed.

Lemma fuzzy_candidates_rows (us : list Group) (seen : list string)
      (q : string) (t : Z) (titles : list string) (m : Match) :
  In m (fuzzy_candidates partial_ratio us seen q t titles) ->
  match_type m = fuzzy /\ In (group_of m) us.
Proof.
  induction titles as [| title titles IH]; simpl; [tauto |].
  destruct (existsb _ _); auto.
  destruct (_ >=? t)%Z; auto.
  destruct (first_with_title us title) as [g |] eqn:Hfind; auto.
  intros [<- | H]; auto.
  apply find_some in Hfind. rewrite group_of_make_match. tauto.
Qed.

(** Every match of a search reports one of the aggregates that the artist
    filter lets through. *)
Lemma song_matches_rows (df : DataFrame) (s : string)
      (artist_name : option string) (k t : Z) (r : list Match) (m : Match) :
  truthy (strip s) = true ->
  body df (PyStr s) artist_name k t = Some r ->
  In m r -> In (group_of m) (filtered df artist_name).
Proof.
  intros Hq Hr Hm.
  destruct (@song_matches_anatomy _ _ _ _ _ _ Hq Hr)
    as [co [fu [j [-> [_ [[j1 ->] [[j2 ->] _]]]]]]].
  apply In_firstn_inv in Hm. apply in_app_or in Hm.
  destruct Hm as [Hm | Hm].
  - apply in_map_iff in Hm. destruct Hm as [g [<- Hg]].
    rewrite group_of_make_match. apply filter_In in Hg. tauto.
  - apply in_app_or in Hm. destruct Hm as [Hm | Hm];
      apply In_firstn_inv in Hm.
    + apply in_map_iff in Hm. destruct Hm as [g [<- Hg]].
      rewrite group_of_make_match. apply filter_In in Hg. tauto.
    + unfold fuzzy_of in Hm.
      apply (Permutation_in _ (stable_sort_perm score_geb _)) in Hm.
      apply fuzzy_candidates_rows in Hm. tauto.
Qed.

(** X10.  Every match that [get_song_matches_with_duration] returns
    reports an aggregate of the store: its weeks, best rank and peak rank
    are the greatest weeks and the least ranks of the chart entries with
    its song and artist, its year is that of the first of them, and its
    artist passes the artist filter of the query. *)
Theorem song_matches_report_the_store (df : DataFrame) (query_song : PyValue)
        (artist_name : option string) (max_results fuzzy_threshold : Z)
        (m : Match) :
  In m (matches_of df query_song artist_name max_results fuzzy_threshold) ->
  summarises year df (group_of m)
  /\ passes_artist_filter search_nocase artist_name (group_of m).
Proof.
  unfold matches_of, get_song_matches_with_duration.
  destruct (song_matches_body _ _ _ _ _ _ _ _) as [r |] eqn:E;
    [| intros []].
  intros Hm.
  assert (Hs : exists s, query_song = PyStr s /\ truthy (strip s) = true).
  { unfold song_matches_body in E.
    destruct (negb (py_truth query_song) || negb (is_str query_song));
      [inversion E; subst; destruct Hm |].
    destruct query_song as [| b | z | s];
      try (inversion E; subst; destruct Hm).
    exists s. split; auto. destruct (truthy (strip s)); auto.
    simpl in E. inversion E; subst. destruct Hm. }
  destruct Hs as [s [-> Hq]].
  apply (@song_matches_rows _ _ _ _ _ _ _ Hq E), filtered_sound in Hm.
  destruct Hm as [Hg Hf]. split; auto.
  now apply groupby_summarises.
Qed.

(** X11.  The fuzzy matches of a result stand at its end, after the exact
    and the contains matches, in the order of their scores, the better
    score first. *)
Theorem fuzzy_matches_last_and_by_score (df : DataFrame)
        (query_song : PyValue) (artist_name : option string)
        (max_results fuzzy_threshold : Z) :
  let r := matches_of df query_song artist_name max_results
                      fuzzy_threshold in
  exists others fuzzies,
    r = others ++ fuzzies
    /\ Forall (fun m => match_type m <> fuzzy) others
    /\ Forall (fun m => match_type m = fuzzy) fuzzies
    /\ StronglySorted score_ge fuzzies.
Proof.
  cbv zeta. unfold matches_of, get_song_matches_with_duration.
  assert (Hnil : exists others fuzzies : list Match,
             [] = others ++ fuzzies
             /\ Forall (fun m => match_type m <> fuzzy) others
             /\ Forall (fun m => match_type m = fuzzy) fuzzies
             /\ StronglySorted score_ge fuzzies).
  { exists [], []. repeat split; constructor. }
  destruct (song_matches_body _ _ _ _ _ _ _ _) as [r |] eqn:E; auto.
  assert (Hs : r = [] \/ exists s, query_song = PyStr s
                                   /\ truthy (strip s) = true).
  { unfold song_matches_body in E.
    destruct (negb (py_truth query_song) || negb (is_str query_song));
      [inversion E; auto |].
    destruct query_song as [| b | z | s]; try (inversion E; auto).
    destruct (truthy (strip s)) eqn:Hq; [right; eauto |].
    simpl in E. inversion E; auto. }
  destruct Hs as [-> | [s [-> Hq]]]; auto.
  destruct (@song_matches_anatomy _ _ _ _ _ _ Hq E)
    as [co [fu [j [-> [_ [[j1 ->] [[j2 ->] _]]]]]]].
  rewrite app_assoc, firstn_app.
  eexists; eexists; split; [reflexivity | split; [| split]].
  - apply Forall_firstn, Forall_app. split.
    + apply Forall_forall. intros m Hm. apply in_map_iff in Hm.
      destruct Hm as [g [<- _]]. discriminate.
    + apply Forall_firstn. apply Forall_forall. intros m Hm.
      apply in_map_iff in Hm. destruct Hm as [g [<- _]]. discriminate.
  - do 2 apply Forall_firstn. apply Forall_forall. intros m Hm.
    unfold fuzzy_of in Hm.
    apply (Permutation_in _ (stable_sort_perm score_geb _)) in Hm.
    apply fuzzy_candidates_rows in Hm. tauto.
  - do 2 apply StronglySorted_firstn. apply score_ge_sorted.
Qed.

(** X12.  A query that is not a valid regular expression gets no answer
    at all, unless the exact matches alone fill the bound: the result is
    empty, or it has [max_results] entries and all are exact matches. *)
Theorem invalid_pattern_query (df : DataFrame) (s : string)
        (artist_name : option string) (max_results : nat)
        (fuzzy_threshold : Z) :
  pattern_compiles (strip s) = false ->
  let r := matches_of df (PyStr s) artist_name (Z.of_nat max_results)
                      fuzzy_threshold in
  r = []
  \/ (List.length r = max_results /\ Forall (exact_tier (strip s)) r).
Proof.
  intros Hc. cbv zeta. unfold matches_of, get_song_matches_with_duration.
  destruct (song_matches_body _ _ _ _ _ _ _ _) as [r |] eqn:E; auto.
  destruct (truthy (strip s)) eqn:Hq.
  - destruct (@song_matches_anatomy _ _ _ _ _ _ Hq E)
      as [co [fu [j [-> [Hj [_ [_ [Hc' | [Hk [-> ->]]]]]]]]]];
      [congruence |].
    rewrite !app_nil_r.
    rewrite (Hj (Nat2Z.is_nonneg _)), Nat2Z.id.
    right. split.
    + rewrite length_firstn. lia.
    + apply Forall_firstn, exact_matches_tier.
  - left. unfold song_matches_body in E. simpl in E.
    destruct (negb (truthy s) || false); [congruence |].
    rewrite Hq in E. simpl in E. congruence.
Qed.

(** X13.  When the frame has a chart entry whose title is the query,
    letter case and surrounding white space apart, the two single-answer
    lookups find it: [find_similar_song] returns a title equal to the
    query but for case, whatever the threshold, and
    [get_song_weeks_on_chart] returns the greatest number of weeks of the
    chart entries of that title by one artist. *)
Theorem exact_title_is_found (df : DataFrame) (s : string) (threshold : Z)
        (e : ChartEntry) :
  truthy (strip s) = true ->
  In e df -> lower (song e) = lower (strip s) ->
  let title :=
    find_similar_song partial_ratio pattern_compiles search_nocase df
                      (PyStr s) threshold in
  let weeks :=
    get_song_weeks_on_chart partial_ratio pattern_compiles search_nocase df
                            (PyStr s) in
  lower title = lower (strip s)
  /\ exists g, summarises year df g
               /\ g_song g = title /\ g_weeks_on_board g = weeks.
Proof.
  intros Hq He Ht. cbv zeta.
  unfold find_similar_song, get_song_weeks_on_chart, first_match,
    get_song_matches_with_duration, song_matches_body.
  simpl py_truth. simpl is_str. rewrite (truthy_strip _ Hq), Hq. simpl negb.
  simpl orb. cbv iota zeta.
  destruct (groupby_complete year df e He) as [g [Hg Hk]].
  set (us := groupby_song_artist year df) in *.
  assert (Hex : In g (filter (fun g => lower_eq (g_song g) (strip s)) us)).
  { apply filter_In. split; auto. unfold lower_eq. apply String.eqb_eq.
    inversion Hk as [[H1 H2]]. congruence. }
  destruct (filter (fun g => lower_eq (g_song g) (strip s)) us)
    as [| g0 gs] eqn:Ef; [destruct Hex |].
  assert (Hg0 : In g0 us /\ lower_eq (g_song g0) (strip s) = true).
  { apply (proj1 (filter_In (fun g => lower_eq (g_song g) (strip s)) g0 us)).
    rewrite Ef. simpl. auto. }
  set (ex := map (make_match 100 exact) (g0 :: gs)).
  assert (Hlen : (Z.of_nat (List.length ex) <? 1)%Z = false).
  { apply Z.ltb_ge. unfold ex. simpl List.length. lia. }
  rewrite !Hlen. unfold slice_to, ex. simpl.
  destruct Hg0 as [Hin Hl]. apply String.eqb_eq in Hl. split.
  - exact Hl.
  - exists g0. split; [now apply groupby_summarises | split; reflexivity].
Qed.

End Engine.

Lemma song_matches_report_the_store_witness :
  let m := mkMatch "Hello" "Adele" 2 1 1 2015 100 exact in
  summarises year Samples.hello_chart (group_of m)
  /\ passes_artist_filter Samples.literal_search (Some "adele")
                          (group_of m).
Proof.
  apply (@song_matches_report_the_store Samples.no_similarity
           Samples.always_compiles Samples.literal_search
           Samples.hello_chart (PyStr "hello") (Some "adele") 3 60).
  vm_compute. auto.
Defined.

(** A title that starts with repetition signs is not found by its own
    name. *)
Lemma invalid_pattern_query_witness :
  let r := get_song_matches_with_duration
             Samples.no_similarity MoreSamples.refuses_leading_star
             Samples.literal_search MoreSamples.flawless_chart
             (PyStr "***flawless") None (Z.of_nat 5) 60 in
  r = []
  \/ (List.length r = 5 /\ Forall (exact_tier (strip "***flawless")) r).
Proof.
  apply (@invalid_pattern_query Samples.no_similarity
           MoreSamples.refuses_leading_star Samples.literal_search
           MoreSamples.flawless_chart "***flawless" None 5 60).
  reflexivity.
Defined.

Example flawless_is_not_found :
  get_song_matches_with_duration
    Samples.no_similarity MoreSamples.refuses_leading_star
    Samples.literal_search MoreSamples.flawless_chart
    (PyStr "***Flawless") None 5 60 = []
  /\ List.length
       (get_song_matches_with_duration
          Samples.no_similarity MoreSamples.refuses_leading_star
          Samples.literal_search MoreSamples.flawless_chart
          (PyStr "***Flawless") None 1 60) = 1.
Proof. vm_compute. auto. Qed.

Lemma exact_title_is_found_witness :
  let title :=
    find_similar_song Samples.no_similarity MoreSamples.refuses_leading_star
                      Samples.literal_search MoreSamples.flawless_chart
                      (PyStr " ***FLAWLESS ") 70 in
  let weeks :=
    get_song_weeks_on_chart
      Samples.no_similarity MoreSamples.refuses_leading_star
      Samples.literal_search MoreSamples.flawless_chart
      (PyStr " ***FLAWLESS ") in
  lower title = lower (strip " ***FLAWLESS ")
  /\ exists g, summarises year MoreSamples.flawless_chart g
               /\ g_song g = title /\ g_weeks_on_board g = weeks.
Proof.
  apply (@exact_title_is_found Samples.no_similarity
           MoreSamples.refuses_leading_star Samples.literal_search
           MoreSamples.flawless_chart " ***FLAWLESS " 70
           (mkEntry "2014-01-04" 41 "***Flawless" "Beyonce" 0 41 1 2014)).
  - reflexivity.
  - simpl. auto.
  - reflexivity.
Defined.

End MatchEngineFacts.

(** ** The entries of a song search are distinct *)

Module SongMatchDistinct.
Import PyStr PyList DataUtils Queries.
Import PyListFacts Spec Terms AggregationFacts GroupFacts SongMatchFacts.
Import RankingFacts SongMatchClaims MatchEngineFacts.

(** A selection among rows of distinct keys has distinct keys. *)
Lemma selection_keeps_keys_distinct (Row Key : Type) (key_of : Row -> Key)
      (selected : Row -> bool) :
  forall rows : list Row,
    NoDup (map key_of rows) -> NoDup (map key_of (filter selected rows)).
Proof.
  intros rows. induction rows as [| row rows IH]; cbn [filter map]; auto.
  intros Hd. apply NoDup_cons_iff in Hd. destruct Hd as [Hfresh Hrest].
  destruct (selected row); cbn [map]; auto.
  apply NoDup_cons; auto.
  intros Hin. apply Hfresh.
  apply in_map_iff in Hin. destruct Hin as [other [Hk Hin]].
  apply filter_In in Hin. rewrite <- Hk. apply in_map. tauto.
Qed.

Lemma NoDup_map_prefixes (A B : Type) (f : A -> B) (i j : nat)
      (l1 l2 : list A) :
  NoDup (map f (l1 ++ l2)) -> NoDup (map f (firstn i l1 ++ firstn j l2)).
Proof.
  rewrite !map_app. intros H.
  assert (H1 := NoDup_app_remove_r _ _ H).
  assert (H2 := NoDup_app_remove_l _ _ H).
  apply NoDup_app.
  - rewrite map_firstn. now apply NoDup_firstn.
  - rewrite map_firstn. now apply NoDup_firstn.
  - intros x Hx1 Hx2.
    rewrite map_firstn in Hx1, Hx2.
    apply In_firstn_inv in Hx1. apply In_firstn_inv in Hx2.
    clear H1 H2. induction (map f l1) as [| y l IH]; [destruct Hx1 |].
    simpl in H. inversion H as [| ? ? Hy Hl]; subst.
    destruct Hx1 as [-> | Hx1]; [| now apply IH].
    apply Hy. apply in_or_app. now right.
Qed.

Lemma match_key_make_match (score : Z) (ty : MatchType) (g : Group) :
  match_key (make_match score ty g) = key g.
Proof. reflexivity. Qed.

Section Claims.
Variable partial_ratio : string -> string -> Z.
Variable pattern_compiles : string -> bool.
Variable search_nocase : string -> string -> bool.

Let matches_of :=
  get_song_matches_with_duration partial_ratio pattern_compiles
                                 search_nocase.

(** The exact and the contains matches of a query report distinct
    aggregates. *)
Lemma exact_contains_keys (us : list Group) (q : string) :
  NoDup (map key us) ->
  NoDup (map match_key
           (map (make_match 100 exact)
                (filter (fun g => lower_eq (g_song g) q) us)
            ++ map (make_match 85 contains)
                   (filter (fun g => search_nocase q (g_song g)
                                     && negb (lower_eq (g_song g) q)) us))).
Proof.
  intros Hus. rewrite map_app, !map_map.
  apply NoDup_app;
    try (apply (@selection_keeps_keys_distinct
                  _ _ (fun g => match_key (make_match _ _ g)));
         exact Hus).
  intros k H1 H2.
  apply in_map_iff in H1. destruct H1 as [g1 [<- H1]].
  apply in_map_iff in H2. destruct H2 as [g2 [Hk H2]].
  apply filter_In in H1. apply filter_In in H2.
  destruct H1 as [_ H1]. destruct H2 as [_ H2].
  apply andb_true_iff in H2. destruct H2 as [_ H2].
  apply negb_true_iff in H2.
  assert (Hs : g_song g2 = g_song g1) by (inversion Hk; auto).
  rewrite Hs in H2. congruence.
Qed.

(** C4, as the code has it.  The result of a search is a run of exact
    matches, then a run of contains matches, then a run of fuzzy matches.
    The exact and the contains matches report distinct aggregates of the
    store: no two of them have both the same song and the same artist.
    A contains match never has the title of an exact match, and a fuzzy
    match never has the title of an exact or a contains match, titles
    being compared without regard to case: two entries of different tiers
    never have the same title. *)
Theorem song_matches_distinct_entries
        (df : DataFrame) (query_song : PyValue)
        (artist_name : option string) (max_results fuzzy_threshold : Z) :
  let r := matches_of df query_song artist_name max_results
                      fuzzy_threshold in
  (exists ex co fu,
      r = ex ++ co ++ fu
      /\ Forall (fun m => match_type m = exact) ex
      /\ Forall (fun m => match_type m = contains) co
      /\ Forall (fun m => match_type m = fuzzy) fu
      /\ NoDup (map match_key (ex ++ co))
      /\ (forall a b, In a ex -> In b co -> title_key a <> title_key b)
      /\ (forall a b, In a (ex ++ co) -> In b fu ->
                      title_key a <> title_key b))
  /\ (forall a b, In a r -> In b r -> match_type a <> match_type b ->
                  title_key a <> title_key b).
Proof.
  cbv zeta. split;
    [| intros a b; apply titles_differ_across_tiers].
  unfold matches_of, get_song_matches_with_duration.
  assert (Hnil : exists ex co fu : list Match,
             [] = ex ++ co ++ fu
             /\ Forall (fun m => match_type m = exact) ex
             /\ Forall (fun m => match_type m = contains) co
             /\ Forall (fun m => match_type m = fuzzy) fu
             /\ NoDup (map match_key (ex ++ co))
             /\ (forall a b, In a ex -> In b co ->
                             title_key a <> title_key b)
             /\ (forall a b, In a (ex ++ co) -> In b fu ->
                             title_key a <> title_key b)).
  { exists [], [], []. repeat split; try constructor; intros a b []. }
  destruct (song_matches_body _ _ _ _ _ _ _ _) as [r |] eqn:E; auto.
  assert (Hs : r = [] \/ exists s, query_song = PyStr s
                                   /\ truthy (strip s) = true).
  { unfold song_matches_body in E.
    destruct (negb (py_truth query_song) || negb (is_str query_song));
      [inversion E; auto |].
    destruct query_song as [| b | z | s]; try (inversion E; auto).
    destruct (truthy (strip s)) eqn:Hq; [right; eauto |].
    simpl in E. inversion E; auto. }
  destruct Hs as [-> | [s [-> Hq]]]; auto.
  assert (Han := @song_matches_anatomy _ _ _ _ _ _ _ _ _ Hq E).
  cbv zeta in Han. set (q := strip s) in *.
  set (us := match artist_name with
             | Some a =>
                 if truthy a
                 then filter (fun g => search_nocase (strip a) (g_artist g))
                             (groupby_song_artist year df)
                 else groupby_song_artist year df
             | None => groupby_song_artist year df
             end) in *.
  assert (Hus : NoDup (map key us)).
  { unfold us. destruct artist_name as [a |];
      [destruct (truthy a) |]; try apply groupby_NoDup.
    apply selection_keeps_keys_distinct, groupby_NoDup. }
  set (EX := map (make_match 100 exact)
                 (filter (fun g => lower_eq (g_song g) q) us)) in *.
  set (CO := map (make_match 85 contains)
                 (filter (fun g => search_nocase q (g_song g)
                                   && negb (lower_eq (g_song g) q)) us))
    in *.
  destruct Han as [co [fu [j [-> [_ [[j1 Hco] [[j2 Hfu] _]]]]]]].
  assert (Hex_t : Forall (exact_tier q) EX) by apply exact_matches_tier.
  assert (Hco_t : Forall (contains_tier q) co).
  { rewrite Hco. apply Forall_firstn, contains_matches_tier. }
  assert (Hfu_t : Forall (fuzzy_tier fuzzy_threshold (EX ++ co)) fu).
  { rewrite Hfu. apply Forall_firstn.
    eapply Permutation_Forall;
      [symmetry; apply stable_sort_perm | apply fuzzy_candidates_tier]. }
  rewrite !firstn_app.
  set (ex' := firstn j EX).
  set (co' := firstn (j - List.length EX) co).
  set (fu' := firstn (j - List.length EX - List.length co) fu).
  assert (Iex : forall m, In m ex' -> In m EX)
    by (intros m; apply In_firstn_inv).
  assert (Ico : forall m, In m co' -> In m co)
    by (intros m; apply In_firstn_inv).
  assert (Ifu : forall m, In m fu' -> In m fu)
    by (intros m; apply In_firstn_inv).
  rewrite Forall_forall in Hex_t, Hco_t, Hfu_t.
  exists ex', co', fu'.
  split; [reflexivity |].
  split; [apply Forall_forall; intros m Hm; apply Iex, Hex_t in Hm;
          apply Hm |].
  split; [apply Forall_forall; intros m Hm; apply Ico, Hco_t in Hm;
          apply Hm |].
  split; [apply Forall_forall; intros m Hm; apply Ifu, Hfu_t in Hm;
          apply Hm |].
  split; [| split].
  - unfold ex', co'. rewrite Hco, firstn_firstn.
    apply NoDup_map_prefixes. now apply exact_contains_keys.
  - intros a b Ha Hb.
    destruct (Hex_t a (Iex a Ha)) as (_ & _ & H1).
    destruct (Hco_t b (Ico b Hb)) as (_ & _ & H2). congruence.
  - intros a b Ha Hb Heq.
    destruct (Hfu_t b (Ifu b Hb)) as (_ & _ & Hnot). apply Hnot.
    rewrite <- Heq. apply in_map.
    apply in_app_or in Ha. apply in_or_app.
    destruct Ha as [Ha | Ha]; [left; now apply Iex | right; now apply Ico].
Qed.
End Claims.

(** The same title by two artists in the contains tier: both aggregates
    are returned. *)
Example contains_tier_lists_each_artist :
  get_song_matches_with_duration
    Samples.no_similarity Samples.always_compiles Samples.literal_search
    [ mkEntry "1999-01-02" 4 "Hello Again" "Anna" 0 4 1 1999;
      mkEntry "2005-06-11" 9 "Hello Again" "Bert" 0 9 2 2005 ]
    (PyStr "hello") None 5 60
  = [ mkMatch "Hello Again" "Anna" 1 4 4 1999 85 contains;
      mkMatch "Hello Again" "Bert" 2 9 9 2005 85 contains ].
Proof. vm_compute. reflexivity. Qed.

End SongMatchDistinct.

(** ** The intent parser: what it reads and what it returns *)

Module ParserMoreFacts.
Import PyStr Re Capture CaptureFacts Parser Chatbot Spec Terms Tokens.
Import TokenFacts WordRemovalFacts SpaceFacts StopWordFacts ParserFacts.
Import DecadeClaims.
Local Open Scope string_scope.

Lemma lower_char_idem (c : ascii) : lower_char (lower_char c) = lower_char c.
Proof. destruct c as [[] [] [] [] [] [] [] []]; reflexivity. Qed.

Lemma is_space_lower_char (c : ascii) : is_space (lower_char c) = is_space c.
Proof. destruct c as [[] [] [] [] [] [] [] []]; reflexivity. Qed.

Lemma lower_idem (s : string) : lower (lower s) = lower s.
Proof.
  induction s as [| c s IH]; simpl; auto.
  now rewrite lower_char_idem, IH.
Qed.

Lemma lstrip_lower (s : string) :
  lstrip_chars is_space (lower s) = lower (lstrip_chars is_space s).
Proof.
  induction s as [| c s IH]; simpl; auto.
  rewrite is_space_lower_char. destruct (is_space c); auto.
Qed.

Lemma rstrip_lower (s : string) :
  rstrip_chars is_space (lower s) = lower (rstrip_chars is_space s).
Proof.
  induction s as [| c s IH]; simpl; auto.
  rewrite IH, is_space_lower_char.
  destruct (rstrip_chars is_space s); simpl; auto.
  destruct (is_space c); auto.
Qed.

Lemma strip_lower (s : string) : strip (lower s) = lower (strip s).
Proof.
  unfold strip, strip_chars. now rewrite lstrip_lower, rstrip_lower.
Qed.

(** X14.  The parse of a query does not depend on the case of its
    letters, nor on the white space before and after it. *)
Theorem parser_ignores_case_and_margins (query : string) :
  enhanced_query_parser (lower query) = enhanced_query_parser query
  /\ enhanced_query_parser (strip query) = enhanced_query_parser query.
Proof.
  unfold enhanced_query_parser. cbv zeta. split.
  - now rewrite lower_idem.
  - now rewrite <- strip_lower, strip_idem.
Qed.

Lemma digit_val_range (c : ascii) :
  is_digit c = true -> (0 <= digit_val c <= 9)%Z.
Proof.
  unfold is_digit, digit_val. rewrite andb_true_iff, !Nat.leb_le. lia.
Qed.

Lemma length_list_ascii (s : string) :
  List.length (list_ascii_of_string s) = String.length s.
Proof. induction s as [| c s IH]; simpl; auto. Qed.

Lemma fold_digits_bounds (l : list ascii) :
  forall acc,
    (0 <= acc)%Z -> forallb is_digit l = true ->
    let v := fold_left (fun acc c => 10 * acc + digit_val c)%Z l acc in
    (acc * 10 ^ Z.of_nat (List.length l) <= v
     < (acc + 1) * 10 ^ Z.of_nat (List.length l))%Z.
Proof.
  induction l as [| c l IH]; intros acc Hacc Hd; cbv zeta.
  - simpl. lia.
  - simpl in Hd. apply andb_true_iff in Hd. destruct Hd as [Hc Hl].
    apply digit_val_range in Hc.
    assert (H := IH (10 * acc + digit_val c)%Z ltac:(lia) Hl).
    cbv zeta in H. cbn [fold_left].
    change (List.length (c :: l)) with (S (List.length l)).
    rewrite Nat2Z.inj_succ, Z.pow_succ_r by lia.
    assert (Hp : (0 < 10 ^ Z.of_nat (List.length l))%Z)
      by (apply Z.pow_pos_nonneg; lia).
    set (P := (10 ^ Z.of_nat (List.length l))%Z) in *.
    set (d := digit_val c) in *.
    assert (H1 : (0 <= d * P)%Z) by (apply Z.mul_nonneg_nonneg; lia).
    assert (H2 : (0 <= (9 - d) * P)%Z) by (apply Z.mul_nonneg_nonneg; lia).
    lia.
Qed.

(** The value of a run of digits is not negative and is less than the
    power of ten of its length. *)
Lemma int_of_digits_bounds (s : string) :
  all_digits s = true ->
  (0 <= int_of_digits s < 10 ^ Z.of_nat (String.length s))%Z.
Proof.
  intros H. unfold int_of_digits.
  assert (B := @fold_digits_bounds (list_ascii_of_string s) 0%Z
                 ltac:(lia) H).
  cbv zeta in B. rewrite length_list_ascii in B. lia.
Qed.

Lemma fits_nonneg (g : digit_group) (v : string) :
  fits g v -> (0 <= int_of_digits v)%Z.
Proof. intros [H _]. apply int_of_digits_bounds in H. lia. Qed.

Lemma digits_bounds (n : nat) (v : string) :
  digits n v -> (0 <= int_of_digits v < 10 ^ Z.of_nat n)%Z.
Proof. intros [<- H]. now apply int_of_digits_bounds. Qed.

Lemma isdigit_nonneg (v : string) :
  isdigit v = true -> (0 <= int_of_digits v)%Z.
Proof.
  unfold isdigit. rewrite andb_true_iff. intros [_ H].
  apply int_of_digits_bounds in H. lia.
Qed.

Lemma decade_of_bounds (tok : string) :
  digits 2 tok \/ digits 4 tok -> (0 <= decade_of tok <= 9999)%Z.
Proof.
  intros H. destruct (decade_of_cases H) as [(Hd & _ & ->) | [(Hd & _ & ->)
                                             | (Hd & ->)]];
    apply digits_bounds in Hd; simpl in Hd; lia.
Qed.

(** X15.  The numbers in a parse are in range: a count is never negative,
    and a year and the start of a decade lie between 0 and 9999. *)
Theorem parsed_numbers_in_range (query : string) (r : ParsedQuery) :
  enhanced_query_parser query = ok r ->
  (forall n, q_n r = Some n -> (0 <= n)%Z)
  /\ (forall y, q_year r = Some y -> (0 <= y <= 9999)%Z)
  /\ (forall d, q_decade_start r = Some d -> (0 <= d <= 9999)%Z).
Proof.
  intros H. apply parser_ok_rule in H.
  destruct H as [-> | (p & m & Hm & H)];
    [simpl; split; [| split]; discriminate |].
  destruct H as [[Hp Hb] | [[Hp Hb] | [[Hp Hb] | [[Hp Hb] | [Hp Hb]]]]].
  - destruct (@top_year_body_cases _ _ _ Hp Hm) as [[_ E] | [_ E]];
      rewrite E in Hb; [| discriminate].
    injection Hb as <-. simpl.
    destruct (@top_year_groups _ _ _ Hp Hm) as [H1 H2].
    apply isdigit_nonneg in H1. apply digits_bounds in H2. simpl in H2.
    split; [| split]; intros ? [= <-]; lia.
  - rewrite (@top_year_default_body_ok _ _ _ Hp Hm) in Hb.
    injection Hb as <-. simpl.
    assert (H := @top_year_default_groups _ _ _ Hp Hm).
    apply digits_bounds in H. simpl in H.
    split; [| split]; intros ? [= <-]; lia.
  - rewrite (@decade_body_ok _ _ _ Hp Hm) in Hb. injection Hb as <-. simpl.
    assert (H := decade_of_bounds (@decade_patterns_token _ _ _ Hp Hm)).
    split; [| split]; intros ? [= <-]; lia.
  - unfold duration_with_artist_body in Hb.
    destruct (cleanup_both _ _) as [s1 a1].
    destruct (truthy _ && truthy _); [| discriminate].
    injection Hb as <-. simpl. split; [| split]; discriminate.
  - unfold duration_body in Hb. destruct (truthy _); [| discriminate].
    injection Hb as <-. simpl. split; [| split]; discriminate.
Qed.

Lemma parsed_numbers_in_range_witness :
  (forall n, q_n (decade_parse 1980) = Some n -> (0 <= n)%Z)
  /\ (forall y, q_year (decade_parse 1980) = Some y -> (0 <= y <= 9999)%Z)
  /\ (forall d, q_decade_start (decade_parse 1980) = Some d ->
                (0 <= d <= 9999)%Z).
Proof.
  apply (@parsed_numbers_in_range "Best songs from the 80s").
  vm_compute. reflexivity.
Defined.

Lemma stop_words_wordlike :
  Forall (fun w => wordlike w = true) cleanup_words_with_artist
  /\ Forall (fun w => wordlike w = true) cleanup_words
  /\ incl cleanup_words cleanup_words_with_artist.
Proof.
  split; [| split].
  - repeat constructor.
  - repeat constructor.
  - intros w H. simpl in *. tauto.
Qed.

(** What the stop-word stripping leaves, when it leaves something. *)
Lemma strip_stop_words_clean (words : list string) (s : string) :
  Forall (fun w => wordlike w = true) words ->
  truthy (strip_stop_words words s) = true ->
  clean_name words (strip_stop_words words s).
Proof.
  intros Hw Ht. split; [exact Ht | split; [| split]].
  - unfold strip_stop_words, collapse_spaces. apply strip_idem.
  - unfold strip_stop_words, collapse_spaces. apply spaced_strip.
    rewrite re_sub_spaces. apply spaced_squeeze.
  - apply Forall_forall. intros w Hin. unfold strip_stop_words.
    apply free_collapse.
    + rewrite Forall_forall in Hw. auto.
    + apply loop_free; auto.
Qed.

Lemma clean_name_incl (ws1 ws2 : list string) (s : string) :
  incl ws1 ws2 -> clean_name ws2 s -> clean_name ws1 s.
Proof.
  intros Hi (H1 & H2 & H3 & H4). repeat split; auto.
  rewrite Forall_forall in *. auto.
Qed.

(** X16.  The names in the parse of an ASCII query are clean: a song name
    is not empty, has no white space at its ends and only single spaces
    inside, and none of its words is a stop word; an artist name likewise,
    with the stop words of the queries that name an artist. *)
Theorem parsed_names_are_clean (query : string) (r : ParsedQuery) :
  isascii query = true ->
  enhanced_query_parser query = ok r ->
  (forall name, q_song r = Some name -> clean_name cleanup_words name)
  /\ (forall name, q_artist r = Some name ->
                   clean_name cleanup_words_with_artist name).
Proof.
  intros _ H.
  destruct stop_words_wordlike as [Hwa [Hw Hincl]].
  apply parser_ok_rule in H.
  destruct H as [-> | (p & m & Hm & H)]; [simpl; split; discriminate |].
  destruct H as [[Hp Hb] | [[Hp Hb] | [[Hp Hb] | [[Hp Hb] | [Hp Hb]]]]].
  - destruct (@top_year_body_cases _ _ _ Hp Hm) as [[_ E] | [_ E]];
      rewrite E in Hb; [| discriminate].
    injection Hb as <-. split; discriminate.
  - rewrite (@top_year_default_body_ok _ _ _ Hp Hm) in Hb.
    injection Hb as <-. split; discriminate.
  - rewrite (@decade_body_ok _ _ _ Hp Hm) in Hb. injection Hb as <-.
    split; discriminate.
  - unfold duration_with_artist_body in Hb.
    rewrite cleanup_both_split in Hb.
    fold (strip_stop_words cleanup_words_with_artist (strip (group 1 m)))
      in Hb.
    fold (strip_stop_words cleanup_words_with_artist (strip (group 2 m)))
      in Hb.
    destruct (truthy (strip_stop_words _ (strip (group 1 m)))) eqn:T1;
      [| discriminate].
    destruct (truthy (strip_stop_words _ (strip (group 2 m)))) eqn:T2;
      [| discriminate].
    injection Hb as <-. simpl. split; intros name [= <-].
    + apply (clean_name_incl Hincl). now apply strip_stop_words_clean.
    + now apply strip_stop_words_clean.
  - unfold duration_body in Hb.
    destruct (truthy (strip_stop_words _ (strip (group 1 m)))) eqn:T1;
      [| discriminate].
    injection Hb as <-. simpl. split; intros name [= <-].
    now apply strip_stop_words_clean.
Qed.

Lemma parsed_names_are_clean_witness :
  let r := mkParsed (Some "song_duration_with_artist") None None None
                    (Some "back to back") (Some "drake") in
  (forall name, q_song r = Some name -> clean_name cleanup_words name)
  /\ (forall name, q_artist r = Some name ->
                   clean_name cleanup_words_with_artist name).
Proof.
  apply (@parsed_names_are_clean
           "How long did Back to Back by Drake stay on the chart?").
  - reflexivity.
  - vm_compute. reflexivity.
Defined.

(** The words of a text do not depend on its white space. *)
Lemma words_of_lstrip (s : string) :
  words_of (lstrip_chars is_space s) = words_of s.
Proof.
  induction s as [| c s IH]; simpl; auto.
  destruct (is_space c) eqn:E; auto.
  unfold words_of in *. simpl. rewrite (space_not_word _ E). simpl.
  rewrite (space_not_word _ E). exact IH.
Qed.

Lemma all_space_no_word (t : string) :
  all_space t = true -> word_after t = false /\ words_of t = [].
Proof.
  induction t as [| c t IH]; simpl; auto.
  rewrite andb_true_iff. intros [Hc Ht]. split.
  - now apply space_not_word.
  - unfold words_of in *. simpl. rewrite (space_not_word _ Hc). simpl.
    rewrite (space_not_word _ Hc). now apply IH.
Qed.

Lemma words_of_rstrip (s : string) :
  words_of (rstrip_chars is_space s) = words_of s.
Proof.
  destruct (rstrip_decomp s) as [t [E Ht]].
  destruct (all_space_no_word _ Ht) as [H1 H2].
  rewrite E at 2. unfold words_of in *.
  rewrite (segs_app _ _ H1), filter_app, H2. now rewrite app_nil_r.
Qed.

Lemma words_of_strip (s : string) : words_of (strip s) = words_of s.
Proof.
  unfold strip, strip_chars. now rewrite words_of_rstrip, words_of_lstrip.
Qed.

Lemma words_of_squeeze_segs (l : list string) :
  forall b, filter word_after (squeeze_segs l b) = filter word_after l.
Proof.
  induction l as [| g l IH]; intros b; simpl; auto.
  destruct (is_space_seg g) eqn:E.
  - assert (Hg : word_after g = false).
    { destruct g as [| c [| c' g']]; simpl in *; try discriminate.
      now apply space_not_word. }
    rewrite Hg. destruct b; simpl; auto.
  - simpl. now rewrite IH.
Qed.

Lemma words_of_collapse (s : string) :
  words_of (collapse_spaces s) = words_of s.
Proof.
  unfold collapse_spaces. rewrite words_of_strip, re_sub_spaces.
  unfold words_of. now rewrite segs_squeeze, words_of_squeeze_segs.
Qed.

Lemma filter_filter (A : Type) (f g : A -> bool) (l : list A) :
  filter f (filter g l) = filter (fun x => g x && f x) l.
Proof.
  induction l as [| x l IH]; simpl; auto.
  destruct (g x); simpl; [destruct (f x) |]; now rewrite IH.
Qed.

Lemma words_of_remove_word (w s : string) :
  wordlike w = true ->
  words_of (remove_word w s) = filter (keep w) (words_of s).
Proof.
  intros Hw. unfold remove_word. rewrite words_of_strip. unfold words_of.
  rewrite (@segs_re_sub_word _ Hw), !filter_filter.
  apply filter_ext. intros g. apply andb_comm.
Qed.

(** X17.  On an ASCII name the stop-word stripping removes the stop words
    and nothing else: the words of the cleaned name are the words of the
    name that are not stop words, in their order. *)
Theorem strip_stop_words_keeps_the_other_words (words : list string)
        (name : string) :
  isascii name = true ->
  Forall (fun w => wordlike w = true) words ->
  words_of (strip_stop_words words name)
  = filter (not_stop_word words) (words_of name).
Proof.
  intros _ Hw. unfold strip_stop_words. rewrite words_of_collapse.
  revert name. induction Hw as [| w ws Hw _ IH]; intros name; simpl.
  - symmetry. apply filter_all. apply Forall_forall. auto.
  - rewrite IH, (@words_of_remove_word _ _ Hw), filter_filter.
    reflexivity.
Qed.

Lemma strip_stop_words_keeps_the_other_words_witness :
  words_of (strip_stop_words cleanup_words "the shape of you was")
  = filter (not_stop_word cleanup_words) (words_of "the shape of you was").
Proof.
  apply (@strip_stop_words_keeps_the_other_words cleanup_words
           "the shape of you was").
  - reflexivity.
  - repeat constructor.
Defined.

End ParserMoreFacts.

(** ** Queries of the form [top N songs of YYYY] *)

Module TopQueryFacts.
Import PyStr Re Capture CaptureFacts Parser DataUtils Chatbot Spec Terms.
Import Tokens ParserFacts ParserMoreFacts.
Local Open Scope string_scope.

(** The character before the position reached after the text [w]. *)
Fixpoint last_char (prev : option ascii) (w : string) : option ascii :=
  match w with
  | EmptyString => prev
  | String c w' => last_char (Some c) w'
  end.

(** The text does not start with a digit. *)
Definition no_digit_ahead (s : string) : Prop :=
  match s with
  | EmptyString => True
  | String c _ => is_digit c = false
  end.

(** The run of digits [t] is all that a repetition with the upper bound
    [hi] can take in front of [rest]. *)
Definition run_stops (hi : option nat) (t rest : string) : Prop :=
  match hi with
  | None => no_digit_ahead rest
  | Some h => h = String.length t
  end.

Section Eval.
Variable R : Type.
Implicit Types (k : cont R) (p : option ascii) (cs : caps) (x : R).

Lemma ok_seq (r1 r2 : regex) p (s : string) cs k x :
  rmatch false r1 p s cs (fun p' s' cs' => rmatch false r2 p' s' cs' k)
  = Some x ->
  rmatch false (Seq r1 r2) p s cs k = Some x.
Proof. auto. Qed.

Lemma ok_alt_l (r1 r2 : regex) p (s : string) cs k x :
  rmatch false r1 p s cs k = Some x ->
  rmatch false (Alt r1 r2) p s cs k = Some x.
Proof. simpl. now intros ->. Qed.

Lemma ok_alt_r (r1 r2 : regex) p (s : string) cs k x :
  rmatch false r1 p s cs k = None ->
  rmatch false r2 p s cs k = Some x ->
  rmatch false (Alt r1 r2) p s cs k = Some x.
Proof. simpl. now intros -> ->. Qed.

Lemma ok_eps p (s : string) cs k x :
  k p s cs = Some x -> rmatch false Eps p s cs k = Some x.
Proof. auto. Qed.

Lemma ok_lit (w rest : string) p cs k x :
  k (last_char p w) rest cs = Some x ->
  rmatch false (lit w) p (w ++ rest) cs k = Some x.
Proof.
  revert p. induction w as [| c w IH]; intros p H; [exact H |].
  destruct w as [| c' w'].
  - simpl. rewrite Ascii.eqb_refl. exact H.
  - change (lit (String c (String c' w')))
      with (Seq (Chr (CLit c)) (lit (String c' w'))).
    apply ok_seq. cbn [rmatch append cmatch]. rewrite Ascii.eqb_refl.
    apply IH. exact H.
Qed.

Lemma ok_sp1 (rest : string) p cs k x :
  head_ok rest ->
  k (Some " "%char) rest cs = Some x ->
  rmatch false sp1 p (String " " rest) cs k = Some x.
Proof.
  intros Hh H. unfold sp1. cbn [rmatch rep_match]. simpl may_repeat.
  simpl cmatch. cbv iota. simpl pred. simpl dec_hi.
  destruct rest as [| c rest']; cbn [rep_match].
  - exact H.
  - simpl in Hh. simpl cmatch. rewrite Hh. simpl. exact H.
Qed.

Lemma rep_digits_run (t : string) :
  forall (lo : nat) (hi : option nat) (rest : string) p cs k x,
    all_digits t = true -> lo <= String.length t ->
    run_stops hi t rest ->
    k (last_char p t) rest cs = Some x ->
    rep_match false CDigit true lo hi p (t ++ rest) cs k = Some x.
Proof.
  induction t as [| c t IH]; intros lo hi rest p cs k x Hd Hlo Hs H.
  - simpl in Hlo. assert (lo = 0) by lia. subst lo. simpl append.
    simpl in H.
    assert (Hmore :
              match rest with
              | String a s' =>
                  if may_repeat hi && cmatch false CDigit a
                  then rep_match false CDigit true (pred 0) (dec_hi hi)
                                 (Some a) s' cs k
                  else None
              | EmptyString => None
              end = None).
    { destruct rest as [| a s']; auto.
      destruct hi as [h |]; simpl in Hs.
      - subst h. reflexivity.
      - simpl. now rewrite Hs. }
    destruct rest; simpl in *; rewrite ?Hmore; auto.
  - unfold all_digits in Hd. simpl in Hd. apply andb_true_iff in Hd.
    destruct Hd as [Hc Hd].
    assert (Hrep : may_repeat hi = true).
    { destruct hi as [[| h] |]; auto. simpl in Hs. discriminate. }
    assert (IH' : rep_match false CDigit true (pred lo) (dec_hi hi)
                            (Some c) (t ++ rest) cs k = Some x).
    { apply IH; auto.
      - simpl in Hlo. lia.
      - destruct hi as [h |]; simpl in *; [| exact Hs]. subst h.
        reflexivity. }
    simpl append. cbn [rep_match]. rewrite Hrep. simpl cmatch. rewrite Hc.
    simpl andb. cbv iota. rewrite IH'. destruct lo; reflexivity.
Qed.

Lemma ok_digits (i lo : nat) (hi : option nat) (t rest : string)
      p cs k x :
  all_digits t = true -> lo <= String.length t ->
  run_stops hi t rest ->
  k (last_char p t) rest (set_group i t cs) = Some x ->
  rmatch false (Grp i (Rep CDigit lo hi true)) p (t ++ rest) cs k = Some x.
Proof.
  intros Hd Hlo Hs H. cbn [rmatch].
  apply rep_digits_run; auto. now rewrite take_append.
Qed.
End Eval.

Lemma search_from_here (r : regex) (prev : option ascii) (s : string)
      (m : caps) :
  rmatch false r prev s [] (fun _ _ cs => Some cs) = Some m ->
  search_from false r prev s = Some m.
Proof. intros H. destruct s; simpl; now rewrite H. Qed.

Lemma try_patterns_first (p : regex) (ps : list regex)
      (body : caps -> result (option ParsedQuery)) (text : string)
      (m : caps) :
  re_search false p text = Some m -> body m <> ok None ->
  try_patterns (p :: ps) body text = body m.
Proof.
  intros H1 H2. simpl. rewrite H1.
  destruct (body m) as [[r |] | e]; congruence.
Qed.

(** A run of digits is what it is in lower case, and has no white space
    to strip. *)
Lemma digit_not_space (c : ascii) : is_digit c = true -> is_space c = false.
Proof.
  unfold is_digit, is_space.
  rewrite andb_true_iff, !Nat.leb_le. intros H.
  apply orb_false_iff. split; apply andb_false_iff;
    rewrite !Nat.leb_gt; lia.
Qed.

Lemma digit_lower (c : ascii) : is_digit c = true -> lower_char c = c.
Proof.
  unfold lower_char, is_digit, is_upper.
  rewrite andb_true_iff, !Nat.leb_le. intros H.
  replace ((65 <=? code c)%nat) with false; auto.
  symmetry. apply Nat.leb_gt. lia.
Qed.

Lemma lower_app (a b : string) : lower (a ++ b) = lower a ++ lower b.
Proof. induction a as [| c a IH]; simpl; congruence. Qed.

Lemma lower_digits (t : string) : all_digits t = true -> lower t = t.
Proof.
  unfold all_digits. induction t as [| c t IH]; simpl; auto.
  rewrite andb_true_iff. intros [Hc Ht].
  now rewrite (digit_lower _ Hc), IH.
Qed.

Lemma rstrip_digits (t : string) :
  all_digits t = true -> rstrip_chars is_space t = t.
Proof.
  unfold all_digits. induction t as [| c t IH]; simpl; auto.
  rewrite andb_true_iff. intros [Hc Ht]. rewrite (IH Ht).
  destruct t; auto. now rewrite (digit_not_space _ Hc).
Qed.

Lemma rstrip_app (a b : string) :
  rstrip_chars is_space b = b -> truthy b = true ->
  rstrip_chars is_space (a ++ b) = a ++ b.
Proof.
  intros Hb H. induction a as [| c a IH]; simpl; auto.
  rewrite IH. destruct (a ++ b) eqn:E; auto.
  destruct a; simpl in E; [| discriminate].
  rewrite E in H. discriminate.
Qed.

Lemma truthy_app_r (a b : string) : truthy b = true -> truthy (a ++ b) = true.
Proof. destruct a; simpl; auto. Qed.

Lemma digits_head (t : string) (rest : string) :
  isdigit t = true -> head_ok (t ++ rest).
Proof.
  unfold isdigit, all_digits. destruct t as [| c t]; simpl; [discriminate |].
  rewrite andb_true_iff. intros [Hc _]. now apply digit_not_space.
Qed.

(** The text of a query of the form is what the parser matches on. *)
Lemma top_query_text (count form yr : string) :
  isdigit count = true -> digits 4 yr -> In form top_forms ->
  strip (lower (top_query count form yr)) = top_query count form yr.
Proof.
  intros Hn [Hlen Hy] Hf. unfold isdigit in Hn.
  apply andb_true_iff in Hn. destruct Hn as [_ Hn].
  assert (Hl : lower (top_query count form yr) = top_query count form yr).
  { unfold top_query. rewrite !lower_app, (lower_digits _ Hn),
      (lower_digits _ Hy).
    simpl in Hf. decompose [or] Hf; subst; try reflexivity; tauto. }
  rewrite Hl. unfold top_query, strip, strip_chars. simpl lstrip_chars.
  assert (Hr : truthy yr = true).
  { destruct yr; simpl in *; [lia | auto]. }
  change (String "t" (String "o" (String "p" (String " "
            (count ++ form ++ yr)))))
    with ("top " ++ (count ++ form ++ yr)).
  repeat (apply rstrip_app; [| repeat apply truthy_app_r; exact Hr]).
  now apply rstrip_digits.
Qed.

Lemma ok_chr (R : Type) (c : ascii) (p : option ascii) (s : string)
      (cs : caps) (k : cont R) (x : R) :
  k (Some c) s cs = Some x ->
  rmatch false (Chr (CLit c)) p (String c s) cs k = Some x.
Proof. intros H. simpl. now rewrite Ascii.eqb_refl. Qed.

Lemma append_nil_r (s : string) : s ++ "" = s.
Proof. induction s as [| c s IH]; simpl; congruence. Qed.

Lemma isdigit_length (t : string) : isdigit t = true -> 1 <= String.length t.
Proof. destruct t; simpl; [discriminate | lia]. Qed.

(** The evaluation of a match that succeeds, piece by piece. *)
Ltac eval_match :=
  cbv beta; cbn [append];
  lazymatch goal with
  | |- rmatch false (Seq _ _) _ _ _ _ = Some _ => apply ok_seq; eval_match
  | |- rmatch false (Alt _ _) _ _ _ _ = Some _ =>
      first [ solve [apply ok_alt_l; eval_match]
            | apply ok_alt_r; [reflexivity | eval_match] ]
  | |- rmatch false Eps _ _ _ _ = Some _ => apply ok_eps; eval_match
  | |- rmatch false (Chr (CLit _)) _ _ _ _ = Some _ =>
      apply ok_chr; eval_match
  | |- rmatch false (Rep CSpace 1 None true) _ _ _ _ = Some _ =>
      apply ok_sp1;
      [ first [reflexivity | eapply digits_head; eassumption] | eval_match ]
  | |- rmatch false (Grp _ (Rep CDigit _ _ true)) _ _ _ _ = Some _ =>
      apply ok_digits;
      [ assumption
      | first [eapply isdigit_length; eassumption | lia]
      | first [reflexivity | simpl; lia]
      | eval_match ]
  | |- Some _ = Some _ => reflexivity
  end.

(** The first pattern matches a query of the form at its start, whatever
    follows the year; its groups are the count and the year. *)
Lemma top_pattern_matches (count form yr rest : string) :
  isdigit count = true -> digits 4 yr -> In form top_forms ->
  re_search false
    (seqs [lit "top"; sp1; Grp 1 digits1; sp1; songs; sp1; of_from_in; sp1;
           Grp 2 (digitsN 4)])
    ("top " ++ count ++ form ++ yr ++ rest)
  = Some [(1, count); (2, yr)].
Proof.
  intros Hn [Hlen Hy] Hf.
  assert (Hn' : all_digits count = true).
  { unfold isdigit in Hn. apply andb_true_iff in Hn. tauto. }
  assert (Hy' : isdigit yr = true).
  { unfold isdigit. rewrite Hy. destruct yr; simpl in *; [lia | auto]. }
  unfold re_search. apply search_from_here.
  unfold songs, of_from_in, sp1, digits1, digitsN, opt.
  cbn [seqs alts lit].
  simpl in Hf. decompose [or] Hf; subst; try tauto; eval_match.
Qed.

(** The body of the first rule on the match of a query of the form. *)
Lemma top_year_body_on (count yr : string) :
  digits 4 yr ->
  top_year_body [(1, count); (2, yr)]
  = if (String.length count <=? int_max_str_digits)%nat
    then ok (Some (mkParsed (Some "top_songs") (Some (int_of_digits count))
                            (Some (int_of_digits yr)) None None None))
    else raised (ValueError_int_max_str_digits (String.length count)).
Proof.
  intros Hy. unfold top_year_body. cbn [group Nat.eqb].
  unfold py_int at 1.
  destruct (String.length count <=? int_max_str_digits)%nat; cbn [bind];
    [| reflexivity].
  rewrite (@py_int_digits _ _ Hy); [reflexivity | lia].
Qed.

Lemma top_query_parse (count form yr : string) :
  isdigit count = true -> digits 4 yr -> In form top_forms ->
  enhanced_query_parser (top_query count form yr)
  = if (String.length count <=? int_max_str_digits)%nat
    then ok (mkParsed (Some "top_songs") (Some (int_of_digits count))
                      (Some (int_of_digits yr)) None None None)
    else raised (ValueError_int_max_str_digits (String.length count)).
Proof.
  intros Hn Hy Hf. unfold enhanced_query_parser. cbv zeta.
  rewrite (@top_query_text _ _ _ Hn Hy Hf).
  unfold cascade, top_year_patterns. cbn [run_cascade].
  assert (H := @top_pattern_matches count form yr "" Hn Hy Hf).
  rewrite append_nil_r in H.
  rewrite (@try_patterns_first _ _ top_year_body _ _ H
             (@top_year_body_never_skips _)).
  rewrite (top_year_body_on count Hy).
  now destruct (String.length count <=? int_max_str_digits)%nat.
Qed.

(** X18.  A query of the form [top N songs of YYYY], with [song] for
    [songs] and [from] or [in] for [of], is understood for every year of
    four digits and every count [N] written in at most 4300 digits: the
    parse is a top-songs request with that count, however large, and that
    year.  On a count of more digits the conversion raises, and so does
    the parser. *)
Theorem top_query_is_understood (count form yr : string) :
  isdigit count = true -> digits 4 yr -> In form top_forms ->
  enhanced_query_parser (top_query count form yr)
  = if (String.length count <=? int_max_str_digits)%nat
    then ok (mkParsed (Some "top_songs") (Some (int_of_digits count))
                      (Some (int_of_digits yr)) None None None)
    else raised (ValueError_int_max_str_digits (String.length count)).
Proof.
  intros Hn Hy Hf. unfold enhanced_query_parser. cbv zeta.
  rewrite (@top_query_text _ _ _ Hn Hy Hf).
  assert (H := @top_pattern_matches count form yr "" Hn Hy Hf).
  rewrite append_nil_r in H.
  unfold cascade, top_year_patterns. cbn [run_cascade].
  erewrite try_patterns_first;
    [| exact H | apply top_year_body_never_skips].
  rewrite (top_year_body_on count Hy).
  now destruct (String.length count <=? int_max_str_digits)%nat.
Qed.

Lemma top_query_is_understood_witness :
  enhanced_query_parser (top_query "075" " song from " "1985")
  = if (String.length "075" <=? int_max_str_digits)%nat
    then ok (mkParsed (Some "top_songs") (Some (int_of_digits "075"))
                      (Some (int_of_digits "1985")) None None None)
    else raised (ValueError_int_max_str_digits (String.length "075")).
Proof.
  apply (@top_query_is_understood "075" " song from " "1985").
  - reflexivity.
  - split; reflexivity.
  - simpl. tauto.
Defined.

Section Respond.
Variable partial_ratio : string -> string -> Z.
Variable pattern_compiles : string -> bool.
Variable search_nocase : string -> string -> bool.
Variable parse_query_with_flan : string -> string.
Variable df : DataFrame.

Let respond :=
  respond_to_query partial_ratio pattern_compiles search_nocase
                   parse_query_with_flan df.

(** X19.  The answer to a query of the form [top N songs of YYYY] whose
    count has at most 4300 digits: the request for a year when the year is
    0000, the out-of-range message when the year is outside the range of
    the frame, and otherwise the list of [get_top_songs_by_year] for that
    year and the count [N] as it is written, without a cap.  On a count of
    more digits the answer is the text of the handler, with the error of
    the conversion. *)
Theorem top_query_answer (count form yr : string) :
  isdigit count = true -> digits 4 yr -> In form top_forms ->
  let n := int_of_digits count in
  let y := int_of_digits yr in
  respond (top_query count form yr)
  = if (String.length count <=? int_max_str_digits)%nat then
      if (y =? 0)%Z then specify_year
      else if validate_year_range df y
           then top_songs_answer
                  (format_top_songs (get_top_songs_by_year df y n) y n)
           else year_outside_range y
    else something_went_wrong
           (ValueError_int_max_str_digits (String.length count)).
Proof.
  intros Hn Hy Hf. cbv zeta.
  unfold respond, respond_to_query, extract.
  rewrite (@top_query_parse _ _ _ Hn Hy Hf).
  unfold top_query. cbn [append truthy negb].
  destruct (String.length count <=? int_max_str_digits)%nat;
    cbn [bind has_keys]; [| reflexivity].
  unfold extract_enhanced, route.
  cbn [q_intent q_n q_year q_song q_artist q_decade_start get_or
       x_intent x_year x_n falsy_int].
  change (String.eqb "top_songs" "top_songs") with true. cbv iota.
  destruct (int_of_digits yr =? 0)%Z; auto.
  destruct (validate_year_range df (int_of_digits yr)); reflexivity.
Qed.
End Respond.

Lemma top_query_answer_witness :
  respond_to_query Samples.no_similarity Samples.always_compiles
                   Samples.literal_search Samples.flan_unknown
                   Samples.small_chart (top_query "1" " songs in " "2020")
  = if (String.length "1" <=? int_max_str_digits)%nat then
      if (int_of_digits "2020" =? 0)%Z then specify_year
      else if validate_year_range Samples.small_chart (int_of_digits "2020")
           then top_songs_answer
                  (format_top_songs
                     (get_top_songs_by_year Samples.small_chart
                        (int_of_digits "2020") (int_of_digits "1"))
                     (int_of_digits "2020") (int_of_digits "1"))
           else year_outside_range (int_of_digits "2020")
    else something_went_wrong
           (ValueError_int_max_str_digits (String.length "1")).
Proof.
  apply (@top_query_answer Samples.no_similarity Samples.always_compiles
           Samples.literal_search Samples.flan_unknown Samples.small_chart
           "1" " songs in " "2020").
  - reflexivity.
  - split; reflexivity.
  - simpl. tauto.
Defined.

(** A count of 4301 digits: the orchestrator answers with the text of its
    handler. *)
Example long_count_answer :
  respond_to_query Samples.no_similarity Samples.always_compiles
                   Samples.literal_search Samples.flan_unknown
                   Samples.small_chart
                   (top_query MoreSamples.long_count " songs of " "2020")
  = something_went_wrong (ValueError_int_max_str_digits 4301).
Proof. vm_compute. reflexivity. Qed.

End TopQueryFacts.

(** ** The orchestrator: what an answer can be *)

Module OrchestratorFacts.
Import PyStr PyList Re Parser DataUtils Chatbot Spec Terms.
Import PyListFacts SongMatchFacts RankingFacts ParserFacts ParserMoreFacts.

Lemma enumerate_fst (A : Type) (l : list A) :
  forall i, map fst (enumerate i l) = seq i (List.length l).
Proof.
  induction l as [| x l IH]; intros i; simpl; auto. now rewrite IH.
Qed.

Lemma enumerate_snd (A : Type) (l : list A) :
  forall i, map snd (enumerate i l) = l.
Proof.
  induction l as [| x l IH]; intros i; simpl; auto. now rewrite IH.
Qed.

(** The list that answers a query with several matches numbers the
    matches from 1, in their order. *)
Lemma format_multiple (ms : list Match) (oq oq' : string) (c : nat)
      (entries : list ListedMatch) :
  format_song_duration_results ms oq = multiple_matches c oq' entries ->
  c = List.length ms /\ 2 <= c /\ oq' = oq
  /\ map l_index entries = seq 1 c
  /\ map l_match entries = ms
  /\ Forall (fun e => l_indicator e = match_indicator (l_match e)) entries.
Proof.
  unfold format_song_duration_results. intros H.
  assert (Hm : multiple_matches (List.length ms) oq
                 (map (fun im => mkListed (fst im) (snd im)
                                          (match_indicator (snd im)))
                      (enumerate 1 ms))
               = multiple_matches c oq' entries
               /\ 2 <= List.length ms).
  { destruct ms as [| m1 [| m2 ms']]; try discriminate.
    split; [exact H | simpl; lia]. }
  clear H. destruct Hm as [Hm H2]. injection Hm as <- <- <-.
  split; [reflexivity | split; [exact H2 | split; [reflexivity |]]].
  rewrite !map_map. cbn [l_index l_match].
  change (fun x : nat * Match => fst x) with (@fst nat Match).
  change (fun x : nat * Match => snd x) with (@snd nat Match).
  rewrite enumerate_fst, enumerate_snd.
  split; [reflexivity | split; [reflexivity |]].
  apply Forall_forall. intros e He. apply in_map_iff in He.
  destruct He as [im [<- _]]. reflexivity.
Qed.

Section Respond.
Variable partial_ratio : string -> string -> Z.
Variable pattern_compiles : string -> bool.
Variable search_nocase : string -> string -> bool.
Variable parse_query_with_flan : string -> string.
Variable df : DataFrame.

Let respond :=
  respond_to_query partial_ratio pattern_compiles search_nocase
                   parse_query_with_flan df.
Let route :=
  Chatbot.route partial_ratio pattern_compiles search_nocase df.
Let extract := Chatbot.extract parse_query_with_flan.
Let song_matches :=
  Chatbot.song_matches partial_ratio pattern_compiles search_nocase df.

Ltac route_cases :=
  unfold route, Chatbot.route;
  repeat match goal with
         | |- context [if ?b then _ else _] =>
             let E := fresh "E" in destruct b eqn:E
         end;
  try discriminate.

Lemma route_top_songs (x : Extracted) (t : SongListText) :
  route x = top_songs_answer t ->
  exists y,
    x_year x = Some y /\ validate_year_range df y = true
    /\ t = format_top_songs (get_top_songs_by_year df y (x_n x)) y (x_n x).
Proof.
  route_cases. intros [= <-].
  destruct (x_year x) as [y |]; [| discriminate].
  exists y. simpl in *. apply negb_false_iff in E1. auto.
Qed.

(** The two routes that end in an answer on the duration of a song, with
    the search that each of them runs. *)
Lemma route_duration (x : Extracted) (t : DurationText) :
  route x = duration_answer t ->
  (x_intent x = "song_duration_with_artist"
   /\ t = format_song_duration_results
            (song_matches (PyStr (x_song x)) (Some (x_artist x)) 3 60)
            (x_song x ++ " by " ++ x_artist x)%string)
  \/ (x_intent x = "song_duration"
      /\ t = format_song_duration_results
               (song_matches (PyStr (x_song x)) None 5 60) (x_song x)).
Proof.
  route_cases; intros [= <-];
    repeat match goal with
           | H : String.eqb _ _ = true |- _ => apply String.eqb_eq in H
           end;
    [left | right]; split; auto.
Qed.

(** The three ways in which an answer comes about: the query is empty,
    the parameters are extracted and routed, or their extraction raises. *)
Lemma respond_route (query : string) (r : Response) :
  respond query = r ->
  r = enter_valid_query
  \/ (exists x, extract query = ok x /\ route x = r)
  \/ (exists e, extract query = raised e /\ r = something_went_wrong e).
Proof.
  unfold respond, respond_to_query.
  destruct (negb (truthy query)); auto.
  fold extract. destruct (extract query) as [x | e]; intros <-.
  - right; left. eauto.
  - right; right. eauto.
Qed.

(** X20.  A list of top songs is only ever given for a year within the
    range of the frame; the list is not empty, its header counts its rows,
    the rows are sorted by best rank, no song and artist is listed twice,
    and each row summarises the chart entries of its song and artist in
    that year. *)
Theorem top_songs_answers_are_sound (query : string) (t : SongListText) :
  respond query = top_songs_answer t ->
  match t with
  | no_songs_found y => validate_year_range df y = true
  | song_list c y songs =>
      validate_year_range df y = true
      /\ c = List.length songs /\ songs <> []
      /\ StronglySorted rank_le songs
      /\ NoDup (map key songs)
      /\ Forall (summarises last_week
                            (filter (fun e => (year e =? y)%Z) df)) songs
  end.
Proof.
  intros H. apply respond_route in H.
  destruct H as [H | [[x [_ H]] | [e [_ H]]]]; try discriminate.
  apply route_top_songs in H. destruct H as [y [_ [Hv ->]]].
  unfold format_top_songs.
  destruct (get_top_songs_by_year df y (x_n x))
    as [| g gs] eqn:E; [exact Hv |].
  rewrite <- E.
  split; [exact Hv | split; [reflexivity | split; [rewrite E; discriminate |]]].
  split; [| split].
  - unfold get_top_songs_by_year.
    destruct (filter _ df); [constructor | apply slice_sorted_distinct].
  - unfold get_top_songs_by_year.
    destruct (filter _ df); [constructor | apply slice_sorted_distinct].
  - apply Forall_forall. intros g' Hg'.
    eapply top_rows_summarise; eauto.
Qed.

(** X21.  An answer that lists several matches lists the result of the
    search that the route of the query runs: the search for the song and
    the artist with the bound 3 when the query names an artist, the search
    for the song with the bound 5 when it does not, each with the
    threshold 60.  The entries are the matches of that result, all of
    them and in its order, numbered from 1, each with the marker of its
    tier; the header counts them, and they are at least two and at most
    five, at most three when the query names an artist. *)
Theorem duration_lists_are_short (query : string) (c : nat)
        (original_query : string) (entries : list ListedMatch) :
  respond query
  = duration_answer (multiple_matches c original_query entries) ->
  exists x,
    extract query = ok x
    /\ ((x_intent x = "song_duration_with_artist"
         /\ map l_match entries
            = song_matches (PyStr (x_song x)) (Some (x_artist x)) 3 60
         /\ original_query = (x_song x ++ " by " ++ x_artist x)%string
         /\ c <= 3)
        \/ (x_intent x = "song_duration"
            /\ map l_match entries
               = song_matches (PyStr (x_song x)) None 5 60
            /\ original_query = x_song x))
    /\ 2 <= c <= 5
    /\ List.length entries = c
    /\ map l_index entries = seq 1 c
    /\ Forall (fun e => l_indicator e = match_indicator (l_match e)) entries.
Proof.
  intros H. apply respond_route in H.
  destruct H as [H | [[x [Hx H]] | [e [_ H]]]]; try discriminate.
  exists x. split; [exact Hx |].
  assert (H3 := @matches_of_length partial_ratio pattern_compiles
                  search_nocase df (PyStr (x_song x)) (Some (x_artist x))
                  3 60 ltac:(lia)).
  assert (H5 := @matches_of_length partial_ratio pattern_compiles
                  search_nocase df (PyStr (x_song x)) None
                  5 60 ltac:(lia)).
  apply route_duration in H.
  destruct H as [[Hi Hf] | [Hi Hf]];
    symmetry in Hf; apply format_multiple in Hf;
    destruct Hf as [Hc [H2 [Hoq [Hidx [Hm Hind]]]]];
    assert (Hlen : List.length entries = c)
      by (rewrite <- (length_map l_index), Hidx; apply length_seq);
    unfold song_matches, Chatbot.song_matches in *; subst c.
  - split; [left; repeat split; auto; lia |].
    split; [lia | split; [| split]]; auto.
  - split; [right; repeat split; auto |].
    split; [lia | split; [| split]]; auto.
Qed.

(** X22.  When the local parser recognises nothing, the parameters come
    from the translator and are limited: the count lies between 0 and 50,
    a year is not negative, there is no decade, and so the answer is never
    a list of the songs of a decade. *)
Theorem translator_path_is_limited (query : string) :
  enhanced_query_parser query = ok empty_result ->
  (forall x,
      extract query = ok x ->
      (0 <= x_n x <= 50)%Z
      /\ (forall y, x_year x = Some y -> (0 <= y)%Z)
      /\ x_decade_start x = None)
  /\ forall t, respond query <> decade_answer t.
Proof.
  intros He.
  assert (Hx : extract query = extract_flan (parse_query_with_flan query)).
  { unfold extract, Chatbot.extract. now rewrite He. }
  assert (Hd : forall s, isdigit s = true -> (0 <= int_of_digits s)%Z).
  { intros s Hs. unfold isdigit in Hs. apply andb_true_iff in Hs.
    destruct Hs as [_ Hs]. apply int_of_digits_bounds in Hs. lia. }
  assert (Hlim : forall x,
             extract query = ok x ->
             (0 <= x_n x <= 50)%Z
             /\ (forall y, x_year x = Some y -> (0 <= y)%Z)
             /\ x_decade_start x = None).
  { intros x. rewrite Hx. unfold extract_flan.
    set (d := parse_flan_output_to_dict (parse_query_with_flan query)).
    destruct (isdigit (dict_get "year" "" d)) eqn:Ey;
      [destruct (py_int_cases (dict_get "year" "" d)) as [[_ ->] | [_ ->]];
       cbn [bind]; [| discriminate] |];
      cbn [bind];
      (destruct (isdigit (dict_get "n" "" d)) eqn:En;
       [destruct (py_int_cases (dict_get "n" "" d)) as [[_ ->] | [_ ->]];
        cbn [bind]; [| discriminate] |]);
      cbn [bind]; intros [= <-]; cbn [x_n x_year x_decade_start];
      (split; [| split; [| reflexivity]]);
      try (apply Hd in En); try (apply Hd in Ey);
      try lia; intros y [= <-]; exact Ey. }
  split; [exact Hlim |].
  intros t H. apply respond_route in H.
  destruct H as [H | [[x [Hex H]] | [e [_ H]]]]; try discriminate.
  destruct (Hlim x Hex) as [_ [_ Hdec]].
  revert H. route_cases.
  unfold falsy_int in *. rewrite Hdec in *. discriminate.
Qed.
End Respond.

Lemma top_songs_answers_are_sound_witness :
  let songs := [ mkGroup "Blinding Lights" "The Weeknd" 1 1 16 3;
                 mkGroup "The Box" "Roddy Ricch" 1 1 14 1 ] in
  validate_year_range Samples.small_chart 2020 = true
  /\ 2 = List.length songs /\ songs <> []
  /\ StronglySorted rank_le songs
  /\ NoDup (map key songs)
  /\ Forall (summarises last_week
                        (filter (fun e => (year e =? 2020)%Z)
                                Samples.small_chart)) songs.
Proof.
  apply (@top_songs_answers_are_sound Samples.no_similarity
           Samples.always_compiles Samples.literal_search
           Samples.flan_unknown Samples.small_chart
           "top 10 songs of 2020"
           (song_list 2 2020
              [ mkGroup "Blinding Lights" "The Weeknd" 1 1 16 3;
                mkGroup "The Box" "Roddy Ricch" 1 1 14 1 ])).
  vm_compute. reflexivity.
Defined.

Lemma duration_lists_are_short_witness :
  let entries :=
    [ mkListed 1 (mkMatch "Hello" "Adele" 2 1 1 2015 100 exact) exact_mark;
      mkListed 2 (mkMatch "Hello" "Lionel Richie" 6 3 3 1984 100 exact)
               exact_mark ] in
  let song_matches :=
    song_matches Samples.no_similarity Samples.always_compiles
                 Samples.literal_search Samples.hello_chart in
  exists x,
    extract Samples.flan_unknown "how long was hello on the chart" = ok x
    /\ ((x_intent x = "song_duration_with_artist"
         /\ map l_match entries
            = song_matches (PyStr (x_song x)) (Some (x_artist x)) 3%Z 60%Z
         /\ "hello" = (x_song x ++ " by " ++ x_artist x)%string
         /\ 2 <= 3)
        \/ (x_intent x = "song_duration"
            /\ map l_match entries
               = song_matches (PyStr (x_song x)) None 5%Z 60%Z
            /\ "hello" = x_song x))
    /\ 2 <= 2 <= 5
    /\ List.length entries = 2
    /\ map l_index entries = seq 1 2
    /\ Forall (fun e => l_indicator e = match_indicator (l_match e)) entries.
Proof.
  apply (@duration_lists_are_short Samples.no_similarity
           Samples.always_compiles Samples.literal_search
           Samples.flan_unknown Samples.hello_chart
           "how long was hello on the chart" 2 "hello").
  vm_compute. reflexivity.
Defined.

Lemma translator_path_is_limited_witness :
  (forall x,
      extract Samples.flan_unknown "asdkjaskjd" = ok x ->
      (0 <= x_n x <= 50)%Z
      /\ (forall y, x_year x = Some y -> (0 <= y)%Z)
      /\ x_decade_start x = None)
  /\ forall t,
       respond_to_query Samples.no_similarity Samples.always_compiles
                        Samples.literal_search Samples.flan_unknown
                        Samples.small_chart "asdkjaskjd"
       <> decade_answer t.
Proof.
  apply (@translator_path_is_limited Samples.no_similarity
           Samples.always_compiles Samples.literal_search
           Samples.flan_unknown Samples.small_chart "asdkjaskjd").
  vm_compute. reflexivity.
Defined.

End OrchestratorFacts.

(** ** The reading of the translator's answer *)

Module TranslatorFacts.
Import PyStr PyList Re Parser DataUtils Chatbot Spec Terms Tokens.
Import ParserMoreFacts TopQueryFacts SpaceFacts.
Local Open Scope string_scope.

Lemma has_char_lstrip (c : ascii) (s : string) :
  has_char c s = false -> has_char c (lstrip_chars is_space s) = false.
Proof.
  induction s as [| a s IH]; simpl; auto.
  intros H. destruct (is_space a); auto.
  apply orb_false_iff in H. now apply IH.
Qed.

Lemma has_char_rstrip (c : ascii) (s : string) :
  has_char c s = false -> has_char c (rstrip_chars is_space s) = false.
Proof.
  induction s as [| a s IH]; simpl; auto.
  intros H. apply orb_false_iff in H. destruct H as [Ha Hs].
  specialize (IH Hs).
  destruct (rstrip_chars is_space s) as [| b r] eqn:E.
  - destruct (is_space a); simpl; auto. now rewrite Ha.
  - cbn [has_char]. rewrite Ha. exact IH.
Qed.

Lemma has_char_strip (c : ascii) (s : string) :
  has_char c s = false -> has_char c (strip s) = false.
Proof.
  intros H. unfold strip, strip_chars.
  now apply has_char_rstrip, has_char_lstrip.
Qed.

Lemma has_char_split (c sep : ascii) (s : string) :
  has_char c s = false ->
  Forall (fun item => has_char c item = false) (split_on sep s).
Proof.
  induction s as [| a s IH]; simpl; intros H.
  - repeat constructor.
  - apply orb_false_iff in H. destruct H as [Ha Hs]. specialize (IH Hs).
    destruct (Ascii.eqb a sep).
    + constructor; auto.
    + destruct (split_on sep s) as [| item items].
      * repeat constructor. simpl. now rewrite Ha.
      * inversion IH; subst. constructor; auto. simpl. now rewrite Ha.
Qed.

(** An answer without a colon binds no key. *)
Lemma no_colon_no_keys (raw_text : string) :
  has_char ":" raw_text = false -> parse_flan_output_to_dict raw_text = [].
Proof.
  intros H. unfold parse_flan_output_to_dict.
  assert (Hitems := @has_char_split ":" ";" _ (@has_char_strip _ _ H)).
  induction Hitems as [| item items Hitem _ IH]; simpl; auto.
  now rewrite (@has_char_strip _ _ Hitem).
Qed.

Lemma split_on_none (sep : ascii) (a : string) :
  has_char sep a = false -> split_on sep a = [a].
Proof.
  induction a as [| c a IH]; simpl; auto.
  intros H. apply orb_false_iff in H. destruct H as [Hc Ha].
  rewrite Hc, (IH Ha). reflexivity.
Qed.

Lemma split_on_sep (sep : ascii) (a b : string) :
  has_char sep a = false ->
  split_on sep (a ++ String sep b) = a :: split_on sep b.
Proof.
  induction a as [| c a IH]; simpl.
  - intros _. now rewrite Ascii.eqb_refl.
  - intros H. apply orb_false_iff in H. destruct H as [Hc Ha].
    rewrite Hc, (IH Ha). reflexivity.
Qed.

Lemma has_char_app (c : ascii) (a b : string) :
  has_char c (a ++ b) = has_char c a || has_char c b.
Proof.
  induction a as [| x a IH]; simpl; auto. now rewrite IH, orb_assoc.
Qed.

Lemma has_char_digits (c : ascii) (t : string) :
  is_digit c = false -> all_digits t = true -> has_char c t = false.
Proof.
  unfold all_digits. intros Hc.
  induction t as [| a t IH]; simpl; auto.
  rewrite andb_true_iff. intros [Ha Ht]. rewrite (IH Ht), orb_false_r.
  destruct (Ascii.eqb a c) eqn:E; auto.
  apply Ascii.eqb_eq in E. congruence.
Qed.

Lemma lstrip_digits (t : string) :
  all_digits t = true -> lstrip_chars is_space t = t.
Proof.
  unfold all_digits. destruct t as [| c t]; simpl; auto.
  rewrite andb_true_iff. intros [Hc _].
  now rewrite (digit_not_space _ Hc).
Qed.

Lemma isdigit_parts (t : string) :
  isdigit t = true -> truthy t = true /\ all_digits t = true.
Proof. unfold isdigit. now rewrite andb_true_iff. Qed.

(** A text that does not start with white space and ends with a value
    that does not end with white space is left as it is. *)
Lemma strip_after_key (pre t : string) :
  rstrip_chars is_space t = t -> truthy t = true -> head_ok (pre ++ t) ->
  strip (pre ++ t) = pre ++ t.
Proof.
  intros Hr Ht Hh. unfold strip, strip_chars.
  assert (Hl : lstrip_chars is_space (pre ++ t) = pre ++ t).
  { destruct (pre ++ t) as [| c r]; simpl in *; auto. now rewrite Hh. }
  rewrite Hl. now apply rstrip_app.
Qed.

Lemma stripped_parts (t : string) :
  strip t = t ->
  rstrip_chars is_space t = t /\ head_ok t.
Proof.
  intros H. unfold strip, strip_chars in H. split.
  - rewrite <- H at 1. rewrite rstrip_idem. exact H.
  - assert (Hl : lstrip_chars is_space t = t).
    { rewrite <- H at 1.
      rewrite (lstrip_rstrip _ (head_ok_lstrip t)). exact H. }
    rewrite <- Hl. apply head_ok_lstrip.
Qed.

Lemma append_assoc (a b c : string) : (a ++ b) ++ c = a ++ (b ++ c).
Proof. induction a as [| x a IH]; simpl; congruence. Qed.

Lemma split_on_item (sep : ascii) (pre t rest : string) :
  has_char sep pre = false -> has_char sep t = false ->
  split_on sep (pre ++ t ++ String sep rest)
  = (pre ++ t) :: split_on sep rest.
Proof.
  intros Hp Ht. rewrite <- append_assoc. apply split_on_sep.
  now rewrite has_char_app, Hp, Ht.
Qed.

Lemma split_on_last (sep : ascii) (pre t : string) :
  has_char sep pre = false -> has_char sep t = false ->
  split_on sep (pre ++ t) = [pre ++ t].
Proof.
  intros Hp Ht. apply split_on_none. now rewrite has_char_app, Hp, Ht.
Qed.

Section Reading.
(** One turn of the loop of [parse_flan_output_to_dict]. *)
Let turn (parsed : Dict) (item : string) : Dict :=
  let item := strip item in
  if has_char ":" item then
    let (key, value) := split_first ":" item in
    dict_set (lower (strip key)) (strip value) parsed
  else parsed.

Lemma turn_value (key value : string) (parsed : Dict) :
  strip value = value -> truthy value = true ->
  In key ["year"; "n"; "song"] ->
  turn parsed (" " ++ key ++ ": " ++ value) = dict_set key value parsed.
Proof.
  intros Hs Ht Hk. destruct (@stripped_parts _ Hs) as [Hr Hh].
  assert (Hv : strip (" " ++ value) = value).
  { change (strip (" " ++ value)) with (strip value). exact Hs. }
  unfold turn. cbv zeta.
  simpl in Hk. decompose [or] Hk; subst; try tauto.
  - change (strip (" " ++ "year" ++ ": " ++ value))
      with (strip ("year: " ++ value)).
    rewrite (@strip_after_key "year: " value Hr Ht eq_refl).
    cbn [append has_char split_first Ascii.eqb Bool.eqb orb].
    change (String " " value) with (" " ++ value). now rewrite Hv.
  - change (strip (" " ++ "n" ++ ": " ++ value))
      with (strip ("n: " ++ value)).
    rewrite (@strip_after_key "n: " value Hr Ht eq_refl).
    cbn [append has_char split_first Ascii.eqb Bool.eqb orb].
    change (String " " value) with (" " ++ value). now rewrite Hv.
  - change (strip (" " ++ "song" ++ ": " ++ value))
      with (strip ("song: " ++ value)).
    rewrite (@strip_after_key "song: " value Hr Ht eq_refl).
    cbn [append has_char split_first Ascii.eqb Bool.eqb orb].
    change (String " " value) with (" " ++ value). now rewrite Hv.
Qed.

Lemma digits_stripped (t : string) :
  isdigit t = true -> strip t = t /\ truthy t = true /\ has_char ";" t = false.
Proof.
  intros H. apply isdigit_parts in H. destruct H as [Ht Hd].
  split; [| split]; auto.
  - unfold strip, strip_chars.
    now rewrite (lstrip_digits _ Hd), (rstrip_digits _ Hd).
  - now apply has_char_digits.
Qed.

(** The dictionary read from an answer in the format for top songs. *)
Lemma top_songs_output_dict (yr count : string) :
  isdigit yr = true -> isdigit count = true ->
  parse_flan_output_to_dict (top_songs_output yr count)
  = [("intent", "top_songs"); ("year", yr); ("n", count)].
Proof.
  intros Hy Hn.
  destruct (@digits_stripped _ Hy) as [Hys [Hyt Hyc]].
  destruct (@digits_stripped _ Hn) as [Hns [Hnt Hnc]].
  destruct (@stripped_parts _ Hns) as [Hnr _].
  unfold parse_flan_output_to_dict, top_songs_output.
  fold turn.
  assert (Hstrip : strip ("intent: top_songs; year: " ++ yr ++ "; n: " ++ count)
                   = "intent: top_songs"
                     ++ String ";"
                          (" year: " ++ yr ++ String ";" (" n: " ++ count))).
  { assert (Hr0 : rstrip_chars is_space
                     ("intent: top_songs; year: " ++ (yr ++ ("; n: " ++ count)))
                   = "intent: top_songs; year: " ++ (yr ++ ("; n: " ++ count))).
    { repeat (apply rstrip_app; [| repeat apply truthy_app_r; exact Hnt]).
      exact Hnr. }
    exact Hr0. }
  rewrite Hstrip.
  rewrite (@split_on_sep ";" "intent: top_songs" _ eq_refl).
  rewrite (@split_on_item ";" " year: " yr _ eq_refl Hyc).
  rewrite (@split_on_last ";" " n: " count eq_refl Hnc).
  cbn [fold_left].
  change (turn [] "intent: top_songs") with [("intent", "top_songs")].
  rewrite (@turn_value "year" yr _ Hys Hyt ltac:(simpl; tauto)).
  rewrite (@turn_value "n" count _ Hns Hnt ltac:(simpl; tauto)).
  reflexivity.
Qed.

(** The dictionary read from an answer in the format for a song. *)
Lemma song_duration_output_dict (title : string) :
  has_char ";" title = false -> strip title = title ->
  truthy title = true ->
  parse_flan_output_to_dict (song_duration_output title)
  = [("intent", "song_duration"); ("song", title)].
Proof.
  intros Hc Hs Ht. destruct (@stripped_parts _ Hs) as [Hr _].
  unfold parse_flan_output_to_dict, song_duration_output. fold turn.
  rewrite (@strip_after_key "intent: song_duration; song: " title Hr Ht
             eq_refl).
  change ("intent: song_duration; song: " ++ title)
    with ("intent: song_duration" ++ String ";" (" song: " ++ title)).
  rewrite (@split_on_sep ";" "intent: song_duration" _ eq_refl).
  rewrite (@split_on_last ";" " song: " title eq_refl Hc).
  cbn [fold_left].
  change (turn [] "intent: song_duration")
    with [("intent", "song_duration")].
  rewrite (@turn_value "song" title _ Hs Ht ltac:(simpl; tauto)).
  reflexivity.
Qed.
End Reading.

Section Respond.
Variable partial_ratio : string -> string -> Z.
Variable pattern_compiles : string -> bool.
Variable search_nocase : string -> string -> bool.
Variable parse_query_with_flan : string -> string.
Variable df : DataFrame.

Let respond :=
  respond_to_query partial_ratio pattern_compiles search_nocase
                   parse_query_with_flan df.

Lemma respond_by_translator (query : string) :
  truthy query = true -> enhanced_query_parser query = ok empty_result ->
  respond query
  = match extract_flan (parse_query_with_flan query) with
    | ok x => route partial_ratio pattern_compiles search_nocase df x
    | raised e => something_went_wrong e
    end.
Proof.
  intros Ht He. unfold respond, respond_to_query, extract.
  now rewrite Ht, He.
Qed.

(** X23.  When the local parser recognises nothing and the answer of the
    translator has no colon, so that it binds no key, the reply is the
    help text. *)
Theorem answer_without_keys_gets_help (query : string) :
  truthy query = true -> enhanced_query_parser query = ok empty_result ->
  has_char ":" (parse_query_with_flan query) = false ->
  respond query = help_message.
Proof.
  intros Ht He Hc. rewrite (@respond_by_translator _ Ht He).
  unfold extract_flan. now rewrite (@no_colon_no_keys _ Hc).
Qed.

(** X24.  When the local parser recognises nothing and the translator
    answers in its format for top songs, with a year and a count written
    in digits, of at most 4300 digits each, the reply is the one for that
    year and that count capped at 50: the request for a year when the year
    is zero, the out-of-range message when the year is outside the range
    of the frame, and the list of [get_top_songs_by_year] otherwise.  The
    year is converted first and the count after it, both before the
    routing: when one of them has more than 4300 digits, the reply is the
    text of the handler with the error of the first conversion that
    fails. *)
Theorem translated_top_songs_answer (query yr count : string) :
  truthy query = true -> enhanced_query_parser query = ok empty_result ->
  isdigit yr = true -> isdigit count = true ->
  parse_query_with_flan query = top_songs_output yr count ->
  let n := Z.min (int_of_digits count) 50 in
  let y := int_of_digits yr in
  respond query
  = if (int_max_str_digits <? String.length yr)%nat then
      something_went_wrong
        (ValueError_int_max_str_digits (String.length yr))
    else if (int_max_str_digits <? String.length count)%nat then
      something_went_wrong
        (ValueError_int_max_str_digits (String.length count))
    else if (y =? 0)%Z then specify_year
    else if validate_year_range df y
         then top_songs_answer
                (format_top_songs (get_top_songs_by_year df y n) y n)
         else year_outside_range y.
Proof.
  intros Ht He Hy Hn Hf. cbv zeta.
  rewrite (@respond_by_translator _ Ht He), Hf.
  unfold extract_flan. rewrite (@top_songs_output_dict _ _ Hy Hn).
  cbn [dict_get String.eqb Ascii.eqb Bool.eqb]. rewrite Hy, Hn.
  unfold py_int. rewrite !Nat.ltb_antisym.
  destruct (String.length yr <=? int_max_str_digits)%nat;
    cbn [bind negb]; [| reflexivity].
  destruct (String.length count <=? int_max_str_digits)%nat;
    cbn [bind negb]; [| reflexivity].
  unfold route.
  cbn [x_intent x_year x_n lower lower_char falsy_int get_or].
  change (String.eqb (lower "top_songs") "top_songs") with true.
  cbv iota.
  destruct (int_of_digits yr =? 0)%Z; auto.
  destruct (validate_year_range df (int_of_digits yr)); reflexivity.
Qed.

(** X25.  When the local parser recognises nothing and the translator
    answers in its format for a song, with a title that has no semicolon
    and no white space at its ends, the song that is searched is the title
    without the quotes around it, among all artists and with at most five
    matches; a title that is only quotes gets the request for a song
    name. *)
Theorem translated_song_answer (query title : string) :
  truthy query = true -> enhanced_query_parser query = ok empty_result ->
  has_char ";" title = false -> strip title = title ->
  truthy title = true ->
  parse_query_with_flan query = song_duration_output title ->
  let song := strip_quotes title in
  respond query
  = if truthy song
    then duration_answer
           (format_song_duration_results
              (get_song_matches_with_duration
                 partial_ratio pattern_compiles search_nocase df
                 (PyStr song) None 5 60)
              song)
    else specify_song.
Proof.
  intros Ht He Hc Hs Htt Hf. cbv zeta.
  rewrite (@respond_by_translator _ Ht He), Hf.
  unfold extract_flan. rewrite (@song_duration_output_dict _ Hc Hs Htt).
  cbn [dict_get String.eqb Ascii.eqb Bool.eqb isdigit truthy andb bind].
  unfold route, song_matches. cbn [x_intent x_song].
  change (String.eqb (lower "song_duration") "top_songs") with false.
  change (String.eqb (lower "song_duration") "top_songs_decade") with false.
  change (String.eqb (lower "song_duration") "song_duration_with_artist")
    with false.
  change (String.eqb (lower "song_duration") "song_duration") with true.
  cbv iota. destruct (truthy (strip_quotes title)); reflexivity.
Qed.
End Respond.

(** X26.  A query that is not empty but holds only white space is not
    refused as an empty query: no local rule matches it, the translator
    answers it at once with its empty-query text, and the reply is the
    help text. *)
Theorem blank_query_gets_help
        (partial_ratio : string -> string -> Z)
        (pattern_compiles : string -> bool)
        (search_nocase : string -> string -> bool)
        (run_model : string -> string) (df : DataFrame) (query : string) :
  truthy query = true -> strip query = "" ->
  respond_to_query partial_ratio pattern_compiles search_nocase
                   (FlanParser.parse_query_with_flan run_model) df query
  = help_message.
Proof.
  intros Ht Hs.
  assert (He : enhanced_query_parser query = ok empty_result).
  { unfold enhanced_query_parser. cbv zeta. rewrite strip_lower, Hs.
    vm_compute. reflexivity. }
  rewrite (@respond_by_translator _ _ _ _ _ _ Ht He).
  unfold FlanParser.parse_query_with_flan. rewrite Hs.
  vm_compute. reflexivity.
Qed.

Lemma blank_query_gets_help_witness :
  respond_to_query Samples.no_similarity Samples.always_compiles
                   Samples.literal_search
                   (FlanParser.parse_query_with_flan
                      MoreSamples.flan_top_2020)
                   Samples.small_chart "   "
  = help_message.
Proof.
  apply (@blank_query_gets_help Samples.no_similarity
           Samples.always_compiles Samples.literal_search
           MoreSamples.flan_top_2020 Samples.small_chart "   ");
    reflexivity.
Defined.

Lemma answer_without_keys_gets_help_witness :
  respond_to_query Samples.no_similarity Samples.always_compiles
                   Samples.literal_search MoreSamples.flan_silent
                   Samples.small_chart "which tracks ruled 2020"
  = help_message.
Proof.
  apply (@answer_without_keys_gets_help Samples.no_similarity
           Samples.always_compiles Samples.literal_search
           MoreSamples.flan_silent Samples.small_chart
           "which tracks ruled 2020");
    vm_compute; reflexivity.
Defined.

Lemma translated_top_songs_answer_witness :
  let n := Z.min (int_of_digits "75") 50 in
  let y := int_of_digits "2020" in
  respond_to_query Samples.no_similarity Samples.always_compiles
                   Samples.literal_search MoreSamples.flan_top_2020
                   Samples.small_chart "which tracks ruled 2020"
  = if (int_max_str_digits <? String.length "2020")%nat then
      something_went_wrong
        (ValueError_int_max_str_digits (String.length "2020"))
    else if (int_max_str_digits <? String.length "75")%nat then
      something_went_wrong
        (ValueError_int_max_str_digits (String.length "75"))
    else if (y =? 0)%Z then specify_year
    else if validate_year_range Samples.small_chart y
         then top_songs_answer
                (format_top_songs
                   (get_top_songs_by_year Samples.small_chart y n) y n)
         else year_outside_range y.
Proof.
  apply (@translated_top_songs_answer Samples.no_similarity
           Samples.always_compiles Samples.literal_search
           MoreSamples.flan_top_2020 Samples.small_chart
           "which tracks ruled 2020" "2020" "75");
    vm_compute; reflexivity.
Defined.

Lemma translated_song_answer_witness :
  let song := strip_quotes "Blinding Lights" in
  respond_to_query Samples.no_similarity Samples.always_compiles
                   Samples.literal_search MoreSamples.flan_blinding_lights
                   Samples.small_chart "tell me about blinding lights"
  = if truthy song
    then duration_answer
           (format_song_duration_results
              (get_song_matches_with_duration
                 Samples.no_similarity Samples.always_compiles
                 Samples.literal_search Samples.small_chart
                 (PyStr song) None 5 60)
              song)
    else specify_song.
Proof.
  apply (@translated_song_answer Samples.no_similarity
           Samples.always_compiles Samples.literal_search
           MoreSamples.flan_blinding_lights Samples.small_chart
           "tell me about blinding lights" "Blinding Lights");
    vm_compute; reflexivity.
Defined.

(** A translator that answers with a year of 4301 digits: the conversion
    of the year raises, and the reply is the text of the handler. *)
Example translated_long_year_answer :
  respond_to_query Samples.no_similarity Samples.always_compiles
                   Samples.literal_search
                   (fun _ => top_songs_output MoreSamples.long_count "5")
                   Samples.small_chart "which tracks ruled 2020"
  = something_went_wrong (ValueError_int_max_str_digits 4301).
Proof. vm_compute. reflexivity. Qed.

End TranslatorFacts.
